(** * safe/storage/utilities.py: keyword metadata store and geometry maths

    A shallow embedding of the keyword file reader and writer
    ([read_keywords], [write_keywords], [_keywords_to_string]) and of the
    geometry routines [bbox_intersection], [calculate_polygon_area],
    [calculate_polygon_centroid] and [points_between_points]; then of the
    geotransform conversions ([geotransform2bbox],
    [geotransform2resolution], [raster_geometry2geotransform]), of
    [minimal_bounding_box] and [buffered_bounding_box], and of
    [points_along_line].

    Conventions of the embedding.
    - A Python 2 byte string is a [list ascii]; [lit "abc"] is a literal.
    - A dictionary is a [gmap]: equality of maps is equality of dictionaries.
      The order in which a Python 2 dictionary is iterated is unspecified,
      so the writer is parameterised by the iteration order and every
      theorem about it holds for each order.
    - A raised exception is the [Raise] branch of [result]; an operation on
      the file system returns the new file system as well, also when it
      raises.
    - Bounding boxes and geotransforms only go through field operations
      and comparisons, which are modelled on the rationals [Q]; the
      resampling of a segment takes a square root and is modelled on the
      reals [R] (floating point rounding is not modelled there).
    - The area and the centroid of a polygon are computed by numpy on
      binary64 floats, and what they return far from the origin is decided
      by rounding: they are modelled on the primitive floats [PrimFloat],
      whose operations are those of IEEE 754. *)

From Stdlib Require Import Floats Ascii String QArith Qabs Reals Psatz.
From stdpp Require Import gmap strings list fin_maps.

(** ** Python values and exceptions *)

Module Py.

Definition str := list ascii.

Definition lit (s : string) : str := list_ascii_of_string s.

Definition nl : ascii := "010"%char.

Inductive exn :=
  | VerificationError   (* raised by safe.common.utilities.verify *)
  | ZeroDivisionError
  | IndexError
  | ValueError
  | StrError.           (* whatever the __str__ of a value raises *)

Inductive result (A : Type) :=
  | Ok (a : A)
  | Raise (e : exn).
Arguments Ok {A} a.
Arguments Raise {A} e.

Definition verify {A} (b : bool) (k : result A) : result A :=
  if b then k else Raise VerificationError.

(** Characters removed by [str.strip] and [str.rstrip] without argument. *)
Definition is_space (c : ascii) : bool :=
  match c with
  | "009" | "010" | "011" | "012" | "013" | " " => true
  | _ => false
  end%char.

Fixpoint lstrip (s : str) : str :=
  match s with
  | [] => []
  | c :: s' => if is_space c then lstrip s' else s
  end.

Definition rstrip (s : str) : str := rev (lstrip (rev s)).

Definition strip (s : str) : str := rstrip (lstrip s).

(** [s.find(c)]: index of the first occurrence, [None] for Python's -1. *)
Fixpoint find (c : ascii) (s : str) : option nat :=
  match s with
  | [] => None
  | x :: s' => if Ascii.eqb x c then Some 0 else S <$> find c s'
  end.

(** [s.rfind(c)]: index of the last occurrence, -1 when there is none. *)
Fixpoint rfind_from (c : ascii) (s : str) (i acc : Z) : Z :=
  match s with
  | [] => acc
  | x :: s' => rfind_from c s' (i + 1) (if Ascii.eqb x c then i else acc)
  end.

Definition rfind (c : ascii) (s : str) : Z := rfind_from c s 0 (-1).

(** [fid.readlines()]: the lines of a text, each with its terminator. *)
Fixpoint readlines (s : str) : list str :=
  match s with
  | [] => []
  | c :: s' =>
      if Ascii.eqb c nl then [c] :: readlines s'
      else match readlines s' with
           | [] => [[c]]
           | l :: ls => (c :: l) :: ls
           end
  end.

(** [os.path.splitext] (posixpath, Python 2.6 and later): the extension
    starts at the last dot of the last path component, and the leading
    dots of that component do not start an extension. *)
Definition splitext (p : str) : str * str :=
  let sepIndex := rfind "/" p in
  let dotIndex := rfind "." p in
  if (sepIndex <? dotIndex)%Z then
    let name := drop (Z.to_nat (sepIndex + 1)) (take (Z.to_nat dotIndex) p) in
    if existsb (fun c => negb (Ascii.eqb c ".")) name
    then (take (Z.to_nat dotIndex) p, drop (Z.to_nat dotIndex) p)
    else (p, [])
  else (p, []).

End Py.

Import Py.

(** ** The keyword store *)

Module KeywordStore.

(** Keys and values of a keywords dictionary handed to the writer. A key
    is a string or some other hashable object (an integer here); a value
    is [None], a string, or an object whose [str()] is [Some s] or raises. *)
Inductive pykey :=
  | KStr (s : str)
  | KInt (z : Z).

Inductive pyval :=
  | VNone
  | VStr (s : str)
  | VObj (shown : option str).

#[global] Instance pykey_eq_dec : EqDecision pykey.
Proof. solve_decision. Defined.

#[global] Instance pykey_countable : Countable pykey.
Proof.
  refine (inj_countable'
            (fun k => match k with KStr s => inl s | KInt z => inr z end)
            (fun x => match x with inl s => KStr s | inr z => KInt z end) _).
  intros []; reflexivity.
Defined.

#[global] Instance pyval_eq_dec : EqDecision pyval.
Proof. solve_decision. Defined.

Abbreviation kwdict := (gmap pykey pyval).
Abbreviation blockmap := (gmap str (gmap pykey pyval)).
Abbreviation filesystem := (gmap str str).

(** [str(v)] *)
Definition py_str (v : pyval) : result str :=
  match v with
  | VNone => Ok (lit "None")
  | VStr s => Ok s
  | VObj (Some s) => Ok s
  | VObj None => Raise StrError
  end.

(** *** Reading *)

(** [re.search(r'^\[.*]$', text, re.M | re.I)] on a text without newline
    (the text is a line of the file with its trailing whitespace removed):
    it starts with an opening and ends with a closing bracket. *)
Definition block_flag (text : str) : bool :=
  match text with
  | c :: rest =>
      Ascii.eqb c "[" &&
      match last rest with Some d => Ascii.eqb d "]" | None => false end
  | [] => false
  end.

(** [text[1:-1]] *)
Definition inner (text : str) : str := removelast (tail text).

Record pstate := PState {
  blocks : blockmap;
  keywords : kwdict;
  current_block : option str;
  first_keywords : option kwdict
}.

Definition nonempty (d : kwdict) : bool := bool_decide (0 < size d).

(** The key and value of a data line. *)
Definition parse_entry (text : str) : pykey * pyval :=
  match find ":" text with
  | None => (KStr (strip text), VNone)
  | Some idx => (KStr (take idx text), VStr (strip (drop (S idx) text)))
  end.

(** One turn of the loop [for line in fid.readlines()]. *)
Definition step (st : pstate) (line : str) : pstate :=
  let text := rstrip line in
  match text with
  | [] => st
  | _ =>
    if block_flag text then
      {| blocks :=
           match current_block st with
           | Some b =>
               if nonempty (keywords st) then <[b := keywords st]> (blocks st)
               else blocks st
           | None => blocks st
           end;
         first_keywords :=
           match first_keywords st with
           | None =>
               if nonempty (keywords st) then Some (keywords st) else None
           | Some f => Some f
           end;
         current_block := Some (inner text);
         keywords := ∅ |}
    else
      let '(key, val) := parse_entry text in
      {| blocks := blocks st;
         keywords := <[key := val]> (keywords st);
         current_block := current_block st;
         first_keywords := first_keywords st |}
  end.

Definition init : pstate :=
  {| blocks := ∅; keywords := ∅; current_block := None;
     first_keywords := None |}.

(** The state after the loop and the two statements that follow it. *)
Definition finish (st : pstate) : pstate :=
  {| blocks :=
       match current_block st with
       | Some b =>
           if nonempty (keywords st) then <[b := keywords st]> (blocks st)
           else blocks st
       | None => blocks st
       end;
     first_keywords :=
       match first_keywords st with
       | None => Some (keywords st)
       | Some f => Some f
       end;
     current_block := current_block st;
     keywords := keywords st |}.

Definition parse (content : str) : pstate :=
  finish (fold_left step (readlines content) init).

(** What [read_keywords] returns: a dictionary of blocks, a dictionary of
    keywords, or [None] when the function falls off its end. The empty
    dictionary returned for a missing file is [RBlocks ∅] when all blocks
    were asked for and [RKeywords ∅] otherwise: both are Python's [{}]. *)
Inductive pyret :=
  | RBlocks (b : blockmap)
  | RKeywords (k : kwdict)
  | RNone.

Definition read_keywords (fs : filesystem) (filename : str)
    (sublayer : option str) (all_blocks : bool) : result pyret :=
  verify (bool_decide ((splitext filename).2 = lit ".keywords"))
    match fs !! filename with
    | None => Ok (if all_blocks then RBlocks ∅ else RKeywords ∅)
    | Some content =>
        let st := parse content in
        if all_blocks then Ok (RBlocks (blocks st))
        else match sublayer with
             | Some name =>
                 match blocks st !! name with
                 | Some k => Ok (RKeywords k)
                 | None => Ok RNone
                 end
             | None =>
                 match first_keywords st with
                 | Some k => Ok (RKeywords k)
                 | None => Ok RNone
                 end
             end
    end.

(** *** Writing *)

Section Writer.

(** The order in which [keywords.items()] and
    [existing_keywords.iteritems()] enumerate a dictionary. *)
Variable items_kw : kwdict -> list (pykey * pyval).
Variable items_blocks : blockmap -> list (str * kwdict).

(** The body of the loop of [_keywords_to_string]: the text of one entry.
    The message of the last check is formatted with [%s] of the value
    before the [try], so a value that cannot be shown raises there. *)
Definition entry_to_string (k : pykey) (v : pyval) : result str :=
  match k with
  | KInt _ => Raise VerificationError
  | KStr key =>
      verify (negb (existsb (Ascii.eqb ":") key))
        match py_str v with
        | Raise e => Raise e
        | Ok val => Ok (key ++ lit ": " ++ val ++ [nl])
        end
  end.

Fixpoint entries_to_string (l : list (pykey * pyval)) (acc : str)
    : result str :=
  match l with
  | [] => Ok acc
  | (k, v) :: l' =>
      match entry_to_string k v with
      | Raise e => Raise e
      | Ok s => entries_to_string l' (acc ++ s)
      end
  end.

Definition header (sublayer : option str) : str :=
  match sublayer with
  | Some name => lit "[" ++ name ++ lit "]" ++ [nl]
  | None => []
  end.

Definition _keywords_to_string (keywords : kwdict) (sublayer : option str)
    : result str :=
  entries_to_string (items_kw keywords) (header sublayer).

(** [handle = file(filename, 'wt')] creates or truncates the file;
    [handle.write(s)] appends to it. Buffering is not modelled: what was
    written before an exception is in the file. *)
Definition open_wt (filename : str) (fs : filesystem) : filesystem :=
  <[filename := []]> fs.

Definition handle_write (filename : str) (s : str) (fs : filesystem)
    : filesystem :=
  alter (fun content => content ++ s) filename fs.

(** The loop [for key, value in existing_keywords.iteritems()]. *)
Fixpoint write_blocks (l : list (str * kwdict)) (filename : str)
    (fs : filesystem) : result unit * filesystem :=
  match l with
  | [] => (Ok tt, fs)
  | (key, value) :: l' =>
      match _keywords_to_string value (Some key) with
      | Raise e => (Raise e, fs)
      | Ok s =>
          write_blocks l' filename
            (handle_write filename [nl] (handle_write filename s fs))
      end
  end.

(** The dictionary that [read_keywords(filename, all_blocks=True)] hands
    back to the writer. *)
Definition as_blocks (r : pyret) : blockmap :=
  match r with
  | RBlocks b => b
  | _ => ∅
  end.

Definition write_keywords (keywords : kwdict) (filename : str)
    (sublayer : option str) (fs : filesystem) : result unit * filesystem :=
  if negb (bool_decide ((splitext filename).2 = lit ".keywords"))
  then (Raise VerificationError, fs)
  else
    match read_keywords fs filename None true with
    | Raise e => (Raise e, fs)
    | Ok r =>
        let existing_keywords := as_blocks r in
        let first_value :=
          match items_blocks existing_keywords with
          | [] => None
          | (k, _) :: _ => existing_keywords !! k
          end in
        let multilayer_flag :=
          match first_value with Some _ => true | None => false end in
        let fs := open_wt filename fs in
        let single sub :=
          match _keywords_to_string keywords sub with
          | Raise e => (Raise e, fs)
          | Ok s => (Ok tt, handle_write filename s fs)
          end in
        if multilayer_flag then
          match sublayer with
          | Some (c :: name) =>
              write_blocks
                (items_blocks (<[c :: name := keywords]> existing_keywords))
                filename fs
          | _ => single None
          end
        else single sublayer
    end.

End Writer.

End KeywordStore.

(** ** Bounding boxes *)

Module BoundingBox.

Local Open Scope Q_scope.

Definition qlt (a b : Q) : bool := negb (Qle_bool b a).

(** [max(a, b)] and [min(a, b)] keep their first argument unless the
    second is strictly larger (smaller). *)
Definition pymax (a b : Q) : Q := if qlt a b then b else a.
Definition pymin (a b : Q) : Q := if qlt b a then b else a.

(** [result[i] = f(result[i], box[i])] *)
Definition update (f : Q -> Q -> Q) (box : list Q) (res : list Q) (i : nat)
    : list Q :=
  <[i := f (nth i res 0) (nth i box 0)]> res.

(** The body of the loop [for a in args]. *)
Definition intersect_box (res : list Q) (box : list Q) : result (list Q) :=
  verify (Nat.eqb (length box) 4)
    (verify (qlt (nth 0 box 0) (nth 2 box 0))
       (verify (qlt (nth 1 box 0) (nth 3 box 0))
          (Ok (fold_left (update pymin box) [2; 3]%nat
                 (fold_left (update pymax box) [0; 1]%nat res))))).

Fixpoint intersect_all (res : list Q) (args : list (list Q))
    : result (list Q) :=
  match args with
  | [] => Ok res
  | a :: args' =>
      match intersect_box res a with
      | Raise e => Raise e
      | Ok res' => intersect_all res' args'
      end
  end.

Definition universe : list Q := [-180; -90; 180; 90].

(** [None] in the result is Python's [None]. *)
Definition bbox_intersection (args : list (list Q))
    : result (option (list Q)) :=
  verify (Nat.ltb 1 (length args))
    match intersect_all universe args with
    | Raise e => Raise e
    | Ok res =>
        if qlt (nth 0 res 0) (nth 2 res 0) && qlt (nth 1 res 0) (nth 3 res 0)
        then Ok (Some res)
        else Ok None
    end.

(** The box the specification describes: the largest west and south and
    the smallest east and north, the universal box included. *)
Definition column (i : nat) (args : list (list Q)) : list Q :=
  map (fun box => nth i box 0) args.

Definition bbox_spec (args : list (list Q)) : list Q :=
  [ fold_left pymax (column 0 args) (-180);
    fold_left pymax (column 1 args) (-90);
    fold_left pymin (column 2 args) 180;
    fold_left pymin (column 3 args) 90 ].

Definition valid_box (box : list Q) : Prop :=
  length box = 4%nat /\ nth 0 box 0 < nth 2 box 0 /\ nth 1 box 0 < nth 3 box 0.


End BoundingBox.

(** ** Polygons *)

Module Polygon.

Local Open Scope float_scope.

(** The array [numpy.array(polygon)] of a sequence of coordinate pairs
    of floats: numpy holds them as binary64 numbers and computes on them
    with the IEEE 754 operations, which are those of [PrimFloat]. (A
    sequence of Python ints would make an array of 64-bit integers, whose
    arithmetic is another one; it is not a value of this type.) *)
Definition polygon := list (float * float).

(** [x[:-1] * y[1:]] and the like: element by element on two arrays of
    the same length. *)
Definition vmul := zip_with PrimFloat.mul.
Definition vsub := zip_with PrimFloat.sub.
Definition vadd := zip_with PrimFloat.add.

(** [a - b] for [a = x[:-1] * y[1:]] and [b = y[:-1] * x[1:]], with [x]
    and [y] the two columns of the array [P]. *)
Definition cross (P : polygon) : list float :=
  let x := map fst P in
  let y := map snd P in
  vsub (vmul (removelast x) (tail y)) (vmul (removelast y) (tail x)).

(** [numpy.minimum] of two numbers: a nan wins, otherwise the smaller. *)
Definition np_minimum (a b : float) : float :=
  if is_nan a then a else if is_nan b then b else if b <? a then b else a.

(** [numpy.amin(P, axis=0)] *)
Definition amin (P : polygon) : result (float * float) :=
  match P with
  | [] => Raise ValueError
  | (x, y) :: P' =>
      Ok (fold_left np_minimum (map fst P') x,
          fold_left np_minimum (map snd P') y)
  end.

(** [P - P_origin] *)
Definition translate (o : float * float) (P : polygon) : polygon :=
  map (fun p => (p.1 - o.1, p.2 - o.2)) P.

Section Numpy.

(** [numpy.sum] of an array of floats. numpy is not code of this
    repository and the order in which it adds the elements of a long
    array depends on its version, so the function is a parameter; what
    is assumed of it is stated where it is used. *)
Variable np_sum : list float -> float.

Definition calculate_polygon_area (P : polygon) (signed : bool)
    : result float :=
  match P with
  | [] => Raise IndexError      (* P.shape[1] of an array of shape (0,) *)
  | _ =>
      let A := np_sum (cross P) / 2 in
      Ok (if signed then A else PrimFloat.abs A)
  end.

(** The centroid. A division by zero gives an infinity or a nan (numpy
    warns, it does not raise). *)
Definition calculate_polygon_centroid (polygon : polygon)
    : result (float * float) :=
  match amin polygon with
  | Raise e => Raise e
  | Ok P_origin =>
      let P := translate P_origin polygon in
      match calculate_polygon_area polygon true with
      | Raise e => Raise e
      | Ok A =>
          let x := map fst P in
          let y := map snd P in
          let cx := vadd (removelast x) (tail x) in
          let cy := vadd (removelast y) (tail y) in
          let Cx := np_sum (vmul cx (cross P)) / (6 * A) in
          let Cy := np_sum (vmul cy (cross P)) / (6 * A) in
          Ok (Cx + P_origin.1, Cy + P_origin.2)
      end
  end.

End Numpy.

(** *** The computation in the words of the specification *)

(** The terms of a sum over the edges of a ring. *)
Fixpoint over_edges (f : float * float -> float * float -> float)
    (ring : polygon) : list float :=
  match ring with
  | p :: (q :: _) as rest => f p q :: over_edges f rest
  | _ => []
  end.

Definition total (terms : list float) : float :=
  fold_left PrimFloat.add terms 0.

Fixpoint least (m : float) (l : list float) : float :=
  match l with
  | [] => m
  | v :: l' => least (if v <? m then v else m) l'
  end.

Definition shoelace (p q : float * float) : float := p.1 * q.2 - q.1 * p.2.

(** Translate the vertices by the least coordinates, take the signed
    area of the translated ring, divide the two sums over its edges by
    six times that area, and translate back. *)
Definition centroid_reference (ring : polygon) : option (float * float) :=
  match ring with
  | [] => None
  | (x0, y0) :: others =>
      let ox := least x0 (map fst others) in
      let oy := least y0 (map snd others) in
      let moved := map (fun p => (p.1 - ox, p.2 - oy)) ring in
      let A := total (over_edges shoelace moved) / 2 in
      let Cx := total (over_edges (fun p q => (p.1 + q.1) * shoelace p q) moved)
                / (6 * A) in
      let Cy := total (over_edges (fun p q => (p.2 + q.2) * shoelace p q) moved)
                / (6 * A) in
      Some (Cx + ox, Cy + oy)
  end.

End Polygon.

(** ** Resampling a segment *)

Module Resample.

Local Open Scope R_scope.

Definition point := (R * R)%type.

(** [int(x)] truncates towards zero. *)
Definition py_int (x : R) : Z := if Rle_dec 0 x then Zfloor x else Zceil x.

Definition segment_length (point1 point2 : point) : R :=
  sqrt ((point2.1 - point1.1) ^ 2 + (point2.2 - point1.2) ^ 2).

(** [point1 + uu * n * delta] *)
Definition stepped (point1 uu : point) (delta : R) (n : nat) : point :=
  (point1.1 + uu.1 * INR n * delta, point1.2 + uu.2 * INR n * delta).

(** [L / delta] is a division of Python floats and raises for a zero
    [delta]; the division of the array by [L] does not raise, and its
    value for [L = 0] is not used: there are no pieces then. *)
Definition points_between_points (point1 point2 : point) (delta : R)
    : result (list point) :=
  let L := segment_length point1 point2 in
  if Req_dec_T delta 0 then Raise ZeroDivisionError
  else
    let pieces := py_int (L / delta) in
    let uu := ((point2.1 - point1.1) / L, (point2.2 - point1.2) / L) in
    Ok (point1 ::
        map (fun nn => stepped point1 uu delta (nn + 1))
          (seq 0 (Z.to_nat pieces))).


End Resample.

(** ** Geotransforms and the other operations on bounding boxes *)

Module Raster.

Local Open Scope Q_scope.

(** [seq[i]] for an index that is not negative. *)
Definition item {A : Type} (l : list A) (i : nat) : result A :=
  match l !! i with
  | Some x => Ok x
  | None => Raise IndexError
  end.

Definition bind {A B} (r : result A) (k : A -> result B) : result B :=
  match r with
  | Ok a => k a
  | Raise e => Raise e
  end.

Local Notation "'let*' x ':=' r 'in' k" := (bind r (fun x => k))
  (at level 10, x name, r at level 100, k at level 200).

(** [bbox[i] += d] and [bbox[i] -= d]: the element is read, then stored. *)
Definition add_at (i : nat) (d : Q) (bbox : list Q) : result (list Q) :=
  let* x := item bbox i in Ok (<[i := x + d]> bbox).

Definition sub_at (i : nat) (d : Q) (bbox : list Q) : result (list Q) :=
  let* x := item bbox i in Ok (<[i := x - d]> bbox).

Definition geotransform2bbox (geotransform : list Q) (columns rows : Q)
    : result (list Q) :=
  let* x_origin := item geotransform 0 in
  let* y_origin := item geotransform 3 in
  let* x_res := item geotransform 1 in
  let* y_res := item geotransform 5 in
  let minx := x_origin in
  let maxx := x_origin + columns * x_res in
  let miny := y_origin + rows * y_res in
  let maxy := y_origin in
  Ok [minx; miny; maxx; maxy].

(** [numpy.allclose(a, b, rtol, atol)] on two numbers. *)
Definition allclose (a b rtol atol : Q) : bool :=
  Qle_bool (Qabs (a - b)) (atol + rtol * Qabs b).

(** The resolution that [geotransform2resolution] returns: one number
    when isotropic, a pair otherwise. *)
Inductive resolution :=
  | Res (r : Q)
  | ResXY (resx resy : Q).

Definition geotransform2resolution (geotransform : list Q) (isotropic : bool)
    (rtol atol : Q) : result resolution :=
  let* resx := item geotransform 1 in
  let* g5 := item geotransform 5 in
  let resy := - g5 in
  if isotropic then verify (allclose resx resy rtol atol) (Ok (Res resx))
  else Ok (ResXY resx resy).

(** [latitudes[-1]] *)
Definition last_item (l : list Q) : result Q :=
  match last l with
  | Some x => Ok x
  | None => Raise IndexError
  end.

Definition raster_geometry2geotransform (longitudes latitudes : list Q)
    : result (list Q) :=
  let nx := length longitudes in
  let ny := length latitudes in
  verify (Nat.ltb 1 nx)
    (verify (Nat.ltb 1 ny)
       (let* lon0 := item longitudes 0 in
        let* lon1 := item longitudes 1 in
        let* lat0 := item latitudes 0 in
        let* lat1 := item latitudes 1 in
        let* latn := last_item latitudes in
        let dx := lon1 - lon0 in
        let dy := lat0 - lat1 in
        let dx2 := dx / 2 in
        let dy2 := dy / 2 in
        Ok [lon0 - dx2; dx; 0; latn - dy2; 0; dy])).

(** [buffered_bounding_box]: the resolution is [None], a pair
    [(resx, resy)] (the unpacking succeeds) or a single number (the
    unpacking fails and both are that number). The list is a copy, so
    nothing of what was changed before an exception is seen. *)
Definition buffered_bounding_box (bbox : list Q)
    (resolution : option resolution) : result (list Q) :=
  match resolution with
  | None => Ok bbox
  | Some res =>
      let '(resx, resy) :=
        match res with
        | ResXY rx ry => (rx, ry)
        | Res r => (r, r)
        end in
      let* b := sub_at 0 resx bbox in
      let* b := sub_at 1 resy b in
      let* b := add_at 2 resx b in
      add_at 3 resy b
  end.

(** Numbers as [minimal_bounding_box] meets them: the module does not
    import [division] from [__future__], so [/] between two ints is the
    floor division of Python 2, and between floats (idealised as
    rationals) the true one. An operation on an int and a float gives a
    float. *)
Inductive num :=
  | Int (z : Z)
  | Float (q : Q).

Definition value (a : num) : Q :=
  match a with
  | Int z => inject_Z z
  | Float q => q
  end.







End Raster.

(** ** Resampling a line *)

Module Polyline.

Import Resample.
Local Open Scope R_scope.

(** [numpy.allclose(a, b)] on two points, with the default tolerances
    [rtol = 1e-5] and [atol = 1e-8]: every coordinate has
    [|a - b| <= atol + rtol * |b|]. *)
Definition close (a b : R) : bool :=
  if Rle_dec (Rabs (a - b)) (1 / 100000000 + 1 / 100000 * Rabs b)
  then true else false.

Definition points_close (p q : point) : bool :=
  close p.1 q.1 && close p.2 q.2.

(** The body of the loop after the call of [points_between_points]:
    [pts] loses its first point when [points] is not empty and ends
    close to it, and is added to [points]. *)
Definition extend (points pts : list point) : result (list point) :=
  match last points with
  | None => Ok (points ++ pts)
  | Some end_point =>
      match pts with
      | [] => Raise IndexError
      | first :: rest =>
          Ok (points ++ (if points_close end_point first then rest else pts))
      end
  end.

(** The loop [for i in range(len(P) - 1)] on the segments of [P]. *)
Fixpoint segments (P : list point) (delta : R) (points : list point)
    : result (list point) :=
  match P with
  | p :: (q :: _) as P' =>
      match points_between_points p q delta with
      | Raise e => Raise e
      | Ok pts =>
          match extend points pts with
          | Raise e => Raise e
          | Ok points' => segments P' delta points'
          end
      end
  | _ => Ok points
  end.

Definition points_along_line (line : list point) (delta : R)
    : result (list point) :=
  segments line delta [].

End Polyline.

(** ** Properties of the bounding box intersection *)

Module BoundingBoxFacts.

Import BoundingBox.
Local Open Scope Q_scope.

Lemma qlt_true (a b : Q) : qlt a b = true <-> a < b.
Proof.
  unfold qlt. rewrite negb_true_iff, <- not_true_iff_false, Qle_bool_iff.
  split; [apply Qnot_le_lt | apply Qlt_not_le].
Qed.

Lemma qlt_false (a b : Q) : qlt a b = false <-> b <= a.
Proof.
  unfold qlt. rewrite negb_false_iff, Qle_bool_iff. reflexivity.
Qed.

Ltac qorder :=
  match goal with
  | H1 : ?a < ?b, H2 : ?b <= ?a |- _ => exact (Qlt_not_le _ _ H1 H2)
  end.

Lemma intersect_box_valid (w s e n : Q) (box : list Q) :
  valid_box box ->
  intersect_box [w; s; e; n] box =
    Ok [pymax w (nth 0 box 0); pymax s (nth 1 box 0);
        pymin e (nth 2 box 0); pymin n (nth 3 box 0)].
Proof.
  intros (Hlen & Hwe & Hsn). unfold intersect_box.
  rewrite Hlen. apply qlt_true in Hwe, Hsn. rewrite Hwe, Hsn. reflexivity.
Qed.

Lemma intersect_box_invalid (res box : list Q) :
  ~ valid_box box -> intersect_box res box = Raise VerificationError.
Proof.
  intros Hbad. unfold intersect_box, verify.
  destruct (Nat.eqb (length box) 4) eqn:Hlen; [|reflexivity].
  destruct (qlt (nth 0 box 0) (nth 2 box 0)) eqn:Hwe; [|reflexivity].
  destruct (qlt (nth 1 box 0) (nth 3 box 0)) eqn:Hsn; [|reflexivity].
  exfalso. apply Hbad. apply Nat.eqb_eq in Hlen.
  apply qlt_true in Hwe, Hsn. repeat split; assumption.
Qed.

Lemma valid_box_dec (box : list Q) : {valid_box box} + {~ valid_box box}.
Proof.
  unfold valid_box.
  destruct (Nat.eq_dec (length box) 4%nat);
    destruct (Qlt_le_dec (nth 0 box 0) (nth 2 box 0));
    destruct (Qlt_le_dec (nth 1 box 0) (nth 3 box 0));
    try (left; repeat split; assumption);
    right; intros (? & ? & ?);
    try contradiction; qorder.
Qed.

Lemma intersect_all_valid (args : list (list Q)) :
  Forall valid_box args ->
  forall w s e n,
    intersect_all [w; s; e; n] args =
      Ok [fold_left pymax (column 0 args) w; fold_left pymax (column 1 args) s;
          fold_left pymin (column 2 args) e; fold_left pymin (column 3 args) n].
Proof.
  induction 1 as [|box args Hbox _ IH]; intros w s e n; [reflexivity|].
  cbn [intersect_all]. rewrite (intersect_box_valid _ _ _ _ _ Hbox).
  rewrite IH. reflexivity.
Qed.

Lemma intersect_all_invalid (args : list (list Q)) :
  Exists (fun box => ~ valid_box box) args ->
  forall res, intersect_all res args = Raise VerificationError.
Proof.
  induction 1 as [box args Hbad|box args _ IH]; intros res; cbn [intersect_all].
  - rewrite (intersect_box_invalid _ _ Hbad). reflexivity.
  - destruct (intersect_box res box) as [res'|e] eqn:Hbox.
    + apply IH.
    + destruct (valid_box_dec box) as [Hv|Hv].
      * unfold intersect_box in Hbox. destruct Hv as (Hlen & Hwe & Hsn).
        rewrite Hlen in Hbox. apply qlt_true in Hwe, Hsn.
        rewrite Hwe, Hsn in Hbox. discriminate.
      * rewrite (intersect_box_invalid _ _ Hv) in Hbox. congruence.
Qed.



End BoundingBoxFacts.

(** ** The centroid far from the origin *)

Module PolygonFacts.

Import Polygon.
Local Open Scope float_scope.

(** The ring of the square of side [s] with its lower left corner at
    [(o, o)], counter-clockwise. *)
Definition square (o s : float) : polygon :=
  [(o, o); (o + s, o); (o + s, o + s); (o, o + s); (o, o)].

Definition unit_square : polygon := [(0, 0); (1, 0); (1, 1); (0, 1); (0, 0)].

Section Numpy.

Variable np_sum : list float -> float.

(** On an array of fewer than eight numbers numpy starts from zero and
    adds the elements in their order. *)
Hypothesis np_sum_short :
  forall l, (length l < 8)%nat -> np_sum l = fold_left PrimFloat.add l 0.

Lemma length_cross (P : polygon) : (length (cross P) <= length P - 1)%nat.
Proof.
  assert (Ht : forall l : list float, length (tail l) = (length l - 1)%nat)
    by (intros [|v l]; cbn [tail length]; lia).
  unfold cross, vsub, vmul. rewrite !length_zip_with, !Ht, !length_map.
  lia.
Qed.

Lemma area_short (P : polygon) (signed : bool) :
  (length P <= 8)%nat ->
  calculate_polygon_area np_sum P signed = calculate_polygon_area total P signed.
Proof.
  intros H. unfold calculate_polygon_area. destruct P as [|p P]; [reflexivity|].
  rewrite np_sum_short; [reflexivity|].
  pose proof (length_cross (p :: P)). cbn [length] in *. lia.
Qed.

Lemma centroid_short (P : polygon) :
  (length P <= 8)%nat ->
  calculate_polygon_centroid np_sum P = calculate_polygon_centroid total P.
Proof.
  intros H. unfold calculate_polygon_centroid.
  destruct (amin P) as [o|e]; [|reflexivity].
  rewrite (area_short P true H).
  destruct (calculate_polygon_area total P true) as [A|e]; [|reflexivity].
  assert (Hlen : forall l : list float,
            (length (vmul l (cross (translate o P))) < 8)%nat).
  { intros l. unfold vmul at 1. rewrite length_zip_with.
    pose proof (length_cross (translate o P)) as Hc.
    unfold translate in Hc at 2. rewrite length_map in Hc. lia. }
  cbv zeta. rewrite !np_sum_short by apply Hlen. reflexivity.
Qed.

(** C8. The square of side 1 with its corner at (1e8, 1e8) is a closed
    ring of area 1. The code takes the signed area from the vertices as
    they are given, not from the translated ones: the products of the
    coordinates are near 1e16, where consecutive floats are 2 apart, and
    the area comes out as 0, so both coordinates of the centroid are
    infinite. The computation of the specification, with the area of the
    translated ring, gives (100000000.5, 100000000.5). On the unit square
    at the origin the code gives (0.5, 0.5), and on the square of side 2
    at (1e8, 1e8), whose products are exact, (100000001, 100000001). *)
Theorem centroid_far_from_origin :
  calculate_polygon_area np_sum (square 100000000 1) true = Ok 0 /\
  calculate_polygon_centroid np_sum (square 100000000 1)
    = Ok (infinity, infinity) /\
  centroid_reference (square 100000000 1)
    = Some (100000000.5, 100000000.5) /\
  calculate_polygon_centroid np_sum unit_square = Ok (0.5, 0.5) /\
  centroid_reference unit_square = Some (0.5, 0.5) /\
  calculate_polygon_centroid np_sum (square 100000000 2)
    = Ok (100000001, 100000001).
Proof.
  rewrite area_short, !centroid_short by (cbn [length square unit_square]; lia).
  repeat split; vm_compute; reflexivity.
Qed.

End Numpy.

Lemma centroid_far_from_origin_witness :
  calculate_polygon_area total (square 100000000 1) true = Ok 0 /\
  calculate_polygon_centroid total (square 100000000 1)
    = Ok (infinity, infinity) /\
  centroid_reference (square 100000000 1)
    = Some (100000000.5, 100000000.5) /\
  calculate_polygon_centroid total unit_square = Ok (0.5, 0.5) /\
  centroid_reference unit_square = Some (0.5, 0.5) /\
  calculate_polygon_centroid total (square 100000000 2)
    = Ok (100000001, 100000001).
Proof.
  apply (centroid_far_from_origin total). intros l _. reflexivity.
Defined.

End PolygonFacts.

(** ** Properties of the resampling of a segment *)

Module ResampleFacts.

Import Resample.
Local Open Scope R_scope.

Lemma py_int_nonneg (x : R) : 0 <= x -> py_int x = Zfloor x.
Proof. intros Hx. unfold py_int. destruct (Rle_dec 0 x); [reflexivity | contradiction]. Qed.

Lemma segment_length_nonneg (p1 p2 : point) : 0 <= segment_length p1 p2.
Proof. apply sqrt_pos. Qed.

Lemma segment_length_same (p : point) : segment_length p p = 0.
Proof.
  unfold segment_length.
  replace ((p.1 - p.1) ^ 2 + (p.2 - p.2) ^ 2) with 0 by ring.
  apply sqrt_0.
Qed.












(** C9. A segment of length zero gives the single point: there are no
    pieces, and the direction divided by the zero length is not used. *)
Theorem zero_length_segment (p : point) (delta : R) :
  0 < delta -> points_between_points p p delta = Ok [p].
Proof.
  intros Hd. unfold points_between_points. rewrite segment_length_same.
  destruct (Req_dec_T delta 0) as [H0|_]; [lra|].
  replace (0 / delta) with (IZR 0) by (unfold Rdiv; ring).
  rewrite py_int_nonneg by lra. rewrite ZfloorZ. reflexivity.
Qed.

Lemma zero_length_segment_witness :
  points_between_points (2, 5) (2, 5) 3 = Ok [(2, 5)].
Proof. apply zero_length_segment. lra. Defined.

End ResampleFacts.

(** ** Properties of the keyword store *)

Module KeywordStoreFacts.

Import KeywordStore.

(** *** Lines and their kinds *)

Inductive kind :=
  | Blank
  | Header (name : str)
  | Data (key : pykey) (val : pyval).

Definition classify (line : str) : kind :=
  match rstrip line with
  | [] => Blank
  | text =>
      if block_flag text then Header (inner text)
      else Data (parse_entry text).1 (parse_entry text).2
  end.

Definition commit (st : pstate) : blockmap :=
  match current_block st with
  | Some b =>
      if nonempty (keywords st) then <[b := keywords st]> (blocks st)
      else blocks st
  | None => blocks st
  end.

Definition step_kind (st : pstate) (k : kind) : pstate :=
  match k with
  | Blank => st
  | Header name =>
      {| blocks := commit st;
         first_keywords :=
           match first_keywords st with
           | None =>
               if nonempty (keywords st) then Some (keywords st) else None
           | Some f => Some f
           end;
         current_block := Some name;
         keywords := ∅ |}
  | Data key val =>
      {| blocks := blocks st;
         keywords := <[key := val]> (keywords st);
         current_block := current_block st;
         first_keywords := first_keywords st |}
  end.

Lemma step_classify (st : pstate) (line : str) :
  step st line = step_kind st (classify line).
Proof.
  unfold step, classify. destruct (rstrip line) as [|c text]; [reflexivity|].
  destruct (block_flag (c :: text)); [reflexivity|].
  destruct (parse_entry (c :: text)); reflexivity.
Qed.

Lemma fold_step_classify (ls : list str) (st : pstate) :
  fold_left step ls st = fold_left step_kind (map classify ls) st.
Proof.
  revert st. induction ls as [|l ls IH]; intros st; [reflexivity|].
  cbn [fold_left map]. rewrite step_classify. apply IH.
Qed.

Lemma blocks_finish (st : pstate) : blocks (finish st) = commit st.
Proof. reflexivity. Qed.

(** *** Strings *)

Definition no_char (c : ascii) (s : str) : Prop := ~ In c s.

Lemma eqb_nl_false (c : ascii) : c <> nl -> Ascii.eqb c nl = false.
Proof. intros H. apply Ascii.eqb_neq, H. Qed.

Lemma readlines_line (t rest : str) :
  no_char nl t -> readlines (t ++ nl :: rest) = (t ++ [nl]) :: readlines rest.
Proof.
  unfold no_char. induction t as [|c t IH]; intros Hno.
  - reflexivity.
  - cbn [app readlines]. rewrite eqb_nl_false by (intros ->; apply Hno; left; reflexivity).
    rewrite IH by (intros Hin; apply Hno; right; exact Hin). reflexivity.
Qed.

Lemma readlines_lines (ts : list str) (rest : str) :
  Forall (no_char nl) ts ->
  readlines (concat (map (fun t => t ++ [nl]) ts) ++ rest) =
    map (fun t => t ++ [nl]) ts ++ readlines rest.
Proof.
  induction 1 as [|t ts Ht _ IH]; [reflexivity|].
  cbn [map concat]. rewrite <- !app_assoc. cbn [app].
  rewrite readlines_line by exact Ht. rewrite IH. reflexivity.
Qed.

Definition spaces (w : str) : Prop := Forall (fun c => is_space c = true) w.

Lemma spaces_rev (w : str) : spaces w -> spaces (rev w).
Proof.
  unfold spaces. rewrite !List.Forall_forall. intros H c Hc.
  apply H, in_rev, Hc.
Qed.

Lemma lstrip_spaces (w : str) : spaces w -> lstrip w = [].
Proof.
  induction 1 as [|x w Hx _ IH]; cbn [lstrip]; [reflexivity|].
  rewrite Hx. exact IH.
Qed.

Lemma lstrip_app_nonspace (w : str) (c : ascii) (s : str) :
  is_space c = false -> spaces w -> lstrip (w ++ c :: s) = c :: s.
Proof.
  intros Hc. induction 1 as [|x w Hx _ IH]; cbn [app lstrip].
  - rewrite Hc. reflexivity.
  - rewrite Hx. exact IH.
Qed.

(** Trailing whitespace after a character that is not whitespace. *)
Lemma rstrip_nonspace (s : str) (c : ascii) (w : str) :
  is_space c = false -> spaces w -> rstrip (s ++ c :: w) = s ++ [c].
Proof.
  intros Hc Hw. unfold rstrip.
  rewrite rev_app_distr. cbn [rev]. rewrite <- app_assoc. cbn [app].
  rewrite lstrip_app_nonspace; [| exact Hc | apply spaces_rev, Hw].
  cbn [rev]. rewrite rev_involutive. reflexivity.
Qed.

Lemma rstrip_spaces (w : str) : spaces w -> rstrip w = [].
Proof.
  intros Hw. unfold rstrip. rewrite lstrip_spaces by (apply spaces_rev, Hw).
  reflexivity.
Qed.

Lemma find_colon (k rest : str) :
  no_char ":"%char k -> find ":" (k ++ ":"%char :: rest) = Some (length k).
Proof.
  unfold no_char. induction k as [|c k IH]; intros Hno; [reflexivity|].
  cbn [app find length].
  destruct (Ascii.eqb_spec c ":"%char) as [->|_];
    [exfalso; apply Hno; left; reflexivity|].
  rewrite IH by (intros Hin; apply Hno; right; exact Hin). reflexivity.
Qed.
(** *** The groups of a file *)

(** The dictionary of a run of lines without header. *)
Definition add_line (d : kwdict) (line : str) : kwdict :=
  match classify line with
  | Data key val => <[key := val]> d
  | _ => d
  end.

Definition group_dict (g : list str) : kwdict := fold_left add_line g ∅.

(** The lines of a file split at its headers: the lines before the first
    header (named [None]), then the lines of each block. *)
Fixpoint groups_from (cur : option str) (acc : list str) (ls : list str)
    : list (option str * list str) :=
  match ls with
  | [] => [(cur, acc)]
  | l :: ls' =>
      match classify l with
      | Header name => (cur, acc) :: groups_from (Some name) [] ls'
      | _ => groups_from cur (acc ++ [l]) ls'
      end
  end.

Definition groups (content : str) : list (option str * list str) :=
  groups_from None [] (readlines content).

(** Recording a group in the dictionary of blocks. *)
Definition record (B : blockmap) (ng : option str * list str) : blockmap :=
  match ng.1 with
  | Some b => if nonempty (group_dict ng.2) then <[b := group_dict ng.2]> B else B
  | None => B
  end.

(** The dictionary of the first group that has a data line, the empty
    dictionary when there is none. *)
Fixpoint first_group (G : list (option str * list str)) : kwdict :=
  match G with
  | [] => ∅
  | (_, g) :: G' => if nonempty (group_dict g) then group_dict g else first_group G'
  end.

Lemma nonempty_false (d : kwdict) : nonempty d = false -> d = ∅.
Proof.
  unfold nonempty. intros H. apply bool_decide_eq_false in H.
  apply map_size_empty_iff. lia.
Qed.

Lemma nonempty_true (d : kwdict) : nonempty d = true <-> d <> ∅.
Proof.
  unfold nonempty. rewrite bool_decide_eq_true, <- map_size_non_empty_iff. lia.
Qed.

Lemma group_dict_snoc (g : list str) (l : str) :
  group_dict (g ++ [l]) = add_line (group_dict g) l.
Proof. unfold group_dict. rewrite fold_left_app. reflexivity. Qed.

(** The loop, from a state whose pending keywords are those of the lines
    [acc] read since the last header. *)
Lemma run_groups (ls : list str) :
  forall (st : pstate) (acc : list str),
    keywords st = group_dict acc ->
    let st' := finish (fold_left step ls st) in
    blocks st' =
      fold_left record (groups_from (current_block st) acc ls) (blocks st) /\
    first_keywords st' =
      Some (match first_keywords st with
            | Some f => f
            | None => first_group (groups_from (current_block st) acc ls)
            end).
Proof.
  induction ls as [|l ls IH]; intros st acc Hacc.
  - cbn [fold_left groups_from finish blocks first_keywords first_group].
    unfold record. cbn [fst snd]. rewrite <- Hacc. split; [reflexivity|].
    destruct (first_keywords st); [reflexivity|].
    destruct (nonempty (keywords st)) eqn:Hn; [reflexivity|].
    rewrite (nonempty_false _ Hn). reflexivity.
  - cbn [fold_left groups_from]. rewrite step_classify.
    destruct (classify l) as [|name|key val] eqn:Hl.
    + apply (IH st (acc ++ [l])).
      rewrite group_dict_snoc. unfold add_line. rewrite Hl. exact Hacc.
    + destruct (IH (step_kind st (Header name)) [] eq_refl) as [IHb IHf].
      cbn zeta in *. rewrite IHb, IHf.
      cbn [step_kind current_block blocks first_keywords fold_left first_group].
      split.
      * f_equal. unfold commit, record. cbn [fst snd]. rewrite <- Hacc.
        reflexivity.
      * rewrite <- Hacc. destruct (first_keywords st); [reflexivity|].
        destruct (nonempty (keywords st)); reflexivity.
    + apply (IH (step_kind st (Data key val)) (acc ++ [l])).
      rewrite group_dict_snoc. unfold add_line. rewrite Hl.
      cbn [step_kind keywords]. rewrite Hacc. reflexivity.
Qed.

Lemma parse_groups (content : str) :
  blocks (parse content) = fold_left record (groups content) ∅ /\
  first_keywords (parse content) = Some (first_group (groups content)).
Proof. apply (run_groups (readlines content) init []). reflexivity. Qed.

Lemma groups_from_cons (cur : option str) (acc ls : list str) :
  exists g G, groups_from cur acc ls = (cur, g) :: G.
Proof.
  revert cur acc. induction ls as [|l ls IH]; intros cur acc; cbn [groups_from].
  - eauto.
  - destruct (classify l); eauto.
Qed.

Lemma first_group_in (G : list (option str * list str)) :
  G <> [] -> exists n g, In (n, g) G /\ first_group G = group_dict g.
Proof.
  induction G as [|[n g] G IH]; intros HG; [contradiction|].
  cbn [first_group]. destruct (nonempty (group_dict g)) eqn:Hn.
  - exists n, g. split; [left; reflexivity | reflexivity].
  - destruct G as [|ng G].
    + exists n, g. split; [left; reflexivity|].
      cbn [first_group]. symmetry. apply nonempty_false, Hn.
    + destruct IH as (n' & g' & Hin & Heq); [discriminate|].
      exists n', g'. split; [right; exact Hin | exact Heq].
Qed.

Lemma record_in (G : list (option str * list str)) :
  forall (B : blockmap) (name : str) (d : kwdict),
    fold_left record G B !! name = Some d ->
    B !! name = Some d \/ exists g, In (Some name, g) G /\ d = group_dict g.
Proof.
  induction G as [|[n g] G IH]; intros B name d Hd; cbn [fold_left] in Hd.
  - left. exact Hd.
  - apply IH in Hd as [Hd|(g' & Hin & Heq)].
    + unfold record in Hd. cbn [fst snd] in Hd.
      destruct n as [b|]; [|left; exact Hd].
      destruct (nonempty (group_dict g)); [|left; exact Hd].
      destruct (decide (b = name)) as [->|Hne].
      * rewrite lookup_insert_eq in Hd. injection Hd as <-.
        right. exists g. split; [left; reflexivity | reflexivity].
      * rewrite lookup_insert_ne in Hd by exact Hne. left. exact Hd.
    + right. exists g'. split; [right; exact Hin | exact Heq].
Qed.

Lemma add_lines_other (key : pykey) (l2 : list str) :
  (forall line' val', In line' l2 -> classify line' <> Data key val') ->
  forall d : kwdict, fold_left add_line l2 d !! key = d !! key.
Proof.
  induction l2 as [|l l2 IH]; intros Hno d; [reflexivity|].
  cbn [fold_left]. rewrite IH by (intros; apply Hno; right; assumption).
  unfold add_line. destruct (classify l) as [| |key' val'] eqn:Hl;
    try reflexivity.
  apply lookup_insert_ne. intros ->. apply (Hno l val'); [left; reflexivity|].
  exact Hl.
Qed.

Lemma group_dict_last (l1 : list str) (line : str) (l2 : list str)
    (key : pykey) (val : pyval) :
  classify line = Data key val ->
  (forall line' val', In line' l2 -> classify line' <> Data key val') ->
  group_dict (l1 ++ line :: l2) !! key = Some val.
Proof.
  intros Hline Hno. unfold group_dict. rewrite fold_left_app. cbn [fold_left].
  rewrite add_lines_other by exact Hno.
  unfold add_line at 1. rewrite Hline. apply lookup_insert_eq.
Qed.

Lemma read_keywords_groups (fs : filesystem) (filename content : str)
    (sublayer : option str) (all_blocks : bool) :
  (splitext filename).2 = lit ".keywords" -> fs !! filename = Some content ->
  read_keywords fs filename sublayer all_blocks =
    Ok (if all_blocks then RBlocks (fold_left record (groups content) ∅)
        else match sublayer with
             | Some name =>
                 match fold_left record (groups content) ∅ !! name with
                 | Some d => RKeywords d
                 | None => RNone
                 end
             | None => RKeywords (first_group (groups content))
             end).
Proof.
  intros Hext Hfile. unfold read_keywords, verify.
  rewrite bool_decide_eq_true_2 by exact Hext. rewrite Hfile.
  destruct (parse_groups content) as [-> ->].
  destruct all_blocks; [reflexivity|].
  destruct sublayer as [name|]; [|reflexivity].
  destruct (fold_left record (groups content) ∅ !! name); reflexivity.
Qed.

Definition file1 : str := lit "layer.keywords".

Definition orphan_then_block : str :=
  lit "a: 1" ++ [nl] ++ lit "[x]" ++ [nl] ++ lit "b: 2" ++ [nl].

Definition empty_block_first : str :=
  lit "[x]" ++ [nl] ++ lit "[y]" ++ [nl] ++ lit "b: 2" ++ [nl].

(** C5 (as the code has it). Without sublayer and with [all_blocks] false,
    [read_keywords] returns, for a file without header, the keywords of
    its lines; and for a file in which no keyword line comes before the
    first header, the keywords of the first block that has a keyword line
    (a block without keyword lines is passed over), the empty dictionary
    when no block has one. *)
Theorem read_default_first_group (fs : filesystem) (filename content : str) :
  (splitext filename).2 = lit ".keywords" -> fs !! filename = Some content ->
  exists pre G,
    groups content = (None, pre) :: G /\
    (G = [] ->
       read_keywords fs filename None false = Ok (RKeywords (group_dict pre))) /\
    (group_dict pre = ∅ ->
       read_keywords fs filename None false = Ok (RKeywords (first_group G))).
Proof.
  intros Hext Hfile.
  destruct (groups_from_cons None [] (readlines content)) as (pre & G & HG).
  exists pre, G. split; [exact HG|].
  rewrite (read_keywords_groups _ _ content) by assumption.
  unfold groups in *. rewrite HG. cbn [first_group]. split.
  - intros ->. destruct (nonempty (group_dict pre)) eqn:Hn; [reflexivity|].
    rewrite (nonempty_false _ Hn). reflexivity.
  - intros Hpre. rewrite Hpre. reflexivity.
Qed.

Lemma read_default_first_group_witness :
  exists pre G,
    groups empty_block_first = (None, pre) :: G /\
    (G = [] ->
       read_keywords {[file1 := empty_block_first]} file1 None false =
         Ok (RKeywords (group_dict pre))) /\
    (group_dict pre = ∅ ->
       read_keywords {[file1 := empty_block_first]} file1 None false =
         Ok (RKeywords (first_group G))).
Proof.
  apply read_default_first_group; vm_compute; reflexivity.
Defined.

(** C5 as stated fails: in a file with the line [a: 1] before the header
    [[x]] of a block with the line [b: 2], the keywords before the header
    are returned although the file has a header; and after the header of
    an empty block [x] the keywords returned are those of the later block
    [y]. *)
Lemma read_default_returns_orphans :
  read_keywords {[file1 := orphan_then_block]} file1 None false =
    Ok (RKeywords {[KStr (lit "a") := VStr (lit "1")]}) /\
  read_keywords {[file1 := orphan_then_block]} file1 None true =
    Ok (RBlocks {[lit "x" := {[KStr (lit "b") := VStr (lit "2")]}]}) /\
  read_keywords {[file1 := orphan_then_block]} file1 None false <>
    Ok (RKeywords {[KStr (lit "b") := VStr (lit "2")]}) /\
  read_keywords {[file1 := empty_block_first]} file1 None false =
    Ok (RKeywords {[KStr (lit "b") := VStr (lit "2")]}) /\
  read_keywords {[file1 := empty_block_first]} file1 (Some (lit "y")) false =
    Ok (RKeywords {[KStr (lit "b") := VStr (lit "2")]}) /\
  read_keywords {[file1 := empty_block_first]} file1 (Some (lit "x")) false =
    Ok RNone.
Proof.
  repeat split; try (vm_compute; reflexivity).
  intros H.
  apply (f_equal (fun r => match r with
                           | Ok (RKeywords m) => m !! KStr (lit "a")
                           | _ => None
                           end)) in H.
  vm_compute in H. discriminate.
Qed.

(** The lines of the block that a read under [name] hands out: those of
    the last group of that name that holds an entry. *)
Fixpoint last_block (name : str) (G : list (option str * list str))
    : option (list str) :=
  match G with
  | [] => None
  | (n, g) :: G' =>
      match last_block name G' with
      | Some g' => Some g'
      | None =>
          if bool_decide (n = Some name) && nonempty (group_dict g)
          then Some g else None
      end
  end.

(** The lines of the block that the default read hands out: those of the
    first group that holds an entry. *)
Fixpoint first_block (G : list (option str * list str)) : option (list str) :=
  match G with
  | [] => None
  | (_, g) :: G' => if nonempty (group_dict g) then Some g else first_block G'
  end.

Lemma record_last (name : str) (G : list (option str * list str)) :
  forall B : blockmap,
    fold_left record G B !! name =
      match last_block name G with
      | Some g => Some (group_dict g)
      | None => B !! name
      end.
Proof.
  induction G as [|[n g] G IH]; intros B; [reflexivity|].
  cbn [fold_left last_block]. rewrite IH.
  destruct (last_block name G) as [g'|]; [reflexivity|].
  unfold record. cbn [fst snd]. destruct n as [b|]; [|reflexivity].
  destruct (nonempty (group_dict g)) eqn:Hne.
  - destruct (decide (b = name)) as [->|Hb].
    + rewrite bool_decide_eq_true_2 by reflexivity. apply lookup_insert_eq.
    + rewrite bool_decide_eq_false_2 by congruence.
      apply lookup_insert_ne. exact Hb.
  - rewrite andb_false_r. reflexivity.
Qed.

Lemma first_group_block (G : list (option str * list str)) :
  first_group G =
    match first_block G with Some g => group_dict g | None => ∅ end.
Proof.
  induction G as [|[n g] G IH]; [reflexivity|]. cbn [first_group first_block].
  destruct (nonempty (group_dict g)); [reflexivity | exact IH].
Qed.

Lemma last_block_in (name : str) (G : list (option str * list str))
    (g : list str) :
  last_block name G = Some g -> In (Some name, g) G.
Proof.
  induction G as [|[n g'] G IH]; [discriminate|]. cbn [last_block].
  destruct (last_block name G) as [g''|].
  - intros H. right. apply IH. exact H.
  - destruct (bool_decide (n = Some name)) eqn:Hn; [|discriminate].
    apply bool_decide_eq_true_1 in Hn. subst n.
    destruct (nonempty (group_dict g')); [|discriminate].
    intros H. injection H as <-. left. reflexivity.
Qed.

Lemma first_block_in (G : list (option str * list str)) (g : list str) :
  first_block G = Some g -> exists n, In (n, g) G.
Proof.
  induction G as [|[n g'] G IH]; [discriminate|]. cbn [first_block].
  destruct (nonempty (group_dict g')).
  - intros H. injection H as <-. exists n. left. reflexivity.
  - intros H. destruct (IH H) as (n' & Hin). exists n'. right. exact Hin.
Qed.

(** C10. For every file, the dictionary that [read_keywords] hands out
    for a named sublayer is that of the lines of the last block of that
    name that holds an entry ([None] if there is none); the dictionary
    of all blocks maps every name to the same dictionary; the default
    read gives the dictionary of the first block that holds an entry.
    In each of them a key that occurs on several data lines of the block
    has the value of the last of these lines, whatever the sublayer and
    [all_blocks] arguments are. *)
Theorem duplicate_key_last_wins (fs : filesystem) (filename content : str) :
  (splitext filename).2 = lit ".keywords" -> fs !! filename = Some content ->
  let G := groups content in
  (forall name,
     read_keywords fs filename (Some name) false =
       match last_block name G with
       | Some g => Ok (RKeywords (group_dict g))
       | None => Ok RNone
       end) /\
  (forall sublayer, exists B,
     read_keywords fs filename sublayer true = Ok (RBlocks B) /\
     forall name, B !! name = group_dict <$> last_block name G) /\
  read_keywords fs filename None false =
    Ok (RKeywords match first_block G with
                  | Some g => group_dict g
                  | None => ∅
                  end) /\
  (forall name g, last_block name G = Some g -> In (Some name, g) G) /\
  (forall g, first_block G = Some g -> exists n, In (n, g) G) /\
  (forall name l1 line l2 key val,
     last_block name G = Some (l1 ++ line :: l2) ->
     classify line = Data key val ->
     (forall line' val', In line' l2 -> classify line' <> Data key val') ->
     (exists d, read_keywords fs filename (Some name) false = Ok (RKeywords d) /\
                d !! key = Some val) /\
     (forall sublayer, exists B d,
        read_keywords fs filename sublayer true = Ok (RBlocks B) /\
        B !! name = Some d /\ d !! key = Some val)) /\
  (forall l1 line l2 key val,
     first_block G = Some (l1 ++ line :: l2) ->
     classify line = Data key val ->
     (forall line' val', In line' l2 -> classify line' <> Data key val') ->
     exists d, read_keywords fs filename None false = Ok (RKeywords d) /\
               d !! key = Some val).
Proof.
  intros Hext Hfile G.
  assert (Hnamed : forall name,
     read_keywords fs filename (Some name) false =
       match last_block name G with
       | Some g => Ok (RKeywords (group_dict g))
       | None => Ok RNone
       end).
  { intros name. rewrite (read_keywords_groups _ _ content) by assumption.
    fold G. rewrite record_last, lookup_empty.
    destruct (last_block name G); reflexivity. }
  assert (Hall : forall sublayer,
     read_keywords fs filename sublayer true =
       Ok (RBlocks (fold_left record G ∅)))
    by (intros sublayer; rewrite (read_keywords_groups _ _ content) by assumption;
        reflexivity).
  assert (Hlook : forall name,
     fold_left record G ∅ !! name = group_dict <$> last_block name G).
  { intros name. rewrite record_last, lookup_empty.
    destruct (last_block name G); reflexivity. }
  assert (Hdefault : read_keywords fs filename None false =
    Ok (RKeywords match first_block G with
                  | Some g => group_dict g
                  | None => ∅
                  end)).
  { rewrite (read_keywords_groups _ _ content) by assumption.
    fold G. rewrite first_group_block. reflexivity. }
  split; [exact Hnamed|]. split; [intros sublayer; eauto|].
  split; [exact Hdefault|].
  split; [intros name g; apply last_block_in|].
  split; [intros g; apply first_block_in|]. split.
  - intros name l1 line l2 key val Hg Hline Hlater.
    pose proof (group_dict_last l1 line l2 key val Hline Hlater) as Hval.
    split.
    + eexists. rewrite Hnamed, Hg. split; [reflexivity | exact Hval].
    + intros sublayer. eexists _, _. split; [apply Hall|].
      rewrite Hlook, Hg. split; [reflexivity | exact Hval].
  - intros l1 line l2 key val Hg Hline Hlater.
    eexists. rewrite Hdefault, Hg. split; [reflexivity|].
    apply group_dict_last; assumption.
Qed.

Definition twice_in_block : str :=
  lit "[x]" ++ [nl] ++ lit "a: 1" ++ [nl] ++ lit "b: 2" ++ [nl] ++ lit "a: 3" ++ [nl].

Lemma duplicate_key_last_wins_witness :
  (exists d,
     read_keywords {[file1 := twice_in_block]} file1 (Some (lit "x")) false
       = Ok (RKeywords d) /\
     d !! KStr (lit "a") = Some (VStr (lit "3"))) /\
  (forall sublayer, exists B d,
     read_keywords {[file1 := twice_in_block]} file1 sublayer true
       = Ok (RBlocks B) /\
     B !! lit "x" = Some d /\ d !! KStr (lit "a") = Some (VStr (lit "3"))) /\
  (exists d,
     read_keywords {[file1 := twice_in_block]} file1 None false
       = Ok (RKeywords d) /\
     d !! KStr (lit "a") = Some (VStr (lit "3"))).
Proof.
  destruct (duplicate_key_last_wins {[file1 := twice_in_block]} file1
              twice_in_block) as (_ & _ & _ & _ & _ & Hnamed & Hdefault).
  - vm_compute. reflexivity.
  - vm_compute. reflexivity.
  - assert (Hline : classify (lit "a: 3" ++ [nl])
                    = Data (KStr (lit "a")) (VStr (lit "3")))
      by (vm_compute; reflexivity).
    split; [|split].
    + apply (Hnamed (lit "x") [lit "a: 1" ++ [nl]; lit "b: 2" ++ [nl]]
               (lit "a: 3" ++ [nl]) []); [vm_compute; reflexivity | exact Hline |].
      intros line' val' [].
    + apply (Hnamed (lit "x") [lit "a: 1" ++ [nl]; lit "b: 2" ++ [nl]]
               (lit "a: 3" ++ [nl]) []); [vm_compute; reflexivity | exact Hline |].
      intros line' val' [].
    + apply (Hdefault [lit "a: 1" ++ [nl]; lit "b: 2" ++ [nl]]
               (lit "a: 3" ++ [nl]) []); [vm_compute; reflexivity | exact Hline |].
      intros line' val' [].
Defined.

End KeywordStoreFacts.

(** ** Writing and reading back *)

Module KeywordWriterFacts.

Import KeywordStore KeywordStoreFacts.

(** *** The lines the writer produces *)

(** A key and the printed form of a value that a line carries
    unchanged: no colon or newline in the key, no newline or surrounding
    whitespace in the value, and the line is not taken for a header. *)
Definition tidy (key s : str) : Prop :=
  no_char ":"%char key /\ no_char nl key /\ no_char nl s /\
  lstrip s = s /\ rstrip s = s /\
  ~ (head key = Some "["%char /\ last s = Some "]"%char).

Definition entry_text (key s : str) : str := key ++ lit ": " ++ s.

Definition header_text (name : str) : str := lit "[" ++ name ++ lit "]".

Lemma rstrip_fixed (s : str) :
  rstrip s = s -> s = [] \/ exists s' c, s = s' ++ [c] /\ is_space c = false.
Proof.
  destruct s as [|c s _] using rev_ind; [left; reflexivity|].
  intros H. right. exists s, c. split; [reflexivity|].
  destruct (is_space c) eqn:Hc; [|reflexivity]. exfalso.
  unfold rstrip in H. rewrite rev_app_distr in H. cbn [rev app lstrip] in H.
  rewrite Hc in H. fold (rstrip s) in H.
  assert (Hlen : length (rstrip s) <= length s).
  { unfold rstrip. rewrite length_rev.
    assert (Hl : forall v, length (lstrip v) <= length v).
    { induction v as [|x v IH]; cbn [lstrip length]; [lia|].
      destruct (is_space x); cbn [length]; lia. }
    rewrite <- (length_rev s). apply Hl. }
  rewrite H, length_app in Hlen. cbn [length] in Hlen. lia.
Qed.

Lemma rstrip_entry (key s : str) :
  no_char nl s -> rstrip s = s ->
  rstrip (entry_text key s ++ [nl]) =
    key ++ ":"%char :: match s with [] => [] | _ => " "%char :: s end.
Proof.
  intros _ Hs. unfold entry_text. change (lit ": ") with [":"%char; " "%char].
  destruct (rstrip_fixed s Hs) as [->|(s' & c & -> & Hc)].
  - rewrite <- !app_assoc. cbn [app].
    rewrite (rstrip_nonspace key ":"%char [" "%char; nl]);
      [reflexivity | reflexivity | repeat constructor].
  - replace ((key ++ [":"%char; " "%char] ++ s' ++ [c]) ++ [nl])
      with ((key ++ [":"%char; " "%char] ++ s') ++ c :: [nl])
      by (rewrite <- !app_assoc; reflexivity).
    rewrite rstrip_nonspace; [| exact Hc | repeat constructor].
    rewrite <- !app_assoc. cbn [app]. destruct s'; reflexivity.
Qed.

Lemma block_flag_entry (key s : str) :
  ~ (head key = Some "["%char /\ last s = Some "]"%char) ->
  block_flag (key ++ ":"%char :: match s with [] => [] | _ => " "%char :: s end)
    = false.
Proof.
  intros Hno. destruct key as [|c key]; [reflexivity|].
  cbn [app block_flag]. destruct (Ascii.eqb_spec c "["%char) as [->|_];
    [|reflexivity].
  cbn [andb]. rewrite last_app. destruct s as [|x s]; [reflexivity|].
  rewrite !last_cons. destruct (last s) as [d|] eqn:Hd.
  - destruct (Ascii.eqb_spec d "]"%char) as [->|_]; [|reflexivity].
    exfalso. apply Hno. split; [reflexivity|].
    rewrite last_cons, Hd. reflexivity.
  - destruct (Ascii.eqb_spec x "]"%char) as [->|_]; [|reflexivity].
    exfalso. apply Hno. split; [reflexivity|].
    rewrite last_cons, Hd. reflexivity.
Qed.

Lemma classify_entry (key s : str) :
  tidy key s -> classify (entry_text key s ++ [nl]) = Data (KStr key) (VStr s).
Proof.
  intros (Hcolon & _ & Hnl & Hl & Hr & Hhead). unfold classify.
  rewrite (rstrip_entry key s Hnl Hr).
  pose proof (block_flag_entry key s Hhead) as Hflag.
  set (rest := match s with [] => [] | _ => " "%char :: s end) in *.
  assert (Htext : exists c t, key ++ ":"%char :: rest = c :: t)
    by (destruct key; cbn [app]; eauto).
  destruct Htext as (c & t & Htext). rewrite Htext. rewrite <- Htext.
  rewrite Hflag.
  unfold parse_entry. rewrite (find_colon key rest Hcolon). cbn [fst snd].
  rewrite take_app_length.
  replace (drop (S (length key)) (key ++ ":"%char :: rest)) with rest.
  2:{ change (key ++ ":"%char :: rest) with (key ++ [":"%char] ++ rest).
      rewrite app_assoc.
      rewrite (drop_app_length' (key ++ [":"%char]) rest);
        [reflexivity | rewrite length_app; cbn [length]; lia]. }
  f_equal. f_equal. subst rest. destruct s as [|x s]; [reflexivity|].
  unfold strip. change (lstrip (" "%char :: x :: s)) with (lstrip (x :: s)).
  rewrite Hl. exact Hr.
Qed.

Lemma classify_header (name : str) :
  classify (header_text name ++ [nl]) = Header name.
Proof.
  assert (Heq : header_text name ++ [nl] =
                ("["%char :: name) ++ "]"%char :: [nl]).
  { unfold header_text. change (lit "[") with ["["%char].
    change (lit "]") with ["]"%char]. rewrite <- !app_assoc. reflexivity. }
  unfold classify. rewrite Heq.
  rewrite rstrip_nonspace; [| reflexivity | repeat constructor].
  cbn [app block_flag]. rewrite last_snoc. cbn [Ascii.eqb andb].
  change (Ascii.eqb "[" "[")%char with true.
  change (Ascii.eqb "]" "]")%char with true. cbn [andb].
  unfold inner. cbn [tail]. rewrite removelast_last. reflexivity.
Qed.

Lemma classify_blank : classify ([] ++ [nl]) = Blank.
Proof. reflexivity. Qed.

(** An entry that passes the checks of [_keywords_to_string]. *)
Definition valid_entry (kv : pykey * pyval) : Prop :=
  exists key s, kv.1 = KStr key /\ py_str kv.2 = Ok s /\ no_char ":"%char key.

Definition valid_keywords (d : kwdict) : Prop :=
  forall k v, d !! k = Some v -> valid_entry (k, v).

(** The text of the line of an entry, without its newline. *)
Definition shown_text (kv : pykey * pyval) : str :=
  match kv.1, py_str kv.2 with
  | KStr key, Ok s => entry_text key s
  | _, _ => []
  end.

Definition unlines (ts : list str) : str :=
  concat (map (fun t => t ++ [nl]) ts).

Definition block_lines (sub : option str) (l : list (pykey * pyval))
    : list str :=
  match sub with Some name => [header_text name] | None => [] end
  ++ map shown_text l.

Lemma unlines_app (ts1 ts2 : list str) :
  unlines (ts1 ++ ts2) = unlines ts1 ++ unlines ts2.
Proof. unfold unlines. rewrite map_app, concat_app. reflexivity. Qed.

Lemma existsb_colon (key : str) :
  no_char ":"%char key -> existsb (Ascii.eqb ":") key = false.
Proof.
  unfold no_char. induction key as [|c key IH]; intros Hno; [reflexivity|].
  cbn [existsb]. rewrite IH by (intros Hin; apply Hno; right; exact Hin).
  destruct (Ascii.eqb_spec ":"%char c) as [<-|_]; [|reflexivity].
  exfalso. apply Hno. left. reflexivity.
Qed.

Lemma entry_to_string_valid (kv : pykey * pyval) :
  valid_entry kv -> entry_to_string kv.1 kv.2 = Ok (shown_text kv ++ [nl]).
Proof.
  intros (key & s & Hk & Hv & Hcolon). unfold entry_to_string, shown_text.
  rewrite Hk, Hv. unfold verify. rewrite (existsb_colon key Hcolon).
  cbn [negb]. unfold entry_text. rewrite <- !app_assoc. reflexivity.
Qed.

Lemma entries_to_string_valid (l : list (pykey * pyval)) :
  Forall valid_entry l ->
  forall acc, entries_to_string l acc = Ok (acc ++ unlines (map shown_text l)).
Proof.
  induction 1 as [|[k v] l Hkv _ IH]; intros acc; cbn [entries_to_string].
  - unfold unlines. cbn [map concat]. rewrite app_nil_r. reflexivity.
  - rewrite (entry_to_string_valid (k, v) Hkv : entry_to_string k v = _).
    rewrite IH. unfold unlines. cbn [map concat]. rewrite <- !app_assoc.
    reflexivity.
Qed.

Lemma header_unlines (sub : option str) :
  header sub =
    unlines match sub with Some name => [header_text name] | None => [] end.
Proof.
  destruct sub as [name|]; [|reflexivity].
  unfold header, unlines, header_text. cbn [map concat].
  rewrite app_nil_r, <- !app_assoc. reflexivity.
Qed.

(** *** Reading the written lines back *)

Lemma fold_insert_perm {K V W : Type} `{Countable K} (f : V -> W)
    (l : list (K * V)) (m : gmap K V) :
  l ≡ₚ map_to_list m ->
  fold_left (fun (acc : gmap K W) kv => <[kv.1 := f kv.2]> acc) l ∅ = f <$> m.
Proof.
  intros Hp.
  assert (Hfold : forall l' : list (K * V),
    fold_right (fun kv (acc : gmap K W) => <[kv.1 := f kv.2]> acc) ∅ l' =
    list_to_map (prod_map Datatypes.id f <$> l')).
  { induction l' as [|[k v] l' IH]; [reflexivity|].
    cbn [fold_right]. rewrite IH. reflexivity. }
  rewrite <- fold_left_rev_right, Hfold, list_to_map_fmap.
  f_equal. rewrite <- (list_to_map_to_list m).
  symmetry. apply list_to_map_proper.
  - apply NoDup_fst_map_to_list.
  - rewrite <- Hp. rewrite <- (Permutation_rev l). reflexivity.
Qed.

Lemma run_unlines (ts : list str) (st : pstate) :
  Forall (no_char nl) ts ->
  fold_left step (readlines (unlines ts)) st =
    fold_left step_kind (map (fun t => classify (t ++ [nl])) ts) st.
Proof.
  intros Hts. pose proof (readlines_lines ts [] Hts) as Hr.
  rewrite app_nil_r in Hr. cbn [readlines] in Hr. rewrite app_nil_r in Hr.
  unfold unlines. rewrite Hr, fold_step_classify, map_map. reflexivity.
Qed.

Definition tidy_entry (kv : pykey * pyval) : Prop :=
  exists key s, kv.1 = KStr key /\ py_str kv.2 = Ok s /\ tidy key s.

Definition tidy_keywords (d : kwdict) : Prop :=
  forall k v, d !! k = Some v -> tidy_entry (k, v).

(** What a value is read back as: the string that was written for it. *)
Definition shown (v : pyval) : pyval :=
  match py_str v with
  | Ok s => VStr s
  | Raise _ => v
  end.

Lemma tidy_valid (kv : pykey * pyval) : tidy_entry kv -> valid_entry kv.
Proof. intros (key & s & Hk & Hv & Ht). exists key, s. split; [|split]; try assumption. apply Ht. Qed.

Lemma tidy_keywords_valid (d : kwdict) : tidy_keywords d -> valid_keywords d.
Proof. intros Hd k v Hkv. apply tidy_valid, Hd, Hkv. Qed.

Lemma classify_shown (kv : pykey * pyval) :
  tidy_entry kv -> classify (shown_text kv ++ [nl]) = Data kv.1 (shown kv.2).
Proof.
  intros (key & s & Hk & Hv & Ht). unfold shown_text, shown.
  rewrite Hk, Hv. apply classify_entry, Ht.
Qed.

Lemma no_nl_app (s t : str) : no_char nl s -> no_char nl t -> no_char nl (s ++ t).
Proof. unfold no_char. intros Hs Ht Hin. apply in_app_or in Hin as [?|?]; auto. Qed.

Lemma shown_text_no_nl (kv : pykey * pyval) :
  tidy_entry kv -> no_char nl (shown_text kv).
Proof.
  intros (key & s & Hk & Hv & (_ & Hnk & Hns & _)). unfold shown_text.
  rewrite Hk, Hv. unfold entry_text. apply no_nl_app; [exact Hnk|].
  apply no_nl_app; [|exact Hns].
  intros [H|[H|[]]]; discriminate H.
Qed.

Lemma header_text_no_nl (name : str) :
  no_char nl name -> no_char nl (header_text name).
Proof.
  intros Hn. unfold header_text. apply no_nl_app; [|apply no_nl_app; [exact Hn|]];
    intros [H|[]]; discriminate H.
Qed.

Definition with_keywords (st : pstate) (d : kwdict) : pstate :=
  {| blocks := blocks st; keywords := d; current_block := current_block st;
     first_keywords := first_keywords st |}.

Lemma run_entries (l : list (pykey * pyval)) :
  Forall tidy_entry l ->
  forall st,
    fold_left step_kind
      (map (fun t => classify (t ++ [nl])) (map shown_text l)) st =
    with_keywords st
      (fold_left (fun (d : kwdict) kv => <[kv.1 := shown kv.2]> d) l
         (keywords st)).
Proof.
  induction 1 as [|kv l Hkv _ IH]; intros st; cbn [map fold_left].
  - destruct st; reflexivity.
  - rewrite (classify_shown kv Hkv), IH. reflexivity.
Qed.


Section Order.

Variable items_kw : kwdict -> list (pykey * pyval).
Variable items_blocks : blockmap -> list (str * kwdict).
Hypothesis items_kw_perm : forall d, items_kw d ≡ₚ map_to_list d.
Hypothesis items_blocks_perm : forall B, items_blocks B ≡ₚ map_to_list B.

Lemma items_kw_valid (d : kwdict) :
  valid_keywords d -> Forall valid_entry (items_kw d).
Proof.
  intros Hd. apply List.Forall_forall. intros [k v] Hin. apply Hd.
  apply elem_of_map_to_list. rewrite <- items_kw_perm.
  apply list_elem_of_In, Hin.
Qed.

Lemma to_string_valid (d : kwdict) (sub : option str) :
  valid_keywords d ->
  _keywords_to_string items_kw d sub =
    Ok (unlines (block_lines sub (items_kw d))).
Proof.
  intros Hd. unfold _keywords_to_string, block_lines.
  rewrite (entries_to_string_valid _ (items_kw_valid d Hd)).
  rewrite unlines_app, header_unlines. reflexivity.
Qed.

(** The blocks that the writer finds in the file. *)
Definition existing (fs : filesystem) (filename : str) : blockmap :=
  match fs !! filename with
  | Some content => blocks (parse content)
  | None => ∅
  end.

Lemma read_all_blocks (fs : filesystem) (filename : str) :
  (splitext filename).2 = lit ".keywords" ->
  read_keywords fs filename None true = Ok (RBlocks (existing fs filename)).
Proof.
  intros Hext. unfold read_keywords, verify, existing.
  rewrite bool_decide_eq_true_2 by exact Hext.
  destruct (fs !! filename); reflexivity.
Qed.

Lemma multilayer_flag_empty (B : blockmap) :
  B = ∅ ->
  match items_blocks B with [] => None | (k, _) :: _ => B !! k end = None.
Proof.
  intros ->. pose proof (items_blocks_perm ∅) as Hp.
  rewrite map_to_list_empty in Hp. apply Permutation_nil_r in Hp.
  rewrite Hp. reflexivity.
Qed.

Lemma multilayer_flag_nonempty (B : blockmap) :
  B <> ∅ ->
  exists d,
    match items_blocks B with [] => None | (k, _) :: _ => B !! k end = Some d.
Proof.
  intros HB. pose proof (items_blocks_perm B) as Hp.
  destruct (items_blocks B) as [|[k d] l] eqn:Hl.
  - symmetry in Hp. apply Permutation_nil_r in Hp.
    apply map_to_list_empty_iff in Hp. contradiction.
  - exists d. apply elem_of_map_to_list. rewrite <- Hp. left.
Qed.

Lemma handle_write_insert (filename s c : str) (fs : filesystem) :
  handle_write filename s (<[filename := c]> fs) = <[filename := c ++ s]> fs.
Proof. unfold handle_write. rewrite alter_insert_eq. reflexivity. Qed.

(** Writing to a file that holds no block. *)
Lemma write_simple (kw : kwdict) (filename : str) (sub : option str)
    (fs : filesystem) :
  (splitext filename).2 = lit ".keywords" -> existing fs filename = ∅ ->
  write_keywords items_kw items_blocks kw filename sub fs =
    match _keywords_to_string items_kw kw sub with
    | Ok s => (Ok tt, <[filename := s]> fs)
    | Raise e => (Raise e, <[filename := []]> fs)
    end.
Proof.
  intros Hext HB. unfold write_keywords.
  rewrite bool_decide_eq_true_2 by exact Hext. cbn [negb].
  rewrite (read_all_blocks _ _ Hext). cbn [as_blocks].
  rewrite (multilayer_flag_empty _ HB).
  destruct (_keywords_to_string items_kw kw sub); [|reflexivity].
  unfold open_wt. rewrite handle_write_insert. reflexivity.
Qed.

(** Writing without sublayer to a file that holds blocks. *)
Lemma write_collapse (kw : kwdict) (filename : str) (sub : option str)
    (fs : filesystem) :
  (splitext filename).2 = lit ".keywords" -> existing fs filename <> ∅ ->
  sub = None \/ sub = Some [] ->
  write_keywords items_kw items_blocks kw filename sub fs =
    match _keywords_to_string items_kw kw None with
    | Ok s => (Ok tt, <[filename := s]> fs)
    | Raise e => (Raise e, <[filename := []]> fs)
    end.
Proof.
  intros Hext HB Hsub. unfold write_keywords.
  rewrite bool_decide_eq_true_2 by exact Hext. cbn [negb].
  rewrite (read_all_blocks _ _ Hext). cbn [as_blocks].
  destruct (multilayer_flag_nonempty _ HB) as (d & ->).
  assert (Hgoal : forall r : result unit * filesystem,
    match sub with
    | Some (c :: name) =>
        write_blocks items_kw
          (items_blocks (<[c :: name := kw]> (existing fs filename)))
          filename (open_wt filename fs)
    | _ => r
    end = r) by (intros r; destruct Hsub as [->| ->]; reflexivity).
  rewrite Hgoal.
  destruct (_keywords_to_string items_kw kw None); [|reflexivity].
  unfold open_wt. rewrite handle_write_insert. reflexivity.
Qed.

(** Writing a sublayer to a file that holds blocks. *)
Lemma write_multi (kw : kwdict) (filename : str) (c : ascii) (name : str)
    (fs : filesystem) :
  (splitext filename).2 = lit ".keywords" -> existing fs filename <> ∅ ->
  write_keywords items_kw items_blocks kw filename (Some (c :: name)) fs =
    write_blocks items_kw
      (items_blocks (<[c :: name := kw]> (existing fs filename)))
      filename (<[filename := []]> fs).
Proof.
  intros Hext HB. unfold write_keywords.
  rewrite bool_decide_eq_true_2 by exact Hext. cbn [negb].
  rewrite (read_all_blocks _ _ Hext). cbn [as_blocks].
  destruct (multilayer_flag_nonempty _ HB) as (d & ->). reflexivity.
Qed.

Definition block_of (nd : str * kwdict) : list str :=
  block_lines (Some nd.1) (items_kw nd.2) ++ [[]].

Lemma write_blocks_valid (filename : str) (L : list (str * kwdict)) :
  Forall (fun nd => valid_keywords nd.2) L ->
  forall (c : str) (fs : filesystem),
    write_blocks items_kw L filename (<[filename := c]> fs) =
      (Ok tt, <[filename := c ++ unlines (concat (map block_of L))]> fs).
Proof.
  induction 1 as [|[name d] L Hd _ IH]; intros c fs; cbn [write_blocks].
  - unfold unlines. cbn [map concat]. rewrite app_nil_r. reflexivity.
  - rewrite (to_string_valid d (Some name) Hd).
    rewrite !handle_write_insert, IH. f_equal. f_equal.
    cbn [map concat]. unfold block_of at 2. cbn [fst snd].
    rewrite !unlines_app, <- !app_assoc. reflexivity.
Qed.

(** *** The blocks read back from the written text *)

Definition kinds (ts : list str) : list kind :=
  map (fun t => classify (t ++ [nl])) ts.

Lemma kinds_app (ts1 ts2 : list str) : kinds (ts1 ++ ts2) = kinds ts1 ++ kinds ts2.
Proof. apply map_app. Qed.

Lemma items_kw_tidy (d : kwdict) :
  tidy_keywords d -> Forall tidy_entry (items_kw d).
Proof.
  intros Hd. apply List.Forall_forall. intros [k v] Hin. apply Hd.
  apply elem_of_map_to_list. rewrite <- items_kw_perm.
  apply list_elem_of_In, Hin.
Qed.

Lemma run_entries_items (d : kwdict) (st : pstate) :
  tidy_keywords d -> keywords st = ∅ ->
  fold_left step_kind (kinds (map shown_text (items_kw d))) st =
    with_keywords st (shown <$> d).
Proof.
  intros Hd Hst. unfold kinds. rewrite (run_entries _ (items_kw_tidy d Hd)).
  rewrite Hst, (fold_insert_perm shown _ d (items_kw_perm d)). reflexivity.
Qed.

Lemma run_block_lines (name : str) (d : kwdict) (st : pstate) :
  tidy_keywords d ->
  fold_left step_kind (kinds (block_lines (Some name) (items_kw d))) st =
    with_keywords (step_kind st (Header name)) (shown <$> d).
Proof.
  intros Hd. unfold block_lines. rewrite kinds_app, fold_left_app.
  cbn [kinds map fold_left]. rewrite classify_header.
  apply run_entries_items; [exact Hd | reflexivity].
Qed.

Lemma run_block (nd : str * kwdict) (st : pstate) :
  tidy_keywords nd.2 ->
  fold_left step_kind (kinds (block_of nd)) st =
    with_keywords (step_kind st (Header nd.1)) (shown <$> nd.2).
Proof.
  intros Hd. unfold block_of. rewrite kinds_app, fold_left_app.
  rewrite (run_block_lines _ _ _ Hd). reflexivity.
Qed.

Lemma commit_block (st : pstate) (name : str) (d : kwdict) :
  d <> ∅ ->
  commit (with_keywords (step_kind st (Header name)) d) = <[name := d]> (commit st).
Proof.
  intros Hd. unfold commit at 1.
  cbn [with_keywords step_kind current_block keywords blocks].
  apply nonempty_true in Hd. rewrite Hd. reflexivity.
Qed.

Definition shown_dict (d : kwdict) : kwdict := shown <$> d.

Definition good_block (nd : str * kwdict) : Prop :=
  no_char nl nd.1 /\ tidy_keywords nd.2 /\ nd.2 <> ∅.

Lemma run_blocks (L : list (str * kwdict)) :
  Forall good_block L ->
  forall st,
    L <> [] ->
    commit (fold_left step_kind (kinds (concat (map block_of L))) st) =
      fold_left (fun (B : blockmap) nd => <[nd.1 := shown <$> nd.2]> B) L
        (commit st).
Proof.
  induction 1 as [|nd L (Hn & Hd & Hne) HL IH]; intros st HLne;
    [contradiction|].
  cbn [map concat fold_left]. rewrite kinds_app, fold_left_app.
  rewrite (run_block nd st Hd).
  set (st1 := with_keywords (step_kind st (Header nd.1)) (shown <$> nd.2)).
  assert (Hst1 : commit st1 = <[nd.1 := shown <$> nd.2]> (commit st)).
  { apply commit_block. intros H. apply fmap_empty_inv in H. contradiction. }
  destruct L as [|nd' L].
  - cbn [map concat kinds fold_left]. exact Hst1.
  - rewrite IH by discriminate. rewrite Hst1. reflexivity.
Qed.

Lemma block_lines_no_nl (sub : option str) (d : kwdict) :
  match sub with Some name => no_char nl name | None => True end ->
  tidy_keywords d -> Forall (no_char nl) (block_lines sub (items_kw d)).
Proof.
  intros Hsub Hd. unfold block_lines. apply Forall_app. split.
  - destruct sub; repeat constructor. apply header_text_no_nl, Hsub.
  - apply Forall_map. eapply Forall_impl; [apply items_kw_tidy, Hd|].
    intros kv Hkv. apply shown_text_no_nl, Hkv.
Qed.

Lemma blocks_no_nl (L : list (str * kwdict)) :
  Forall good_block L -> Forall (no_char nl) (concat (map block_of L)).
Proof.
  intros HL. apply Forall_concat, Forall_map.
  eapply Forall_impl; [exact HL|]. intros nd (Hn & Hd & _).
  unfold block_of. apply Forall_app. split.
  - apply (block_lines_no_nl (Some nd.1)); assumption.
  - repeat constructor. intros [].
Qed.

Lemma parse_blocks_text (B : blockmap) :
  (forall name d, B !! name = Some d -> good_block (name, d)) ->
  blocks (parse (unlines (concat (map block_of (items_blocks B))))) =
    shown_dict <$> B.
Proof.
  intros HB.
  assert (HL : Forall good_block (items_blocks B)).
  { apply List.Forall_forall. intros [name d] Hin. apply HB.
    apply elem_of_map_to_list. rewrite <- items_blocks_perm.
    apply list_elem_of_In, Hin. }
  unfold parse. rewrite blocks_finish, (run_unlines _ _ (blocks_no_nl _ HL)).
  fold (kinds (concat (map block_of (items_blocks B)))).
  destruct (items_blocks B) as [|nd L] eqn:HLeq.
  - pose proof (items_blocks_perm B) as Hp. rewrite HLeq in Hp.
    symmetry in Hp. apply Permutation_nil_r, map_to_list_empty_iff in Hp.
    subst B. rewrite fmap_empty. reflexivity.
  - rewrite run_blocks by (assumption || discriminate).
    rewrite <- HLeq.
    apply (fold_insert_perm shown_dict _ B (items_blocks_perm B)).
Qed.

(** A single block, as written to a file without blocks. *)
Lemma parse_block_text (sub : option str) (d : kwdict) :
  match sub with Some name => no_char nl name | None => True end ->
  tidy_keywords d ->
  blocks (parse (unlines (block_lines sub (items_kw d)))) =
    match sub with
    | Some name => if nonempty d then {[name := shown <$> d]} else ∅
    | None => ∅
    end /\
  first_keywords (parse (unlines (block_lines sub (items_kw d)))) =
    Some (shown <$> d).
Proof.
  intros Hsub Hd. unfold parse.
  rewrite (run_unlines _ _ (block_lines_no_nl sub d Hsub Hd)).
  fold (kinds (block_lines sub (items_kw d))).
  destruct sub as [name|].
  - rewrite (run_block_lines name d init Hd). split; [|reflexivity].
    rewrite blocks_finish. destruct (nonempty d) eqn:Hne.
    + rewrite commit_block; [reflexivity|].
      apply nonempty_true in Hne. intros H. apply fmap_empty_inv in H.
      contradiction.
    + apply nonempty_false in Hne. subst d. rewrite fmap_empty. reflexivity.
  - unfold block_lines. cbn [app].
    rewrite (run_entries_items d init Hd eq_refl). split; reflexivity.
Qed.

(** Dictionaries of strings that are read back as they are. *)
Definition clean (d : kwdict) : Prop :=
  forall k v, d !! k = Some v ->
    exists key s, k = KStr key /\ v = VStr s /\ tidy key s.

Lemma clean_tidy (d : kwdict) : clean d -> tidy_keywords d.
Proof.
  intros Hd k v Hkv. destruct (Hd k v Hkv) as (key & s & -> & -> & Ht).
  exists key, s. split; [reflexivity|]. split; [reflexivity | exact Ht].
Qed.

Lemma clean_shown (d : kwdict) : clean d -> shown <$> d = d.
Proof.
  intros Hd. apply map_eq. intros k. rewrite lookup_fmap.
  destruct (d !! k) as [v|] eqn:Hkv; [|reflexivity].
  destruct (Hd k v Hkv) as (key & s & _ & -> & _). reflexivity.
Qed.


Lemma read_file (fs : filesystem) (filename text : str)
    (sublayer : option str) (all_blocks : bool) :
  (splitext filename).2 = lit ".keywords" -> fs !! filename = Some text ->
  read_keywords fs filename sublayer all_blocks =
    if all_blocks then Ok (RBlocks (blocks (parse text)))
    else match sublayer with
         | Some name =>
             match blocks (parse text) !! name with
             | Some k => Ok (RKeywords k)
             | None => Ok RNone
             end
         | None =>
             match first_keywords (parse text) with
             | Some k => Ok (RKeywords k)
             | None => Ok RNone
             end
         end.
Proof.
  intros Hext Hfile. unfold read_keywords, verify.
  rewrite bool_decide_eq_true_2 by exact Hext. rewrite Hfile. reflexivity.
Qed.

Lemma two_blocks_good (nx ny : str) (kx ky : kwdict) :
  clean kx -> clean ky -> kx <> ∅ -> ky <> ∅ ->
  no_char nl nx -> no_char nl ny ->
  forall name d,
    (<[ny := ky]> {[nx := kx]} : blockmap) !! name = Some d ->
    good_block (name, d) /\ clean d.
Proof.
  intros Hkx Hky Hnex Hney Hnx Hny name d Hd.
  apply lookup_insert_Some in Hd as [[<- <-]|[_ Hd]].
  - split; [|exact Hky]. split; [exact Hny|]. split; [apply clean_tidy, Hky|exact Hney].
  - apply lookup_singleton_Some in Hd as [<- <-].
    split; [|exact Hkx]. split; [exact Hnx|]. split; [apply clean_tidy, Hkx|exact Hnex].
Qed.

(** C3 (as the code has it). On a fresh file, for two dictionaries that
    are not empty, whose keys are strings without colon and newline and
    whose values are strings without newline and surrounding whitespace,
    with no entry whose key starts with an opening bracket while its value
    ends with a closing one: writing the first under one sublayer and the
    second under another gives a file from which all blocks are read back
    as the two dictionaries under their names, and the first sublayer as
    the first dictionary. The names are newline-free, distinct, and the
    second is not empty. *)
Theorem multilayer_round_trip (fs : filesystem) (filename nx ny : str)
    (kx ky : kwdict) :
  (splitext filename).2 = lit ".keywords" -> fs !! filename = None ->
  clean kx -> clean ky -> kx <> ∅ -> ky <> ∅ ->
  no_char nl nx -> no_char nl ny -> ny <> [] -> nx <> ny ->
  let w1 := write_keywords items_kw items_blocks kx filename (Some nx) fs in
  let w2 := write_keywords items_kw items_blocks ky filename (Some ny) w1.2 in
  w1.1 = Ok tt /\ w2.1 = Ok tt /\
  read_keywords w2.2 filename None true = Ok (RBlocks {[nx := kx; ny := ky]}) /\
  read_keywords w2.2 filename (Some nx) false = Ok (RKeywords kx).
Proof.
  intros Hext Hfresh Hkx Hky Hnex Hney Hnx Hny Hny0 Hne w1 w2.
  assert (H1 : w1 = (Ok tt,
    <[filename := unlines (block_lines (Some nx) (items_kw kx))]> fs)).
  { subst w1. rewrite write_simple;
      [|exact Hext | unfold existing; rewrite Hfresh; reflexivity].
    rewrite to_string_valid by (apply tidy_keywords_valid, clean_tidy, Hkx).
    reflexivity. }
  assert (HB : existing w1.2 filename = {[nx := kx]}).
  { rewrite H1. cbn [snd]. unfold existing. rewrite lookup_insert_eq.
    destruct (parse_block_text (Some nx) kx Hnx (clean_tidy _ Hkx)) as [-> _].
    rewrite (proj2 (nonempty_true kx) Hnex), clean_shown by assumption.
    reflexivity. }
  destruct ny as [|c ny']; [contradiction|].
  set (ny := c :: ny') in *.
  set (B := (<[ny := ky]> {[nx := kx]} : blockmap)).
  pose proof (two_blocks_good nx ny kx ky Hkx Hky Hnex Hney Hnx Hny) as HBgood.
  fold B in HBgood.
  assert (H2 : w2 = (Ok tt,
    <[filename := unlines (concat (map block_of (items_blocks B)))]> fs)).
  { subst w2. unfold ny. rewrite write_multi;
      [|exact Hext | rewrite HB; apply insert_non_empty].
    rewrite HB. fold ny. fold B. rewrite H1. cbn [snd].
    rewrite insert_insert_eq. rewrite write_blocks_valid; [reflexivity|].
    apply List.Forall_forall. intros [name d] Hin.
    apply tidy_keywords_valid. apply (HBgood name d).
    apply elem_of_map_to_list. rewrite <- items_blocks_perm.
    apply list_elem_of_In, Hin. }
  assert (Hparse : blocks (parse (unlines (concat (map block_of (items_blocks B)))))
                   = {[nx := kx; ny := ky]}).
  { rewrite parse_blocks_text by (intros name d Hd; apply HBgood, Hd).
    transitivity B.
    - apply map_eq. intros name. rewrite lookup_fmap.
      destruct (B !! name) as [d|] eqn:Hd; [|reflexivity].
      cbn. f_equal. apply clean_shown, (HBgood name d Hd).
    - unfold B. rewrite <- insert_empty. apply insert_insert_ne.
      congruence. }
  rewrite H1, H2. cbn [fst snd]. split; [reflexivity|]. split; [reflexivity|].
  rewrite !(read_file _ _ _ _ _ Hext (lookup_insert_eq _ _ _)).
  rewrite Hparse. split; [reflexivity|].
  rewrite lookup_insert_eq. reflexivity.
Qed.

(** C2. When the file holds blocks, among them [x] and [y], a write of
    valid keywords without sublayer (or with the empty one) replaces the
    whole file by the lines of the new keywords, without header; whatever
    is read afterwards is what is read after the same write on a file
    system in which the file did not exist. The read finds the new
    keywords only (the default read gives them, there is no block left
    and every named sublayer reads as [None]) when they are a dictionary
    of strings in which no key holds a newline, no value holds a newline
    or has whitespace around it, and no entry has a key that starts with
    a bracket and a value that ends with one. *)
Theorem write_without_sublayer_collapses (fs : filesystem)
    (filename content : str) (bx bys new_kw : kwdict) (sub : option str) :
  (splitext filename).2 = lit ".keywords" -> fs !! filename = Some content ->
  blocks (parse content) !! lit "x" = Some bx ->
  blocks (parse content) !! lit "y" = Some bys ->
  valid_keywords new_kw -> sub = None \/ sub = Some [] ->
  let text := unlines (block_lines None (items_kw new_kw)) in
  _keywords_to_string items_kw new_kw None = Ok text /\
  write_keywords items_kw items_blocks new_kw filename sub fs =
    (Ok tt, <[filename := text]> fs) /\
  (forall sublayer all_blocks,
     read_keywords (<[filename := text]> fs) filename sublayer all_blocks =
     read_keywords
       (write_keywords items_kw items_blocks new_kw filename None
          (delete filename fs)).2 filename sublayer all_blocks) /\
  (clean new_kw ->
     read_keywords (<[filename := text]> fs) filename None false =
       Ok (RKeywords new_kw) /\
     read_keywords (<[filename := text]> fs) filename None true =
       Ok (RBlocks ∅) /\
     forall name,
       read_keywords (<[filename := text]> fs) filename (Some name) false =
         Ok RNone).
Proof.
  intros Hext Hfile Hx Hy Hvalid Hsub text.
  assert (Hstr : _keywords_to_string items_kw new_kw None = Ok text)
    by (apply to_string_valid, Hvalid).
  split; [exact Hstr|]. split; [|split].
  - rewrite write_collapse; [rewrite Hstr; reflexivity | exact Hext | | exact Hsub].
    unfold existing. rewrite Hfile. intros HB. rewrite HB in Hx.
    rewrite lookup_empty in Hx. discriminate.
  - intros sublayer all_blocks. rewrite write_simple;
      [|exact Hext | unfold existing; rewrite lookup_delete_eq; reflexivity].
    rewrite Hstr. cbn [snd].
    rewrite !(read_file _ _ _ _ _ Hext (lookup_insert_eq _ _ _)). reflexivity.
  - intros Hclean.
    destruct (parse_block_text None new_kw I (clean_tidy _ Hclean)) as [Hb Hf].
    fold text in Hb, Hf. rewrite (clean_shown _ Hclean) in Hf.
    rewrite !(read_file _ _ _ _ _ Hext (lookup_insert_eq _ _ _)).
    rewrite Hb, Hf. split; [reflexivity|]. split; [reflexivity|].
    intros name. rewrite (read_file _ _ _ _ _ Hext (lookup_insert_eq _ _ _)).
    rewrite Hb, lookup_empty. reflexivity.
Qed.


Lemma none_entry_tidy (key : str) :
  no_char ":"%char key -> no_char nl key ->
  tidy_keywords {[KStr key := VNone]}.
Proof.
  intros Hcolon Hnl k v Hkv. apply lookup_singleton_Some in Hkv as [<- <-].
  exists key, (lit "None"). split; [reflexivity|]. split; [reflexivity|].
  split; [exact Hcolon|]. split; [exact Hnl|].
  split; [intros Hin; vm_compute in Hin; intuition discriminate|].
  split; [reflexivity|]. split; [reflexivity|].
  intros [_ Hlast]. vm_compute in Hlast. discriminate.
Qed.

(** The text of the blocks that are written before one fails. *)
Fixpoint blocks_text (L : list (str * kwdict)) : result str :=
  match L with
  | [] => Ok []
  | (name, d) :: L' =>
      match _keywords_to_string items_kw d (Some name) with
      | Raise e => Raise e
      | Ok s =>
          match blocks_text L' with
          | Raise e => Raise e
          | Ok t => Ok (s ++ [nl] ++ t)
          end
      end
  end.

Lemma write_blocks_fail (filename : str) (e : exn) (fs' : filesystem)
    (L : list (str * kwdict)) :
  forall (c : str) (fs : filesystem),
    write_blocks items_kw L filename (<[filename := c]> fs) = (Raise e, fs') ->
    exists done name d rest written,
      L = done ++ (name, d) :: rest /\ blocks_text done = Ok written /\
      _keywords_to_string items_kw d (Some name) = Raise e /\
      fs' = <[filename := c ++ written]> fs.
Proof.
  induction L as [|[name d] L IH]; intros c fs Hw; cbn [write_blocks] in Hw.
  - discriminate.
  - destruct (_keywords_to_string items_kw d (Some name)) as [s|e0] eqn:Hs.
    + rewrite !handle_write_insert in Hw.
      destruct (IH _ _ Hw) as (done & name' & d' & rest & written & -> & Hdone & Hfail & ->).
      exists ((name, d) :: done), name', d', rest, (s ++ [nl] ++ written).
      split; [reflexivity|]. split; [cbn [blocks_text]; rewrite Hs, Hdone; reflexivity|].
      split; [exact Hfail|]. rewrite <- !app_assoc. reflexivity.
    + injection Hw as -> <-. exists [], name, d, L, [].
      split; [reflexivity|]. split; [reflexivity|]. split; [exact Hs|].
      rewrite app_nil_r. reflexivity.
Qed.

(** C1 (as the code has it). A write that fails on the extension of the
    file name leaves the file system as it is. A write that fails on a key
    or a value fails after the file has been opened for writing: the file
    then holds nothing when it held no block or no sublayer was given, and
    otherwise the text of the blocks that come before the failing one in
    the order of the writer; its former content is lost. *)
Theorem failed_write_overwrites (fs fs' : filesystem) (filename : str)
    (kw : kwdict) (sub : option str) (e : exn) :
  write_keywords items_kw items_blocks kw filename sub fs = (Raise e, fs') ->
  ((splitext filename).2 <> lit ".keywords" /\
   e = VerificationError /\ fs' = fs) \/
  ((splitext filename).2 = lit ".keywords" /\
   (existing fs filename = ∅ \/ sub = None \/ sub = Some []) /\
   (exists sub', _keywords_to_string items_kw kw sub' = Raise e) /\
   fs' = <[filename := []]> fs) \/
  ((splitext filename).2 = lit ".keywords" /\ existing fs filename <> ∅ /\
   exists name0 done name d rest written,
     sub = Some name0 /\
     items_blocks (<[name0 := kw]> (existing fs filename)) =
       done ++ (name, d) :: rest /\
     blocks_text done = Ok written /\
     _keywords_to_string items_kw d (Some name) = Raise e /\
     fs' = <[filename := written]> fs).
Proof.
  intros Hw.
  destruct (decide ((splitext filename).2 = lit ".keywords")) as [Hext|Hext].
  2:{ left. unfold write_keywords in Hw.
      rewrite bool_decide_eq_false_2 in Hw by exact Hext. cbn [negb] in Hw.
      injection Hw as <- <-. auto. }
  right. destruct (decide (existing fs filename = ∅)) as [HB|HB].
  - left. rewrite write_simple in Hw by assumption.
    destruct (_keywords_to_string items_kw kw sub) as [s|e0] eqn:Hs;
      [discriminate|]. injection Hw as -> <-. eauto 10.
  - destruct sub as [[|c name0]|].
    + left. rewrite write_collapse in Hw; [|assumption|assumption|right; reflexivity].
      destruct (_keywords_to_string items_kw kw None) as [s|e0] eqn:Hs;
        [discriminate|]. injection Hw as -> <-. eauto 10.
    + right. rewrite write_multi in Hw by assumption.
      apply write_blocks_fail in Hw
        as (done & name & d & rest & written & HL & Hdone & Hfail & ->).
      split; [exact Hext|]. split; [exact HB|].
      exists (c :: name0), done, name, d, rest, written. auto.
    + left. rewrite write_collapse in Hw; [|assumption|assumption|left; reflexivity].
      destruct (_keywords_to_string items_kw kw None) as [s|e0] eqn:Hs;
        [discriminate|]. injection Hw as -> <-. eauto 10.
Qed.


End Order.

(** *** Concrete runs, in the order of [map_to_list] *)

Definition same_order {K V : Type} `{Countable K} (m : gmap K V)
    : map_to_list m ≡ₚ map_to_list m := Permutation_refl _.

Definition one_a : kwdict := {[KStr (lit "a") := VStr (lit "1")]}.
Definition one_b : kwdict := {[KStr (lit "b") := VStr (lit "2")]}.
Definition one_c : kwdict := {[KStr (lit "c") := VStr (lit "3")]}.

Definition two_blocks : str :=
  lit "[x]" ++ [nl] ++ lit "a: 1" ++ [nl] ++ [nl] ++
  lit "[y]" ++ [nl] ++ lit "b: 2" ++ [nl] ++ [nl].

Ltac not_in := let H := fresh in intros H; vm_compute in H; intuition discriminate.

Ltac tidy_literal :=
  split; [not_in|]; split; [not_in|]; split; [not_in|];
  split; [vm_compute; reflexivity|]; split; [vm_compute; reflexivity|];
  not_in.

Lemma singleton_clean (key s : str) : tidy key s -> clean {[KStr key := VStr s]}.
Proof.
  intros Ht k v Hkv. apply lookup_singleton_Some in Hkv as [<- <-]. eauto.
Qed.

Lemma singleton_valid (key s : str) :
  tidy key s -> valid_keywords {[KStr key := VStr s]}.
Proof. intros Ht. apply tidy_keywords_valid, clean_tidy, singleton_clean, Ht. Qed.

Lemma multilayer_round_trip_witness :
  let w1 := write_keywords map_to_list map_to_list one_a file1
              (Some (lit "x")) ∅ in
  let w2 := write_keywords map_to_list map_to_list one_b file1
              (Some (lit "y")) w1.2 in
  w1.1 = Ok tt /\ w2.1 = Ok tt /\
  read_keywords w2.2 file1 None true =
    Ok (RBlocks {[lit "x" := one_a; lit "y" := one_b]}) /\
  read_keywords w2.2 file1 (Some (lit "x")) false = Ok (RKeywords one_a).
Proof.
  apply (multilayer_round_trip map_to_list map_to_list same_order same_order).
  - vm_compute. reflexivity.
  - reflexivity.
  - apply singleton_clean. tidy_literal.
  - apply singleton_clean. tidy_literal.
  - apply map_non_empty_singleton.
  - apply map_non_empty_singleton.
  - not_in.
  - not_in.
  - discriminate.
  - discriminate.
Defined.

(** C3 as stated fails. With an empty first dictionary the file has no
    block [x] after the two writes. With the key [[a] and the value [b]]
    the line is read as a header and the block [x] is lost. With a key
    that holds a newline the block [x] is read back with the keys [a] and [b]. *)
Lemma round_trip_needs_tidy_entries :
  let W := write_keywords map_to_list map_to_list in
  let after kx := (W one_b file1 (Some (lit "y"))
                     (W kx file1 (Some (lit "x")) ∅).2).2 in
  let bracket : kwdict := {[KStr (lit "[a") := VStr (lit "b]")]} in
  let broken : kwdict := {[KStr (lit "a" ++ [nl] ++ lit "b") := VStr (lit "1")]} in
  (read_keywords (after ∅) file1 None true = Ok (RBlocks {[lit "y" := one_b]}) /\
   read_keywords (after ∅) file1 (Some (lit "x")) false = Ok RNone /\
   read_keywords (after ∅) file1 (Some (lit "x")) false <> Ok (RKeywords ∅)) /\
  (read_keywords (after bracket) file1 None true =
     Ok (RBlocks {[lit "y" := one_b]}) /\
   read_keywords (after bracket) file1 (Some (lit "x")) false <>
     Ok (RKeywords bracket)) /\
  (read_keywords (after broken) file1 (Some (lit "x")) false =
     Ok (RKeywords {[KStr (lit "a") := VStr (lit "None");
                     KStr (lit "b") := VStr (lit "1")]}) /\
   read_keywords (after broken) file1 (Some (lit "x")) false <>
     Ok (RKeywords broken)).
Proof.
  cbv zeta. split; [|split].
  - split; [vm_compute; reflexivity|]. split; [vm_compute; reflexivity|].
    intros H. vm_compute in H. discriminate.
  - split; [vm_compute; reflexivity|]. intros H. vm_compute in H. discriminate.
  - split; [vm_compute; reflexivity|]. intros H.
    apply (f_equal (fun r => match r with
                             | Ok (RKeywords m) => m !! KStr (lit "a")
                             | _ => None
                             end)) in H.
    vm_compute in H. discriminate.
Qed.

Lemma write_without_sublayer_collapses_witness :
  let fs : filesystem := {[file1 := two_blocks]} in
  let text := unlines (block_lines None (map_to_list one_c)) in
  _keywords_to_string map_to_list one_c None = Ok text /\
  write_keywords map_to_list map_to_list one_c file1 None fs =
    (Ok tt, <[file1 := text]> fs) /\
  (forall sublayer all_blocks,
     read_keywords (<[file1 := text]> fs) file1 sublayer all_blocks =
     read_keywords
       (write_keywords map_to_list map_to_list one_c file1 None
          (delete file1 fs)).2 file1 sublayer all_blocks) /\
  (clean one_c ->
     read_keywords (<[file1 := text]> fs) file1 None false =
       Ok (RKeywords one_c) /\
     read_keywords (<[file1 := text]> fs) file1 None true = Ok (RBlocks ∅) /\
     forall name,
       read_keywords (<[file1 := text]> fs) file1 (Some name) false =
         Ok RNone).
Proof.
  apply (write_without_sublayer_collapses map_to_list map_to_list
           same_order same_order {[file1 := two_blocks]} file1 two_blocks
           one_a one_b one_c None).
  - vm_compute. reflexivity.
  - vm_compute. reflexivity.
  - vm_compute. reflexivity.
  - vm_compute. reflexivity.
  - apply singleton_valid. tidy_literal.
  - left. reflexivity.
Defined.

Definition none_value : kwdict := {[KStr (lit "foo") := VNone]}.

Definition header_in_value : kwdict :=
  {[KStr (lit "a") := VStr (lit "1" ++ [nl] ++ lit "[x]" ++ [nl] ++ lit "b: 2")]}.

(** C2 as stated fails for the read that follows. The dictionary
    [{foo: None}] is valid; written without sublayer over the file with
    the blocks [x] and [y] it is read back as [{foo: 'None'}], which is
    not the dictionary written. The value of [header_in_value] holds the
    line [[x]]: it is valid too, and after the write the file has a
    block [x] again. *)
Lemma collapse_read_differs :
  let fs : filesystem := {[file1 := two_blocks]} in
  let W := write_keywords map_to_list map_to_list in
  (blocks (parse two_blocks) !! lit "x" = Some one_a /\
   blocks (parse two_blocks) !! lit "y" = Some one_b) /\
  (valid_keywords none_value /\
   (W none_value file1 None fs).1 = Ok tt /\
   read_keywords (W none_value file1 None fs).2 file1 None false =
     Ok (RKeywords {[KStr (lit "foo") := VStr (lit "None")]}) /\
   read_keywords (W none_value file1 None fs).2 file1 None false <>
     Ok (RKeywords none_value)) /\
  (valid_keywords header_in_value /\
   (W header_in_value file1 None fs).1 = Ok tt /\
   read_keywords (W header_in_value file1 None fs).2 file1 None true =
     Ok (RBlocks {[lit "x" := {[KStr (lit "b") := VStr (lit "2")]}]}) /\
   read_keywords (W header_in_value file1 None fs).2 file1 None false <>
     Ok (RKeywords header_in_value)).
Proof.
  cbv zeta. split; [split; vm_compute; reflexivity|]. split.
  - split.
    { intros k v Hkv. unfold none_value in Hkv.
      apply lookup_singleton_Some in Hkv as [<- <-].
      exists (lit "foo"), (lit "None"). split; [reflexivity|].
      split; [reflexivity | not_in]. }
    split; [vm_compute; reflexivity|]. split; [vm_compute; reflexivity|].
    intros H.
    apply (f_equal (fun r => match r with
                             | Ok (RKeywords m) => m !! KStr (lit "foo")
                             | _ => None
                             end)) in H.
    vm_compute in H. discriminate.
  - split.
    { intros k v Hkv. unfold header_in_value in Hkv.
      apply lookup_singleton_Some in Hkv as [<- <-].
      eexists (lit "a"), _. split; [reflexivity|].
      split; [reflexivity | not_in]. }
    split; [vm_compute; reflexivity|]. split; [vm_compute; reflexivity|].
    intros H.
    apply (f_equal (fun r => match r with
                             | Ok (RKeywords m) => m !! KStr (lit "a")
                             | _ => None
                             end)) in H.
    vm_compute in H. discriminate.
Qed.

(** C4 as stated fails: the key [foo] written with the value [None] is
    read back with the string [None] as its value, not with [None]. *)
Lemma bare_key_reads_back_as_text :
  let w := write_keywords map_to_list map_to_list
             {[KStr (lit "foo") := VNone]} file1 None ∅ in
  w.1 = Ok tt /\
  read_keywords w.2 file1 None false =
    Ok (RKeywords {[KStr (lit "foo") := VStr (lit "None")]}) /\
  read_keywords w.2 file1 None false <>
    Ok (RKeywords {[KStr (lit "foo") := VNone]}).
Proof.
  cbv zeta. split; [vm_compute; reflexivity|].
  split; [vm_compute; reflexivity|]. intros H.
  apply (f_equal (fun r => match r with
                           | Ok (RKeywords m) => m !! KStr (lit "foo")
                           | _ => None
                           end)) in H.
  vm_compute in H. discriminate.
Qed.

Definition simple_file : filesystem := {[file1 := lit "a: 1" ++ [nl]]}.

Definition int_key : kwdict := {[KInt 1 := VStr (lit "v")]}.

Lemma failed_write_overwrites_witness :
  ((splitext file1).2 <> lit ".keywords" /\
   VerificationError = VerificationError /\
   ({[file1 := []]} : filesystem) = simple_file) \/
  ((splitext file1).2 = lit ".keywords" /\
   (existing simple_file file1 = ∅ \/ (None : option str) = None \/
    (None : option str) = Some []) /\
   (exists sub', _keywords_to_string map_to_list int_key sub'
                 = Raise VerificationError) /\
   ({[file1 := []]} : filesystem) = <[file1 := []]> simple_file) \/
  ((splitext file1).2 = lit ".keywords" /\ existing simple_file file1 <> ∅ /\
   exists name0 done name d rest written,
     None = Some name0 /\
     map_to_list (<[name0 := int_key]> (existing simple_file file1)) =
       done ++ (name, d) :: rest /\
     blocks_text map_to_list done = Ok written /\
     _keywords_to_string map_to_list d (Some name) = Raise VerificationError /\
     ({[file1 := []]} : filesystem) = <[file1 := written]> simple_file).
Proof.
  apply (failed_write_overwrites map_to_list map_to_list same_order
           simple_file {[file1 := []]} file1 int_key None VerificationError).
  vm_compute. reflexivity.
Defined.

(** C1 as stated fails: a file that holds the line [a: 1] is empty after
    a write that fails on a key that is not a string, on a key with a
    colon, or on a value that cannot be shown. *)
Lemma failed_write_truncates :
  let W := write_keywords map_to_list map_to_list in
  W int_key file1 None simple_file = (Raise VerificationError, {[file1 := []]}) /\
  W {[KStr (lit "a:b") := VStr (lit "v")]} file1 None simple_file =
    (Raise VerificationError, {[file1 := []]}) /\
  W {[KStr (lit "k") := VObj None]} file1 None simple_file =
    (Raise StrError, {[file1 := []]}) /\
  simple_file !! file1 = Some (lit "a: 1" ++ [nl]) /\
  ({[file1 := []]} : filesystem) !! file1 <> simple_file !! file1.
Proof.
  cbv zeta. repeat split; try (vm_compute; reflexivity).
  intros H. vm_compute in H. discriminate.
Qed.

End KeywordWriterFacts.

(** ** Properties of the geotransform and of the buffered box *)

Module RasterFacts.

Import Raster.
Local Open Scope Q_scope.

Lemma item_ok {A : Type} (l : list A) (i : nat) (x : A) :
  l !! i = Some x -> item l i = Ok x.
Proof. intros H. unfold item. rewrite H. reflexivity. Qed.

Lemma item_short {A : Type} (l : list A) (i : nat) :
  (length l <= i)%nat -> item l i = Raise IndexError.
Proof.
  intros H. unfold item. rewrite (proj2 (lookup_ge_None l i)) by lia. reflexivity.
Qed.

Lemma item_long {A : Type} (l : list A) (i : nat) :
  (i < length l)%nat -> exists x, l !! i = Some x /\ item l i = Ok x.
Proof.
  intros H. destruct (lookup_lt_is_Some_2 l i H) as [x Hx].
  exists x. split; [exact Hx | apply item_ok, Hx].
Qed.






Lemma geotransform_of_grid (longitudes latitudes : list Q) (x0 x1 y0 y1 : Q) :
  longitudes !! 0%nat = Some x0 -> longitudes !! 1%nat = Some x1 ->
  latitudes !! 0%nat = Some y0 -> latitudes !! 1%nat = Some y1 ->
  exists yn,
    last latitudes = Some yn /\
    raster_geometry2geotransform longitudes latitudes =
      Ok [x0 - (x1 - x0) / 2; x1 - x0; 0; yn - (y0 - y1) / 2; 0; y0 - y1].
Proof.
  intros Hx0 Hx1 Hy0 Hy1.
  assert (Hyn : exists yn, last latitudes = Some yn).
  { destruct latitudes as [|y l]; [discriminate Hy0|].
    destruct (last (y :: l)) as [yn|] eqn:Hl; [eauto|].
    apply last_None in Hl. discriminate Hl. }
  destruct Hyn as [yn Hyn]. exists yn. split; [exact Hyn|].
  unfold raster_geometry2geotransform, verify.
  apply lookup_lt_Some in Hx1 as Hnx. apply lookup_lt_Some in Hy1 as Hny.
  destruct (Nat.ltb_spec 1 (length longitudes)); [|lia].
  destruct (Nat.ltb_spec 1 (length latitudes)); [|lia].
  rewrite (item_ok _ _ _ Hx0), (item_ok _ _ _ Hx1),
    (item_ok _ _ _ Hy0), (item_ok _ _ _ Hy1).
  unfold last_item. rewrite Hyn. reflexivity.
Qed.

Lemma allclose_true (a b rtol atol : Q) :
  allclose a b rtol atol = true <-> Qabs (a - b) <= atol + rtol * Qabs b.
Proof. unfold allclose. apply Qle_bool_iff. Qed.

(** X2. The resolution read back from the geotransform of a grid is the
    spacing of its first two longitudes and of its first two latitudes.
    Asked for an isotropic resolution, the function returns the spacing
    of the longitudes when the two spacings are equal, for any
    tolerances that are not negative, and raises a verification error
    when they differ by more than [atol + rtol * |resy|]. *)
Theorem grid_resolution (longitudes latitudes : list Q) (x0 x1 y0 y1 : Q) :
  longitudes !! 0%nat = Some x0 -> longitudes !! 1%nat = Some x1 ->
  latitudes !! 0%nat = Some y0 -> latitudes !! 1%nat = Some y1 ->
  exists geotransform,
    raster_geometry2geotransform longitudes latitudes = Ok geotransform /\
    (forall rtol atol, exists resx resy,
       geotransform2resolution geotransform false rtol atol
         = Ok (ResXY resx resy) /\
       resx == x1 - x0 /\ resy == y1 - y0) /\
    (forall rtol atol, 0 <= rtol -> 0 <= atol -> x1 - x0 == y1 - y0 ->
       geotransform2resolution geotransform true rtol atol
         = Ok (Res (x1 - x0))) /\
    (forall rtol atol,
       atol + rtol * Qabs (y1 - y0) < Qabs ((x1 - x0) - (y1 - y0)) ->
       geotransform2resolution geotransform true rtol atol
         = Raise VerificationError).
Proof.
  intros Hx0 Hx1 Hy0 Hy1.
  destruct (geotransform_of_grid _ _ _ _ _ _ Hx0 Hx1 Hy0 Hy1) as (yn & _ & Hgt).
  eexists. split; [exact Hgt|].
  assert (Hy : - (y0 - y1) == y1 - y0) by ring.
  split; [|split].
  - intros rtol atol. eexists _, _. split; [reflexivity|].
    split; [reflexivity | exact Hy].
  - intros rtol atol Hr Ha Heq.
    unfold geotransform2resolution, item. cbn [lookup list_lookup bind].
    unfold verify.
    destruct (allclose (x1 - x0) (- (y0 - y1)) rtol atol) eqn:Hc; [reflexivity|].
    exfalso. apply not_true_iff_false in Hc. apply Hc. apply allclose_true.
    rewrite Hy, Heq.
    assert (E : y1 - y0 - (y1 - y0) == 0) by ring. rewrite E.
    pose proof (Qabs_nonneg (y1 - y0)) as Hn.
    change (Qabs 0) with 0. set (m := Qabs (y1 - y0)) in *. clearbody m.
    apply Qle_trans with (0 + 0); [discriminate|].
    apply Qplus_le_compat; [exact Ha|]. apply Qmult_le_0_compat; assumption.
  - intros rtol atol Hfar.
    unfold geotransform2resolution, item. cbn [lookup list_lookup bind].
    unfold verify.
    destruct (allclose (x1 - x0) (- (y0 - y1)) rtol atol) eqn:Hc; [|reflexivity].
    exfalso. apply allclose_true in Hc. rewrite Hy in Hc.
    apply (Qlt_not_le _ _ Hfar). exact Hc.
Qed.

Lemma grid_resolution_witness :
  exists geotransform,
    raster_geometry2geotransform [10; 12; 14; 16] [-4; -2; 0] = Ok geotransform /\
    geotransform2resolution geotransform true (1 # 1000000) (1 # 100000000)
      = Ok (Res (12 - 10)).
Proof.
  destruct (grid_resolution [10; 12; 14; 16] [-4; -2; 0] 10 12 (-4) (-2))
    as (gt & Hgt & _ & Hiso & _); try reflexivity.
  exists gt. split; [exact Hgt|].
  apply Hiso; [discriminate | discriminate | reflexivity].
Defined.

(** X3. [raster_geometry2geotransform] raises a verification error
    exactly when there are fewer than two longitudes or fewer than two
    latitudes, and raises nothing else; what it returns has six entries,
    the two rotation terms being zero. *)
Theorem raster_geometry2geotransform_domain (longitudes latitudes : list Q) :
  (raster_geometry2geotransform longitudes latitudes = Raise VerificationError
   <-> (length longitudes < 2 \/ length latitudes < 2)%nat) /\
  (forall e, raster_geometry2geotransform longitudes latitudes = Raise e ->
     e = VerificationError) /\
  (forall geotransform,
     raster_geometry2geotransform longitudes latitudes = Ok geotransform ->
     length geotransform = 6%nat /\
     geotransform !! 2%nat = Some 0 /\ geotransform !! 4%nat = Some 0).
Proof.
  destruct (Nat.ltb_spec 1 (length longitudes)) as [Hnx|Hnx].
  - destruct (Nat.ltb_spec 1 (length latitudes)) as [Hny|Hny].
    + destruct (item_long longitudes 0) as (x0 & Hx0 & _); [lia|].
      destruct (item_long longitudes 1) as (x1 & Hx1 & _); [lia|].
      destruct (item_long latitudes 0) as (y0 & Hy0 & _); [lia|].
      destruct (item_long latitudes 1) as (y1 & Hy1 & _); [lia|].
      destruct (geotransform_of_grid _ _ _ _ _ _ Hx0 Hx1 Hy0 Hy1)
        as (yn & _ & ->).
      split; [split; [discriminate | lia]|].
      split; [discriminate|].
      intros gt Hgt. injection Hgt as <-. repeat split.
    + assert (Hr : raster_geometry2geotransform longitudes latitudes
                   = Raise VerificationError).
      { unfold raster_geometry2geotransform, verify.
        destruct (Nat.ltb_spec 1 (length longitudes)); [|lia].
        destruct (Nat.ltb_spec 1 (length latitudes)); [lia | reflexivity]. }
      rewrite Hr. split; [split; [lia | reflexivity]|].
      split; [congruence | discriminate].
  - assert (Hr : raster_geometry2geotransform longitudes latitudes
                 = Raise VerificationError).
    { unfold raster_geometry2geotransform, verify.
      destruct (Nat.ltb_spec 1 (length longitudes)); [lia | reflexivity]. }
    rewrite Hr. split; [split; [lia | reflexivity]|].
    split; [congruence | discriminate].
Qed.

Lemma raster_geometry2geotransform_domain_witness :
  raster_geometry2geotransform [10] [1; 2; 3] = Raise VerificationError /\
  exists geotransform,
    raster_geometry2geotransform [10; 11] [1; 2; 3] = Ok geotransform /\
    length geotransform = 6%nat /\
    geotransform !! 2%nat = Some 0 /\ geotransform !! 4%nat = Some 0.
Proof.
  split.
  - apply (raster_geometry2geotransform_domain [10] [1; 2; 3]).
    left. simpl. lia.
  - eexists. split; [reflexivity|].
    apply (raster_geometry2geotransform_domain [10; 11] [1; 2; 3]).
    reflexivity.
Defined.

Import BoundingBox.

(** X4. For a geotransform of six entries and positive numbers of columns
    and rows, [geotransform2bbox] returns a box that [bbox_intersection]
    accepts (west < east and south < north) when the pixel width is
    positive and the pixel height negative, as for a north-up raster.
    With a pixel height that is not negative the box has north <= south,
    and [bbox_intersection] raises a verification error on it. A
    geotransform of fewer than six entries raises an index error. *)
Theorem geotransform2bbox_orientation (geotransform : list Q) (columns rows : Q) :
  (length geotransform < 6)%nat /\
    geotransform2bbox geotransform columns rows = Raise IndexError \/
  exists x_res y_res bbox,
    geotransform !! 1%nat = Some x_res /\ geotransform !! 5%nat = Some y_res /\
    geotransform2bbox geotransform columns rows = Ok bbox /\
    (0 < columns -> 0 < rows -> 0 < x_res -> y_res < 0 -> valid_box bbox) /\
    (0 < rows -> 0 <= y_res ->
     forall other, bbox_intersection [bbox; other] = Raise VerificationError).
Proof.
  destruct (Nat.lt_ge_cases (length geotransform) 6) as [Hshort|Hlong].
  - left. split; [exact Hshort|]. unfold geotransform2bbox.
    destruct (item geotransform 0) as [x_origin|e] eqn:H0;
      [|unfold item in H0; destruct (geotransform !! 0%nat);
        [discriminate | injection H0 as <-; reflexivity]].
    destruct (item geotransform 3) as [y_origin|e] eqn:H3;
      [|unfold item in H3; destruct (geotransform !! 3%nat);
        [discriminate | injection H3 as <-; reflexivity]].
    destruct (item geotransform 1) as [x_res|e] eqn:H1;
      [|unfold item in H1; destruct (geotransform !! 1%nat);
        [discriminate | injection H1 as <-; reflexivity]].
    rewrite (item_short geotransform 5) by lia. reflexivity.
  - right.
    destruct (item_long geotransform 0) as (x_origin & _ & H0); [lia|].
    destruct (item_long geotransform 3) as (y_origin & _ & H3); [lia|].
    destruct (item_long geotransform 1) as (x_res & Hx & H1); [lia|].
    destruct (item_long geotransform 5) as (y_res & Hy & H5); [lia|].
    exists x_res, y_res. eexists. split; [exact Hx|]. split; [exact Hy|].
    unfold geotransform2bbox. rewrite H0, H3, H1, H5. cbn [bind].
    split; [reflexivity|]. split.
    + intros Hc Hr Hxr Hyr. unfold valid_box. cbn [length nth].
      split; [reflexivity|]. split; nra.
    + intros Hr Hyr other. unfold bbox_intersection, verify.
      cbn [length Nat.ltb Nat.leb].
      rewrite BoundingBoxFacts.intersect_all_invalid; [reflexivity|].
      apply Exists_cons_hd. unfold valid_box. cbn [length nth].
      intros (_ & _ & Hsn). nra.
Qed.

Lemma geotransform2bbox_orientation_witness :
  exists bbox,
    geotransform2bbox [100; 1 # 2; 0; -5; 0; - (1 # 2)] 4 6 = Ok bbox /\
    valid_box bbox.
Proof.
  destruct (geotransform2bbox_orientation [100; 1 # 2; 0; -5; 0; - (1 # 2)] 4 6)
    as [[Hshort _]|(x_res & y_res & bbox & Hx & Hy & Hbox & Hvalid & _)].
  - exfalso. simpl in Hshort. lia.
  - exists bbox. split; [exact Hbox|].
    injection Hx as <-. injection Hy as <-.
    apply Hvalid; reflexivity.
Defined.

End RasterFacts.

(** ** Properties of the buffered box *)

Module BufferFacts.

Import Raster RasterFacts.
Local Open Scope Q_scope.

(** The two numbers that the function takes from a resolution. *)
Definition res_xy (res : resolution) : Q * Q :=
  match res with
  | ResXY rx ry => (rx, ry)
  | Res r => (r, r)
  end.

Lemma buffered_cons (w s e n : Q) (rest : list Q) (res : resolution) :
  buffered_bounding_box (w :: s :: e :: n :: rest) (Some res) =
    Ok ((w - (res_xy res).1) :: (s - (res_xy res).2) ::
        (e + (res_xy res).1) :: (n + (res_xy res).2) :: rest).
Proof. destruct res; reflexivity. Qed.





(** X6. Without a resolution ([None]) the box is returned as it is,
    whatever its length. With a resolution a box of fewer than four
    entries raises an index error, and a box of four entries grows to
    contain the original when the resolution is not negative; a single
    number is used in both directions. *)
Theorem buffered_bounding_box_edges :
  (forall bbox, buffered_bounding_box bbox None = Ok bbox) /\
  (forall bbox res, (length bbox < 4)%nat ->
     buffered_bounding_box bbox (Some res) = Raise IndexError) /\
  (forall bbox r,
     buffered_bounding_box bbox (Some (Res r)) =
     buffered_bounding_box bbox (Some (ResXY r r))) /\
  (forall w s e n res, 0 <= (res_xy res).1 -> 0 <= (res_xy res).2 ->
     exists w' s' e' n',
       buffered_bounding_box [w; s; e; n] (Some res) = Ok [w'; s'; e'; n'] /\
       w' <= w /\ s' <= s /\ e <= e' /\ n <= n').
Proof.
  split; [reflexivity|]. split; [|split; [reflexivity|]].
  - intros bbox res Hlen.
    destruct bbox as [|w [|s [|e [|n rest]]]]; cbn in Hlen; try lia;
      destruct res; reflexivity.
  - intros w s e n res Hx Hy. eexists _, _, _, _.
    rewrite buffered_cons. split; [reflexivity|].
    repeat split; lra.
Qed.

Lemma buffered_bounding_box_edges_witness :
  buffered_bounding_box [0; 0; 10] (Some (Res 1)) = Raise IndexError /\
  exists w' s' e' n',
    buffered_bounding_box [0; 0; 10; 10] (Some (ResXY 1 2)) = Ok [w'; s'; e'; n'] /\
    w' <= 0 /\ s' <= 0 /\ 10 <= e' /\ 10 <= n'.
Proof.
  destruct buffered_bounding_box_edges as (_ & Hshort & _ & Hgrow).
  split.
  - apply Hshort. simpl. lia.
  - apply (Hgrow 0 0 10 10 (ResXY 1 2)); discriminate.
Defined.

End BufferFacts.

(** ** Properties of the minimal box *)

Module MinimalBoxFacts.

Import Raster RasterFacts.
Local Open Scope Q_scope.












End MinimalBoxFacts.

(** ** More on the intersection of boxes *)

Module IntersectionFacts.

Import BoundingBox BoundingBoxFacts.
Local Open Scope Q_scope.

Lemma pymax_ge (a b : Q) : a <= pymax a b /\ b <= pymax a b.
Proof.
  unfold pymax. destruct (qlt a b) eqn:H.
  - apply qlt_true in H. split; [apply Qlt_le_weak, H | apply Qle_refl].
  - apply qlt_false in H. split; [apply Qle_refl | exact H].
Qed.

Lemma pymin_le (a b : Q) : pymin a b <= a /\ pymin a b <= b.
Proof.
  unfold pymin. destruct (qlt b a) eqn:H.
  - apply qlt_true in H. split; [apply Qlt_le_weak, H | apply Qle_refl].
  - apply qlt_false in H. split; [apply Qle_refl | exact H].
Qed.

Lemma fold_pymax_ge (l : list Q) :
  forall a, a <= fold_left pymax l a /\
            forall x, In x l -> x <= fold_left pymax l a.
Proof.
  induction l as [|b l IH]; intros a; cbn [fold_left].
  - split; [apply Qle_refl | intros x []].
  - destruct (IH (pymax a b)) as [H1 H2]. destruct (pymax_ge a b) as [Ha Hb].
    split; [eapply Qle_trans; eassumption|].
    intros x [<-|Hx]; [eapply Qle_trans; eassumption | apply H2, Hx].
Qed.

Lemma fold_pymin_le (l : list Q) :
  forall a, fold_left pymin l a <= a /\
            forall x, In x l -> fold_left pymin l a <= x.
Proof.
  induction l as [|b l IH]; intros a; cbn [fold_left].
  - split; [apply Qle_refl | intros x []].
  - destruct (IH (pymin a b)) as [H1 H2]. destruct (pymin_le a b) as [Ha Hb].
    split; [eapply Qle_trans; eassumption|].
    intros x [<-|Hx]; [eapply Qle_trans; eassumption | apply H2, Hx].
Qed.

Lemma fold_pymax_in (l : list Q) :
  forall a, In (fold_left pymax l a) (a :: l).
Proof.
  induction l as [|b l IH]; intros a; cbn [fold_left]; [left; reflexivity|].
  destruct (IH (pymax a b)) as [H|H]; [|right; right; exact H].
  rewrite <- H. unfold pymax. destruct (qlt a b); [right; left | left]; reflexivity.
Qed.

Lemma fold_pymin_in (l : list Q) :
  forall a, In (fold_left pymin l a) (a :: l).
Proof.
  induction l as [|b l IH]; intros a; cbn [fold_left]; [left; reflexivity|].
  destruct (IH (pymin a b)) as [H|H]; [|right; right; exact H].
  rewrite <- H. unfold pymin. destruct (qlt b a); [right; left | left]; reflexivity.
Qed.

Lemma all_valid_or_not (args : list (list Q)) :
  Forall valid_box args \/ Exists (fun box => ~ valid_box box) args.
Proof.
  induction args as [|box args [IH|IH]].
  - left. constructor.
  - destruct (valid_box_dec box) as [Hv|Hv].
    + left. constructor; assumption.
    + right. apply Exists_cons_hd, Hv.
  - right. apply Exists_cons_tl, IH.
Qed.

(** What the function returns when it returns. *)
Lemma bbox_intersection_returns (args : list (list Q)) (r : option (list Q)) :
  bbox_intersection args = Ok r ->
  (2 <= length args)%nat /\ Forall valid_box args /\
  r = if qlt (nth 0 (bbox_spec args) 0) (nth 2 (bbox_spec args) 0) &&
         qlt (nth 1 (bbox_spec args) 0) (nth 3 (bbox_spec args) 0)
      then Some (bbox_spec args) else None.
Proof.
  unfold bbox_intersection, verify. intros H.
  destruct (Nat.ltb_spec 1 (length args)) as [Hlen|Hlen]; [|discriminate H].
  destruct (all_valid_or_not args) as [Hv|Hv].
  - split; [lia|]. split; [exact Hv|].
    unfold universe in H. rewrite (intersect_all_valid _ Hv) in H.
    fold (bbox_spec args) in H.
    destruct (qlt (nth 0 (bbox_spec args) 0) (nth 2 (bbox_spec args) 0) &&
              qlt (nth 1 (bbox_spec args) 0) (nth 3 (bbox_spec args) 0));
      congruence.
  - rewrite (intersect_all_invalid _ Hv) in H. discriminate H.
Qed.

Lemma column_in (i : nat) (args : list (list Q)) (box : list Q) :
  In box args -> In (nth i box 0) (column i args).
Proof. intros H. unfold column. apply in_map_iff. eauto. Qed.

(** X9. A box returned by [bbox_intersection] has west < east and
    south < north, lies within every box given and within the universal
    box [-180, -90, 180, 90]. *)
Theorem bbox_intersection_within (args : list (list Q)) (r : list Q) :
  bbox_intersection args = Ok (Some r) ->
  valid_box r /\
  (forall box, In box args ->
     nth 0 box 0 <= nth 0 r 0 /\ nth 1 box 0 <= nth 1 r 0 /\
     nth 2 r 0 <= nth 2 box 0 /\ nth 3 r 0 <= nth 3 box 0) /\
  -180 <= nth 0 r 0 /\ -90 <= nth 1 r 0 /\ nth 2 r 0 <= 180 /\ nth 3 r 0 <= 90.
Proof.
  intros H. apply bbox_intersection_returns in H as (_ & _ & Hr).
  destruct (qlt (nth 0 (bbox_spec args) 0) (nth 2 (bbox_spec args) 0)) eqn:Hwe;
    [|discriminate Hr].
  destruct (qlt (nth 1 (bbox_spec args) 0) (nth 3 (bbox_spec args) 0)) eqn:Hsn;
    [|discriminate Hr].
  injection Hr as ->. apply qlt_true in Hwe, Hsn.
  split; [repeat split; assumption|].
  unfold bbox_spec. cbn [nth].
  split;
    [|repeat split;
      first [apply (proj1 (fold_pymax_ge _ _)) | apply (proj1 (fold_pymin_le _ _))]].
  intros box Hin. repeat split;
    first [apply (proj2 (fold_pymax_ge _ _)) | apply (proj2 (fold_pymin_le _ _))];
    apply column_in, Hin.
Qed.

Lemma bbox_intersection_within_witness :
  valid_box [5; 5; 10; 10] /\
  (forall box, In box [[0; 0; 10; 10]; [5; 5; 15; 15]] ->
     nth 0 box 0 <= nth 0 [5; 5; 10; 10] 0 /\ nth 1 box 0 <= nth 1 [5; 5; 10; 10] 0 /\
     nth 2 [5; 5; 10; 10] 0 <= nth 2 box 0 /\ nth 3 [5; 5; 10; 10] 0 <= nth 3 box 0) /\
  -180 <= nth 0 [5; 5; 10; 10] 0 /\ -90 <= nth 1 [5; 5; 10; 10] 0 /\
  nth 2 [5; 5; 10; 10] 0 <= 180 /\ nth 3 [5; 5; 10; 10] 0 <= 90.
Proof.
  apply (bbox_intersection_within [[0; 0; 10; 10]; [5; 5; 15; 15]]).
  reflexivity.
Defined.

(** A point strictly inside a box. *)
Definition inside (x y : Q) (box : list Q) : Prop :=
  nth 0 box 0 < x /\ x < nth 2 box 0 /\ nth 1 box 0 < y /\ y < nth 3 box 0.

Lemma fold_pymax_lt (l : list Q) (a x : Q) :
  fold_left pymax l a < x <-> a < x /\ forall b, In b l -> b < x.
Proof.
  destruct (fold_pymax_ge l a) as [Ha Hl]. split.
  - intros H. split; [eapply Qle_lt_trans; eassumption|].
    intros b Hb. eapply Qle_lt_trans; [apply Hl, Hb | exact H].
  - intros [Hax Hlx]. destruct (fold_pymax_in l a) as [<-|Hin];
      [exact Hax | apply Hlx, Hin].
Qed.

Lemma fold_pymin_gt (l : list Q) (a x : Q) :
  x < fold_left pymin l a <-> x < a /\ forall b, In b l -> x < b.
Proof.
  destruct (fold_pymin_le l a) as [Ha Hl]. split.
  - intros H. split; [eapply Qlt_le_trans; eassumption|].
    intros b Hb. eapply Qlt_le_trans; [exact H | apply Hl, Hb].
  - intros [Hax Hlx]. destruct (fold_pymin_in l a) as [<-|Hin];
      [exact Hax | apply Hlx, Hin].
Qed.

Lemma in_column (i : nat) (args : list (list Q)) (b : Q) :
  In b (column i args) -> exists box, In box args /\ b = nth i box 0.
Proof.
  unfold column. intros H. apply in_map_iff in H as (box & <- & Hin). eauto.
Qed.

Lemma inside_spec (args : list (list Q)) (x y : Q) :
  inside x y (bbox_spec args) <->
  inside x y universe /\ forall box, In box args -> inside x y box.
Proof.
  unfold inside, bbox_spec, universe. cbn [nth].
  rewrite !fold_pymax_lt, !fold_pymin_gt. split.
  - intros ((Hw & Hws) & (He & Hes) & (Hs & Hss) & (Hn & Hns)).
    split; [tauto|]. intros box Hin.
    repeat split; [apply Hws | apply Hes | apply Hss | apply Hns];
      apply column_in, Hin.
  - intros ((Hw & He & Hs & Hn) & Hall).
    repeat split; try assumption; intros b Hb;
      apply in_column in Hb as (box & Hin & ->); apply (Hall box Hin).
Qed.

(** X10. The box returned by [bbox_intersection] is the intersection: a
    point is strictly inside it exactly when it is strictly inside the
    universal box and every box given. When [None] is returned no point
    is strictly inside all of them. *)
Theorem bbox_intersection_points (args : list (list Q)) (r : option (list Q))
    (x y : Q) :
  bbox_intersection args = Ok r ->
  (match r with Some box => inside x y box | None => False end <->
   inside x y universe /\ forall box, In box args -> inside x y box).
Proof.
  intros H. apply bbox_intersection_returns in H as (_ & _ & ->).
  rewrite <- inside_spec.
  destruct (qlt (nth 0 (bbox_spec args) 0) (nth 2 (bbox_spec args) 0)) eqn:Hwe;
    [destruct (qlt (nth 1 (bbox_spec args) 0) (nth 3 (bbox_spec args) 0)) eqn:Hsn|];
    cbn [andb]; [reflexivity | |].
  - apply qlt_false in Hsn. split; [intros []|].
    intros (_ & _ & Hs & Hn). apply (Qlt_not_le _ _ (Qlt_trans _ _ _ Hs Hn) Hsn).
  - apply qlt_false in Hwe. split; [intros []|].
    intros (Hw & He & _). apply (Qlt_not_le _ _ (Qlt_trans _ _ _ Hw He) Hwe).
Qed.

Lemma bbox_intersection_points_witness :
  (inside 7 8 [5; 5; 10; 10] <->
   inside 7 8 universe /\
   forall box, In box [[0; 0; 10; 10]; [5; 5; 15; 15]] -> inside 7 8 box) /\
  (False <->
   inside 7 8 universe /\
   forall box, In box [[0; 0; 1; 1]; [2; 2; 3; 3]] -> inside 7 8 box).
Proof.
  split.
  - apply (bbox_intersection_points [[0; 0; 10; 10]; [5; 5; 15; 15]]
             (Some [5; 5; 10; 10])).
    reflexivity.
  - apply (bbox_intersection_points [[0; 0; 1; 1]; [2; 2; 3; 3]] None).
    reflexivity.
Defined.

(** Two answers are the same when they raise alike, are both [None], or
    are boxes with equal coordinates. *)
Definition same_answer (r1 r2 : result (option (list Q))) : Prop :=
  match r1, r2 with
  | Ok (Some b1), Ok (Some b2) => Forall2 Qeq b1 b2
  | Ok None, Ok None => True
  | Raise e1, Raise e2 => e1 = e2
  | _, _ => False
  end.

Lemma fold_pymax_perm (l l' : list Q) (a : Q) :
  l ≡ₚ l' -> fold_left pymax l a == fold_left pymax l' a.
Proof.
  intros Hp.
  assert (Hle : forall l l', l ≡ₚ l' ->
            fold_left pymax l a <= fold_left pymax l' a).
  { clear. intros l l' Hp.
    destruct (fold_pymax_ge l' a) as [Ha Hl].
    destruct (fold_pymax_in l a) as [<-|Hin]; [exact Ha|].
    apply Hl. eapply Permutation_in; eassumption. }
  apply Qle_antisym; apply Hle; [exact Hp | symmetry; exact Hp].
Qed.

Lemma fold_pymin_perm (l l' : list Q) (a : Q) :
  l ≡ₚ l' -> fold_left pymin l a == fold_left pymin l' a.
Proof.
  intros Hp.
  assert (Hle : forall l l', l ≡ₚ l' ->
            fold_left pymin l a <= fold_left pymin l' a).
  { clear. intros l l' Hp.
    destruct (fold_pymin_le l a) as [Ha Hl].
    destruct (fold_pymin_in l' a) as [<-|Hin]; [exact Ha|].
    apply Hl. eapply Permutation_in; [symmetry|]; eassumption. }
  apply Qle_antisym; apply Hle; [exact Hp | symmetry; exact Hp].
Qed.

Lemma qlt_eq (a b a' b' : Q) : a == a' -> b == b' -> qlt a b = qlt a' b'.
Proof.
  intros Ha Hb. destruct (qlt a' b') eqn:H.
  - apply qlt_true. apply qlt_true in H. rewrite Ha, Hb. exact H.
  - apply qlt_false. apply qlt_false in H. rewrite Ha, Hb. exact H.
Qed.

(** X11. The answer of [bbox_intersection] does not depend on the order
    of the boxes: for a rearrangement of the arguments it raises the
    same error, or returns [None] again, or a box with equal
    coordinates. *)
Theorem bbox_intersection_order (args args' : list (list Q)) :
  args ≡ₚ args' ->
  same_answer (bbox_intersection args) (bbox_intersection args').
Proof.
  intros Hp. pose proof (Permutation_length Hp) as Hlen.
  unfold bbox_intersection, verify. rewrite <- Hlen.
  destruct (Nat.ltb 1 (length args)); [|reflexivity].
  destruct (all_valid_or_not args) as [Hv|Hv].
  - assert (Hv' : Forall valid_box args') by (rewrite <- Hp; exact Hv).
    unfold universe.
    rewrite (intersect_all_valid _ Hv), (intersect_all_valid _ Hv').
    fold (bbox_spec args). fold (bbox_spec args').
    assert (Hc : forall i, column i args ≡ₚ column i args')
      by (intros i; unfold column; rewrite Hp; reflexivity).
    assert (H0 : nth 0 (bbox_spec args) 0 == nth 0 (bbox_spec args') 0)
      by (apply fold_pymax_perm, Hc).
    assert (H1 : nth 1 (bbox_spec args) 0 == nth 1 (bbox_spec args') 0)
      by (apply fold_pymax_perm, Hc).
    assert (H2 : nth 2 (bbox_spec args) 0 == nth 2 (bbox_spec args') 0)
      by (apply fold_pymin_perm, Hc).
    assert (H3 : nth 3 (bbox_spec args) 0 == nth 3 (bbox_spec args') 0)
      by (apply fold_pymin_perm, Hc).
    rewrite (qlt_eq _ _ _ _ H0 H2), (qlt_eq _ _ _ _ H1 H3).
    destruct (qlt (nth 0 (bbox_spec args') 0) (nth 2 (bbox_spec args') 0) &&
              qlt (nth 1 (bbox_spec args') 0) (nth 3 (bbox_spec args') 0));
      [|exact I].
    cbn [same_answer]. unfold bbox_spec in *. cbn [nth] in *.
    repeat (constructor; [assumption|]). constructor.
  - assert (Hv' : Exists (fun box => ~ valid_box box) args')
      by (rewrite <- Hp; exact Hv).
    rewrite (intersect_all_invalid _ Hv), (intersect_all_invalid _ Hv').
    reflexivity.
Qed.

Lemma bbox_intersection_order_witness :
  same_answer (bbox_intersection [[0; 0; 10; 10]; [5; 5; 15; 15]])
              (bbox_intersection [[5; 5; 15; 15]; [0; 0; 10; 10]]).
Proof.
  apply bbox_intersection_order. apply perm_swap.
Defined.

End IntersectionFacts.

(** ** More on the resampling of a segment *)

Module SegmentFacts.

Import Resample ResampleFacts.
Local Open Scope R_scope.

Lemma py_int_small (x : R) : x < 1 -> (py_int x <= 0)%Z.
Proof.
  intros Hx. unfold py_int. destruct (Rle_dec 0 x) as [H0|H0].
  - rewrite (Zfloor_eq 0); [lia | lra].
  - pose proof (Zceil_bound x) as [Hlo _].
    assert (H : IZR (Zceil x) < 1) by lra.
    apply lt_IZR in H. lia.
Qed.

(** X16. A zero [delta] raises a zero division error whatever the
    points. A negative [delta], or one that is longer than the segment,
    gives the first point alone. *)
Theorem points_between_points_edges (p1 p2 : point) (delta : R) :
  (delta = 0 -> points_between_points p1 p2 delta = Raise ZeroDivisionError) /\
  (delta < 0 \/ segment_length p1 p2 < delta ->
   points_between_points p1 p2 delta = Ok [p1]).
Proof.
  unfold points_between_points. split.
  - intros H. destruct (Req_dec_T delta 0); [reflexivity | contradiction].
  - intros H. pose proof (segment_length_nonneg p1 p2) as HL.
    destruct (Req_dec_T delta 0) as [H0|H0]; [lra|].
    assert (Hsmall : segment_length p1 p2 / delta < 1).
    { assert (Hq : segment_length p1 p2 / delta * delta = segment_length p1 p2)
        by (field; lra).
      set (q := segment_length p1 p2 / delta) in *.
      destruct (Rlt_le_dec q 1) as [Hlt|Hge]; [exact Hlt | exfalso].
      destruct H as [H|H]; nra. }
    apply py_int_small in Hsmall.
    replace (Z.to_nat (py_int (segment_length p1 p2 / delta))) with 0%nat by lia.
    reflexivity.
Qed.

Lemma points_between_points_edges_witness :
  points_between_points (1, 2) (4, 6) 0 = Raise ZeroDivisionError /\
  points_between_points (1, 2) (4, 6) (-1) = Ok [(1, 2)].
Proof.
  split.
  - apply (points_between_points_edges (1, 2) (4, 6) 0). reflexivity.
  - apply (points_between_points_edges (1, 2) (4, 6) (-1)). left. lra.
Defined.









End SegmentFacts.

(** ** Properties of the resampling of a line *)

Module PolylineFacts.

Import Resample ResampleFacts SegmentFacts Polyline.
Local Open Scope R_scope.

(** X18. A line of no point or of one point gives no points at all,
    whatever [delta] is; a line of two points gives what
    [points_between_points] gives for them, errors included; and a zero
    [delta] raises a zero division error on every line of two points or
    more. *)
Theorem points_along_line_edges :
  (forall delta, points_along_line [] delta = Ok []) /\
  (forall p delta, points_along_line [p] delta = Ok []) /\
  (forall p q delta,
     points_along_line [p; q] delta = points_between_points p q delta) /\
  (forall p q rest,
     points_along_line (p :: q :: rest) 0 = Raise ZeroDivisionError).
Proof.
  split; [reflexivity|]. split; [reflexivity|]. split.
  - intros p q delta. unfold points_along_line. cbn [segments].
    destruct (points_between_points p q delta) as [pts|e]; reflexivity.
  - intros p q rest. unfold points_along_line. cbn [segments].
    unfold points_between_points.
    destruct (Req_dec_T 0 0) as [_|H]; [reflexivity | contradiction].
Qed.









End PolylineFacts.

(** ** What the reader returns *)

Module ReaderFacts.

Import KeywordStore KeywordStoreFacts KeywordWriterFacts.

Lemma lstrip_split (s : str) : exists w, s = w ++ lstrip s /\ spaces w.
Proof.
  induction s as [|c s (w & Hs & Hw)]; [exists []; split; [reflexivity | constructor]|].
  cbn [lstrip]. destruct (is_space c) eqn:Hc.
  - exists (c :: w). split; [cbn [app]; f_equal; exact Hs|].
    constructor; assumption.
  - exists []. split; [reflexivity | constructor].
Qed.

Lemma lstrip_head (s : str) :
  lstrip s = [] \/ exists c r, lstrip s = c :: r /\ is_space c = false.
Proof.
  induction s as [|c s IH]; [left; reflexivity|].
  cbn [lstrip]. destruct (is_space c) eqn:Hc; [exact IH|].
  right. eauto.
Qed.

Lemma rstrip_split (s : str) : exists w, s = rstrip s ++ w /\ spaces w.
Proof.
  destruct (lstrip_split (rev s)) as (w & Hs & Hw).
  exists (rev w). split; [|apply spaces_rev, Hw].
  unfold rstrip. rewrite <- rev_app_distr, <- Hs, rev_involutive. reflexivity.
Qed.

Lemma rstrip_last (s : str) :
  rstrip s = [] \/ exists r c, rstrip s = r ++ [c] /\ is_space c = false.
Proof.
  unfold rstrip. destruct (lstrip_head (rev s)) as [->|(c & r & -> & Hc)].
  - left. reflexivity.
  - right. exists (rev r), c. split; [reflexivity | exact Hc].
Qed.

Lemma rstrip_idem (s : str) : rstrip (rstrip s) = rstrip s.
Proof.
  destruct (rstrip_last s) as [->|(r & c & -> & Hc)]; [reflexivity|].
  apply (rstrip_nonspace r c [] Hc). constructor.
Qed.

Lemma rstrip_keeps_head (c : ascii) (r : str) :
  is_space c = false -> exists r', rstrip (c :: r) = c :: r'.
Proof.
  intros Hc. destruct (rstrip_split r) as (w & Hr & Hw).
  destruct (rstrip_last r) as [He|(r' & d & He & Hd)]; rewrite He in Hr.
  - exists []. rewrite Hr. apply (rstrip_nonspace [] c w Hc Hw).
  - exists (r' ++ [d]). rewrite Hr, <- app_assoc. cbn [app].
    apply (rstrip_nonspace (c :: r') d w Hd Hw).
Qed.

Lemma strip_fixed (s : str) :
  lstrip (strip s) = strip s /\ rstrip (strip s) = strip s.
Proof.
  unfold strip. split; [|apply rstrip_idem].
  destruct (lstrip_head s) as [->|(c & r & -> & Hc)]; [reflexivity|].
  destruct (rstrip_keeps_head c r Hc) as (r' & ->).
  cbn [lstrip]. rewrite Hc. reflexivity.
Qed.

Lemma no_char_app (c : ascii) (s t : str) :
  no_char c (s ++ t) <-> no_char c s /\ no_char c t.
Proof. unfold no_char. rewrite in_app_iff. tauto. Qed.

Lemma no_char_lstrip (c : ascii) (s : str) : no_char c s -> no_char c (lstrip s).
Proof.
  destruct (lstrip_split s) as (w & Hs & _). rewrite Hs at 1.
  rewrite no_char_app. tauto.
Qed.

Lemma no_char_rstrip (c : ascii) (s : str) : no_char c s -> no_char c (rstrip s).
Proof.
  destruct (rstrip_split s) as (w & Hs & _). rewrite Hs at 1.
  rewrite no_char_app. tauto.
Qed.

Lemma no_char_strip (c : ascii) (s : str) : no_char c s -> no_char c (strip s).
Proof. intros H. apply no_char_rstrip, no_char_lstrip, H. Qed.

Lemma find_none (c : ascii) (s : str) : find c s = None -> no_char c s.
Proof.
  unfold no_char. induction s as [|x s IH]; intros H; [intros []|].
  cbn [find] in H. destruct (Ascii.eqb_spec x c) as [->|Hx]; [discriminate H|].
  destruct (find c s); [discriminate H|].
  intros [Heq|Hin]; [contradiction | exact (IH eq_refl Hin)].
Qed.

Lemma find_some (c : ascii) (s : str) (idx : nat) :
  find c s = Some idx ->
  no_char c (take idx s) /\ s = take idx s ++ c :: drop (S idx) s.
Proof.
  unfold no_char. revert idx. induction s as [|x s IH]; intros idx H;
    [discriminate H|].
  cbn [find] in H. destruct (Ascii.eqb_spec x c) as [->|Hx].
  - injection H as <-. split; [intros [] | reflexivity].
  - destruct (find c s) as [i|] eqn:Hi; [|discriminate H].
    injection H as <-. destruct (IH i eq_refl) as [Hno Hs].
    split.
    + cbn [take]. intros [Heq|Hin]; [contradiction | exact (Hno Hin)].
    + cbn [take drop app]. f_equal. exact Hs.
Qed.

Lemma last_space (w : str) (d : ascii) :
  spaces w -> last w = Some d -> is_space d = true.
Proof.
  intros Hw Hd. apply last_Some in Hd as (w' & ->).
  apply Forall_app in Hw as [_ Hd]. inversion Hd; assumption.
Qed.

(** The value of a data line does not end the line with a bracket that
    the line itself does not end with. *)
Lemma last_of_value (text pre suffix : str) (d : ascii) :
  rstrip text = text -> text = pre ++ suffix ->
  last (strip suffix) = Some d -> last text = Some d.
Proof.
  intros Hfix Htext Hd.
  destruct (lstrip_split suffix) as (w0 & Hs0 & _).
  destruct (rstrip_split (lstrip suffix)) as (w & Hs & Hw).
  fold (strip suffix) in Hs.
  assert (Hend : last text = match last w with Some y => Some y | None => Some d end).
  { rewrite Htext, Hs0, Hs, !last_app, Hd. destruct (last w); reflexivity. }
  destruct (last w) as [y|] eqn:Hy; [|exact Hend].
  exfalso. pose proof (last_space w y Hw Hy) as Hsp.
  destruct (rstrip_fixed text Hfix) as [->|(t' & c & Ht & Hc)];
    [discriminate Hend|].
  rewrite Ht, last_snoc in Hend. congruence.
Qed.

Lemma tidy_none_text : forall key,
  no_char ":"%char key -> no_char nl key -> tidy key (lit "None").
Proof.
  intros key Hc Hn. split; [exact Hc|]. split; [exact Hn|].
  split; [intros H; cbn in H; intuition discriminate|].
  split; [reflexivity|]. split; [reflexivity|].
  intros [_ H]. discriminate H.
Qed.

Lemma parse_entry_tidy (text : str) :
  rstrip text = text -> no_char nl text -> block_flag text = false ->
  tidy_entry (parse_entry text).
Proof.
  intros Hfix Hnl Hflag. unfold parse_entry, tidy_entry.
  destruct (find ":" text) as [idx|] eqn:Hfind.
  - destruct (find_some _ _ _ Hfind) as [Hno Htext].
    exists (take idx text), (strip (drop (S idx) text)).
    split; [reflexivity|]. split; [reflexivity|].
    assert (Hparts : no_char nl (take idx text) /\
                     no_char nl (":"%char :: drop (S idx) text)).
    { apply no_char_app. rewrite <- Htext. exact Hnl. }
    destruct Hparts as [Hk Hv].
    assert (Hv' : no_char nl (drop (S idx) text))
      by (intros Hin; apply Hv; right; exact Hin).
    destruct (strip_fixed (drop (S idx) text)) as [Hl Hr].
    split; [exact Hno|]. split; [exact Hk|].
    split; [apply no_char_strip, Hv'|]. split; [exact Hl|]. split; [exact Hr|].
    intros [Hhead Hlast].
    assert (Hend : last text = Some "]"%char).
    { apply (last_of_value text (take idx text ++ [":"%char])
               (drop (S idx) text)); [exact Hfix | | exact Hlast].
      rewrite <- app_assoc. exact Htext. }
    destruct (take idx text) as [|c k] eqn:Hkey; [discriminate Hhead|].
    injection Hhead as ->. rewrite Htext in Hflag, Hend.
    cbn [app block_flag] in Hflag. cbn [app] in Hend.
    rewrite last_cons in Hend.
    destruct (last (k ++ ":"%char :: drop (S idx) text)) as [d|] eqn:Hd.
    + injection Hend as ->. discriminate Hflag.
    + apply last_None in Hd. destruct k; discriminate Hd.
  - exists (strip text), (lit "None").
    split; [reflexivity|]. split; [reflexivity|].
    apply tidy_none_text; apply no_char_strip; [apply find_none, Hfind | exact Hnl].
Qed.

Lemma lstrip_app_spaces (w s : str) : spaces w -> lstrip (w ++ s) = lstrip s.
Proof.
  induction 1 as [|x w Hx _ IH]; [reflexivity|].
  cbn [app lstrip]. rewrite Hx. exact IH.
Qed.

Lemma rstrip_app_spaces (s w : str) : spaces w -> rstrip (s ++ w) = rstrip s.
Proof.
  intros Hw. unfold rstrip. rewrite rev_app_distr.
  rewrite lstrip_app_spaces by (apply spaces_rev, Hw). reflexivity.
Qed.

(** A line handed out by [readlines] has no newline except at its end. *)
Definition one_line (line : str) : Prop :=
  exists t, no_char nl t /\ (line = t ++ [nl] \/ line = t).

Lemma readlines_one_line (content : str) : Forall one_line (readlines content).
Proof.
  induction content as [|c s IH]; [constructor|].
  cbn [readlines]. destruct (Ascii.eqb_spec c nl) as [->|Hc].
  - constructor; [|exact IH]. exists []. split; [intros []|left; reflexivity].
  - destruct (readlines s) as [|l ls].
    + constructor; [|constructor]. exists [c]. split; [|right; reflexivity].
      intros [H|[]]. congruence.
    + inversion IH as [|? ? (t & Ht & Hl) Hls]; subst.
      constructor; [|exact Hls]. exists (c :: t). split.
      * intros [H|H]; [congruence | exact (Ht H)].
      * destruct Hl as [->| ->]; [left | right]; reflexivity.
Qed.

Lemma one_line_text (line : str) : one_line line -> no_char nl (rstrip line).
Proof.
  intros (t & Ht & [->| ->]).
  - rewrite rstrip_app_spaces by (repeat constructor).
    apply no_char_rstrip, Ht.
  - apply no_char_rstrip, Ht.
Qed.

Lemma classify_data_tidy (line : str) (key : pykey) (val : pyval) :
  one_line line -> classify line = Data key val -> tidy_entry (key, val).
Proof.
  intros Hline. apply one_line_text in Hline. unfold classify.
  pose proof (rstrip_idem line) as Hfix.
  destruct (rstrip line) as [|c text] eqn:Htext; [discriminate|].
  destruct (block_flag (c :: text)) eqn:Hflag; [discriminate|].
  intros H. injection H as <- <-.
  rewrite <- surjective_pairing.
  apply parse_entry_tidy; assumption.
Qed.

Lemma classify_header_name (line name : str) :
  one_line line -> classify line = Header name -> no_char nl name.
Proof.
  intros Hline. apply one_line_text in Hline. unfold classify.
  destruct (rstrip line) as [|c text] eqn:Htext; [discriminate|].
  destruct (block_flag (c :: text)); [|discriminate].
  intros H. injection H as <-. unfold inner. cbn [tail].
  intros Hin. apply Hline. right.
  clear -Hin. induction text as [|x [|y text] IH]; [destruct Hin | destruct Hin |].
  change (removelast (x :: y :: text)) with (x :: removelast (y :: text)) in Hin.
  destruct Hin as [->|Hin]; [left; reflexivity | right; apply IH, Hin].
Qed.

Lemma add_lines_tidy (g : list str) :
  Forall one_line g ->
  forall d : kwdict, tidy_keywords d -> tidy_keywords (fold_left add_line g d).
Proof.
  induction 1 as [|line g Hline _ IH]; intros d Hd; [exact Hd|].
  cbn [fold_left]. apply IH. unfold add_line.
  destruct (classify line) as [|name|key val] eqn:Hk; try exact Hd.
  intros k v Hkv. destruct (decide (k = key)) as [->|Hne].
  - rewrite lookup_insert_eq in Hkv. injection Hkv as <-.
    exact (classify_data_tidy line key val Hline Hk).
  - rewrite lookup_insert_ne in Hkv by congruence. exact (Hd k v Hkv).
Qed.

Lemma group_dict_tidy (g : list str) :
  Forall one_line g -> tidy_keywords (group_dict g).
Proof.
  intros Hg. apply add_lines_tidy; [exact Hg|]. intros k v H.
  rewrite lookup_empty in H. discriminate H.
Qed.

(** A group of lines of a file, under the name of a header of the file. *)
Definition good_group (ng : option str * list str) : Prop :=
  match ng.1 with Some name => no_char nl name | None => True end /\
  Forall one_line ng.2.

Lemma groups_from_good (ls : list str) :
  Forall one_line ls ->
  forall (cur : option str) (acc : list str),
    good_group (cur, acc) -> Forall good_group (groups_from cur acc ls).
Proof.
  induction 1 as [|l ls Hl _ IH]; intros cur acc Hg; cbn [groups_from].
  - constructor; [exact Hg | constructor].
  - destruct (classify l) as [|name|key val] eqn:Hk.
    + apply IH. destruct Hg as [Hn Hacc]. split; [exact Hn|].
      cbn [snd] in *. apply Forall_app. split; [exact Hacc|].
      constructor; [exact Hl | constructor].
    + constructor; [exact Hg|]. apply IH. split; [|constructor].
      exact (classify_header_name l name Hl Hk).
    + apply IH. destruct Hg as [Hn Hacc]. split; [exact Hn|].
      cbn [snd] in *. apply Forall_app. split; [exact Hacc|].
      constructor; [exact Hl | constructor].
Qed.

Lemma groups_good (content : str) : Forall good_group (groups content).
Proof.
  apply groups_from_good; [apply readlines_one_line|].
  split; [exact I | constructor].
Qed.

Lemma record_good (G : list (option str * list str)) :
  Forall good_group G ->
  forall B : blockmap,
    (forall name d, B !! name = Some d -> good_block (name, d)) ->
    forall name d, fold_left record G B !! name = Some d -> good_block (name, d).
Proof.
  induction 1 as [|[n g] G Hg _ IH]; intros B HB; [exact HB|].
  cbn [fold_left]. apply IH. unfold record. cbn [fst snd].
  destruct n as [b|]; [|exact HB].
  destruct (nonempty (group_dict g)) eqn:Hne; [|exact HB].
  intros name d Hd. destruct (decide (name = b)) as [->|Hnb].
  - rewrite lookup_insert_eq in Hd. injection Hd as <-.
    destruct Hg as [Hn Hl]. cbn [fst snd] in *.
    split; [exact Hn|]. split; [apply group_dict_tidy, Hl|].
    apply nonempty_true, Hne.
  - rewrite lookup_insert_ne in Hd by congruence. exact (HB name d Hd).
Qed.

Lemma parsed_blocks_good (content name : str) (d : kwdict) :
  blocks (parse content) !! name = Some d -> good_block (name, d).
Proof.
  destruct (parse_groups content) as [-> _].
  apply record_good; [apply groups_good|].
  intros n d' H. rewrite lookup_empty in H. discriminate H.
Qed.

Lemma first_group_tidy (G : list (option str * list str)) :
  Forall good_group G -> tidy_keywords (first_group G).
Proof.
  induction 1 as [|[n g] G Hg _ IH]; cbn [first_group].
  - intros k v H. rewrite lookup_empty in H. discriminate H.
  - destruct (nonempty (group_dict g)); [|exact IH].
    apply group_dict_tidy, Hg.
Qed.

Lemma existing_good (fs : filesystem) (filename name : str) (d : kwdict) :
  existing fs filename !! name = Some d -> good_block (name, d).
Proof.
  unfold existing. destruct (fs !! filename) as [content|].
  - apply parsed_blocks_good.
  - intros H. rewrite lookup_empty in H. discriminate H.
Qed.

(** X20. Whatever the file holds, what [read_keywords] returns can be
    written back: every key is a string without colon or newline, every
    value is [None] or a string without newline or surrounding
    whitespace, and no entry would be written as a line that reads as a
    header. A block of the dictionary of all blocks is never empty and
    its name has no newline, and [None] is returned only when a named
    sublayer was asked for. *)
Theorem read_keywords_returns_tidy (fs : filesystem) (filename : str)
    (sublayer : option str) (all_blocks : bool) (r : pyret) :
  read_keywords fs filename sublayer all_blocks = Ok r ->
  match r with
  | RBlocks B =>
      forall name d, B !! name = Some d ->
        no_char nl name /\ tidy_keywords d /\ d <> ∅
  | RKeywords d =>
      tidy_keywords d /\
      (forall k v, d !! k = Some v -> v = VNone \/ exists s, v = VStr s)
  | RNone => all_blocks = false /\ sublayer <> None
  end.
Proof.
  unfold read_keywords, verify.
  destruct (bool_decide _); [|discriminate].
  destruct (fs !! filename) as [content|] eqn:Hfile.
  2:{ intros H. injection H as <-. destruct all_blocks.
      - intros name d H. rewrite lookup_empty in H. discriminate H.
      - split; intros k v H; rewrite lookup_empty in H; discriminate H. }
  assert (Hvals : forall g k v, group_dict g !! k = Some v ->
            v = VNone \/ exists s, v = VStr s).
  { intros g. unfold group_dict.
    assert (Hgen : forall d : kwdict,
      (forall k v, d !! k = Some v -> v = VNone \/ exists s, v = VStr s) ->
      forall k v, fold_left add_line g d !! k = Some v ->
        v = VNone \/ exists s, v = VStr s).
    { induction g as [|line g IH]; intros d Hd; [exact Hd|].
      cbn [fold_left]. apply IH. unfold add_line, classify.
      destruct (rstrip line) as [|c text]; [exact Hd|].
      destruct (block_flag (c :: text)); [exact Hd|].
      intros k v Hkv.
      destruct (decide (k = (parse_entry (c :: text)).1)) as [->|Hne].
      - rewrite lookup_insert_eq in Hkv. injection Hkv as <-.
        unfold parse_entry. destruct (find ":" (c :: text)); cbn [snd]; eauto.
      - rewrite lookup_insert_ne in Hkv by congruence. exact (Hd k v Hkv). }
    apply Hgen. intros k v H. rewrite lookup_empty in H. discriminate H. }
  destruct all_blocks.
  - intros H. injection H as <-. intros name d Hd.
    exact (parsed_blocks_good content name d Hd).
  - destruct sublayer as [name|].
    + destruct (blocks (parse content) !! name) as [d|] eqn:Hd;
        intros H; injection H as <-.
      * destruct (parsed_blocks_good content name d Hd) as (_ & Ht & _).
        split; [exact Ht|].
        destruct (parse_groups content) as [Hb _]. rewrite Hb in Hd.
        apply record_in in Hd as [Hd|(g & _ & ->)];
          [rewrite lookup_empty in Hd; discriminate Hd | apply Hvals].
      * split; [reflexivity | discriminate].
    + destruct (parse_groups content) as [_ ->].
      intros H. injection H as <-.
      split; [apply first_group_tidy, groups_good|].
      assert (HG : forall G, first_group G = ∅ \/ exists g, first_group G = group_dict g).
      { induction G as [|[n g] G IH]; [left; reflexivity|].
        cbn [first_group]. destruct (nonempty (group_dict g)); [right; eauto | exact IH]. }
      destruct (HG (groups content)) as [->|(g & ->)]; [|apply Hvals].
      intros k v H. rewrite lookup_empty in H. discriminate H.
Qed.

Lemma read_keywords_returns_tidy_witness :
  tidy_keywords {[KStr (lit "a") := VStr (lit "1")]} /\
  (forall k v, ({[KStr (lit "a") := VStr (lit "1")]} : kwdict) !! k = Some v ->
     v = VNone \/ exists s, v = VStr s).
Proof.
  apply (read_keywords_returns_tidy {[file1 := orphan_then_block]} file1
           None false (RKeywords {[KStr (lit "a") := VStr (lit "1")]})).
  vm_compute. reflexivity.
Defined.

(** *** Lines that do not matter *)

Lemma parse_unlines (ts : list str) :
  Forall (no_char nl) ts ->
  parse (unlines ts) = finish (fold_left step_kind (kinds ts) init).
Proof. intros H. unfold parse. rewrite (run_unlines ts init H). reflexivity. Qed.

Lemma read_parse (fs : filesystem) (filename text text' : str)
    (sublayer : option str) (all_blocks : bool) :
  parse text = parse text' ->
  read_keywords (<[filename := text]> fs) filename sublayer all_blocks =
  read_keywords (<[filename := text']> fs) filename sublayer all_blocks.
Proof.
  intros H. unfold read_keywords. rewrite !lookup_insert_eq, H. reflexivity.
Qed.

Lemma classify_spaces (w : str) : spaces w -> classify (w ++ [nl]) = Blank.
Proof.
  intros Hw. unfold classify. rewrite rstrip_spaces; [reflexivity|].
  apply Forall_app. split; [exact Hw | repeat constructor].
Qed.

(** X21. Blank lines are ignored: a line of nothing but whitespace, put
    anywhere between the lines of a file, changes nothing of what
    [read_keywords] returns, whatever is asked for. *)
Theorem blank_line_ignored (fs : filesystem) (filename : str)
    (before after : list str) (w : str)
    (sublayer : option str) (all_blocks : bool) :
  Forall (no_char nl) before -> Forall (no_char nl) after ->
  no_char nl w -> spaces w ->
  read_keywords (<[filename := unlines (before ++ [w] ++ after)]> fs)
    filename sublayer all_blocks =
  read_keywords (<[filename := unlines (before ++ after)]> fs)
    filename sublayer all_blocks.
Proof.
  intros Hb Ha Hn Hw. apply read_parse.
  rewrite !parse_unlines
    by (repeat (apply Forall_app; split); try assumption;
        repeat constructor; assumption).
  rewrite !kinds_app, !fold_left_app. cbn [kinds map fold_left].
  rewrite (classify_spaces w Hw). reflexivity.
Qed.

Lemma blank_line_ignored_witness :
  read_keywords
    (<[file1 := unlines ([lit "[x]"; lit "a: 1"] ++ [lit "   "] ++ [lit "b: 2"])]> ∅)
    file1 (Some (lit "x")) false =
  read_keywords
    (<[file1 := unlines ([lit "[x]"; lit "a: 1"] ++ [lit "b: 2"])]> ∅)
    file1 (Some (lit "x")) false.
Proof.
  apply blank_line_ignored.
  - repeat constructor; not_in.
  - repeat constructor; not_in.
  - not_in.
  - repeat constructor.
Defined.

Lemma no_nl_cons (c : ascii) (s : str) : c <> nl -> no_char nl s -> no_char nl (c :: s).
Proof. intros Hc Hs [H|H]; [congruence | exact (Hs H)]. Qed.

(** A data line with whitespace around its value. *)
Definition padded (key w1 v w2 : str) : str := key ++ ":"%char :: w1 ++ v ++ w2.

Lemma strip_padded (w1 v w2 : str) :
  spaces w1 -> spaces w2 -> lstrip v = v -> rstrip v = v ->
  strip (w1 ++ v ++ w2) = v.
Proof.
  intros H1 H2 Hl Hr. unfold strip.
  rewrite lstrip_app_spaces by exact H1.
  destruct (rstrip_fixed v Hr) as [->|(v' & c & -> & Hc)].
  - cbn [app]. rewrite lstrip_spaces by exact H2. reflexivity.
  - assert (Hv : lstrip ((v' ++ [c]) ++ w2) = (v' ++ [c]) ++ w2).
    { destruct v' as [|x v'].
      - cbn [app lstrip]. rewrite Hc. reflexivity.
      - cbn [app lstrip] in *. destruct (is_space x) eqn:Hx; [|reflexivity].
        exfalso. apply (f_equal (@length _)) in Hl.
        destruct (lstrip_split (v' ++ [c])) as (w & Hs & _).
        apply (f_equal (@length _)) in Hs. rewrite (length_app w) in Hs.
        cbn [length] in Hl. lia. }
    rewrite Hv, <- app_assoc. cbn [app].
    apply (rstrip_nonspace v' c w2 Hc H2).
Qed.

Lemma classify_padded (key w1 v w2 : str) :
  tidy key v -> spaces w1 -> spaces w2 ->
  classify (padded key w1 v w2 ++ [nl]) = Data (KStr key) (VStr v).
Proof.
  intros (Hcolon & _ & _ & Hl & Hr & Hhead) H1 H2. unfold classify, padded.
  assert (Htext : rstrip ((key ++ ":"%char :: w1 ++ v ++ w2) ++ [nl]) =
                  key ++ ":"%char :: match v with [] => [] | _ => w1 ++ v end).
  { destruct (rstrip_fixed v Hr) as [->|(v' & c & -> & Hc)].
    - cbn [app]. rewrite <- app_assoc. cbn [app].
      apply (rstrip_nonspace key ":"%char); [reflexivity|].
      repeat (apply Forall_app; split); try assumption.
      repeat constructor.
    - replace ((key ++ ":"%char :: w1 ++ (v' ++ [c]) ++ w2) ++ [nl])
        with ((key ++ ":"%char :: w1 ++ v') ++ c :: (w2 ++ [nl]))
        by (rewrite <- !app_assoc; cbn [app]; rewrite <- !app_assoc; reflexivity).
      rewrite rstrip_nonspace;
        [| exact Hc | apply Forall_app; split; [exact H2 | repeat constructor]].
      rewrite <- !app_assoc. cbn [app]. rewrite <- !app_assoc.
      destruct v'; reflexivity. }
  rewrite Htext.
  set (rest := match v with [] => [] | _ => w1 ++ v end).
  assert (Hflag : block_flag (key ++ ":"%char :: rest) = false).
  { destruct key as [|c key]; [reflexivity|].
    cbn [app block_flag]. destruct (Ascii.eqb_spec c "["%char) as [->|_];
      [|reflexivity].
    cbn [andb]. rewrite last_app, last_cons. subst rest.
    destruct v as [|x v]; [reflexivity|].
    rewrite last_app.
    destruct (last (x :: v)) as [d|] eqn:Hd;
      [|apply last_None in Hd; discriminate Hd].
    destruct (Ascii.eqb_spec d "]"%char) as [->|_]; [|reflexivity].
    exfalso. apply Hhead. split; reflexivity. }
  assert (Hne : exists c t, key ++ ":"%char :: rest = c :: t)
    by (destruct key; cbn [app]; eauto).
  destruct Hne as (c & t & Heq). rewrite Heq. rewrite <- Heq. rewrite Hflag.
  unfold parse_entry. rewrite (find_colon key rest Hcolon).
  rewrite take_app_length. cbn [fst snd]. f_equal. f_equal.
  replace (drop (S (length key)) (key ++ ":"%char :: rest)) with rest
    by (change (key ++ ":"%char :: rest) with (key ++ [":"%char] ++ rest);
        rewrite app_assoc, drop_app_length';
        [reflexivity | rewrite length_app; cbn [length]; lia]).
  subst rest. destruct v as [|x v']; [reflexivity|].
  rewrite <- (app_nil_r (w1 ++ x :: v')), <- app_assoc.
  apply strip_padded; [exact H1 | constructor | exact Hl | exact Hr].
Qed.

(** X22. Whitespace around a value is ignored and the key is kept as it
    is: a line [key:value] with any whitespace before and after the
    value reads as the line [key: value] does, wherever it stands in the
    file and whatever is asked for (so [unit:m], [unit: m] and
    [unit: m ] read alike). *)
Theorem value_whitespace_ignored (fs : filesystem) (filename : str)
    (before after : list str) (key w1 v w2 : str)
    (sublayer : option str) (all_blocks : bool) :
  Forall (no_char nl) before -> Forall (no_char nl) after ->
  tidy key v -> spaces w1 -> spaces w2 -> no_char nl w1 -> no_char nl w2 ->
  read_keywords
    (<[filename := unlines (before ++ [padded key w1 v w2] ++ after)]> fs)
    filename sublayer all_blocks =
  read_keywords
    (<[filename := unlines (before ++ [entry_text key v] ++ after)]> fs)
    filename sublayer all_blocks.
Proof.
  intros Hb Ha Ht H1 H2 Hn1 Hn2. apply read_parse.
  pose proof Ht as (_ & Hk & Hv & _).
  assert (Hp : no_char nl (padded key w1 v w2)).
  { unfold padded. apply no_char_app. split; [exact Hk|].
    apply no_nl_cons; [discriminate|].
    apply no_char_app. split; [exact Hn1|].
    apply no_char_app. split; assumption. }
  assert (He : no_char nl (entry_text key v)).
  { unfold entry_text. apply no_char_app. split; [exact Hk|].
    apply no_char_app. split; [not_in | exact Hv]. }
  rewrite !parse_unlines
    by (repeat (apply Forall_app; split); try assumption;
        repeat constructor; assumption).
  rewrite !kinds_app. cbn [kinds map].
  rewrite (classify_padded key w1 v w2 Ht H1 H2), (classify_entry key v Ht).
  reflexivity.
Qed.

Lemma value_whitespace_ignored_witness :
  read_keywords
    (<[file1 := unlines ([lit "[x]"] ++ [padded (lit "unit") [] (lit "m") (lit " ")] ++ [])]> ∅)
    file1 None false =
  read_keywords
    (<[file1 := unlines ([lit "[x]"] ++ [entry_text (lit "unit") (lit "m")] ++ [])]> ∅)
    file1 None false.
Proof.
  apply value_whitespace_ignored.
  - repeat constructor; not_in.
  - constructor.
  - tidy_literal.
  - constructor.
  - repeat constructor.
  - not_in.
  - not_in.
Defined.

Lemma no_data_run (ks : list kind) :
  Forall (fun k => forall key val, k <> Data key val) ks ->
  forall st, blocks st = ∅ -> keywords st = ∅ -> first_keywords st = None ->
    let st' := fold_left step_kind ks st in
    blocks st' = ∅ /\ keywords st' = ∅ /\ first_keywords st' = None.
Proof.
  induction 1 as [|k ks Hk _ IH]; intros st Hb Hkw Hf; [cbn; auto|].
  cbn [fold_left]. apply IH; destruct k as [|name|key val];
    try assumption; try (exfalso; apply (Hk key val); reflexivity);
    unfold step_kind, commit; cbn [blocks keywords first_keywords];
    rewrite ?Hkw, ?Hf, ?Hb; try reflexivity.
  destruct (current_block st); reflexivity.
Qed.

(** X23. The edges of [read_keywords]. A file name without the extension
    [.keywords] raises a verification error, whether the file exists or
    not. A file that does not exist reads as the empty dictionary,
    whatever is asked for, a named sublayer too. A file that exists but
    has no line with data (only blank lines and headers) reads as the
    empty dictionary by default and for all blocks, and as [None] for
    every named sublayer. *)
Theorem read_keywords_edges (fs : filesystem) (filename : str) :
  ((splitext filename).2 <> lit ".keywords" ->
   forall sublayer all_blocks,
     read_keywords fs filename sublayer all_blocks = Raise VerificationError) /\
  ((splitext filename).2 = lit ".keywords" -> fs !! filename = None ->
   forall sublayer,
     read_keywords fs filename sublayer true = Ok (RBlocks ∅) /\
     read_keywords fs filename sublayer false = Ok (RKeywords ∅)) /\
  (forall content,
     (splitext filename).2 = lit ".keywords" -> fs !! filename = Some content ->
     Forall (fun line => forall key val, classify line <> Data key val)
       (readlines content) ->
     (forall sublayer, read_keywords fs filename sublayer true = Ok (RBlocks ∅)) /\
     read_keywords fs filename None false = Ok (RKeywords ∅) /\
     (forall name, read_keywords fs filename (Some name) false = Ok RNone)).
Proof.
  split; [|split].
  - intros Hext sublayer all_blocks. unfold read_keywords.
    rewrite bool_decide_eq_false_2 by exact Hext. reflexivity.
  - intros Hext Hfile sublayer. unfold read_keywords.
    rewrite bool_decide_eq_true_2 by exact Hext. rewrite Hfile. split; reflexivity.
  - intros content Hext Hfile Hlines.
    assert (Hrun : blocks (parse content) = ∅ /\
                   first_keywords (parse content) = Some ∅).
    { unfold parse. rewrite fold_step_classify.
      destruct (no_data_run (map classify (readlines content))) with (st := init)
        as (Hb & Hk & Hf); try reflexivity.
      - apply Forall_map. exact Hlines.
      - unfold finish. cbn [blocks first_keywords]. rewrite Hb, Hk, Hf.
        split; [|reflexivity]. destruct (current_block _); reflexivity. }
    destruct Hrun as [Hb Hf].
    split; [|split]; intros; rewrite (read_file _ _ _ _ _ Hext Hfile);
      rewrite ?Hb, ?Hf; reflexivity.
Qed.

Lemma read_keywords_edges_witness :
  read_keywords {[file1 := empty_block_first]} (lit "layer.txt") None false
    = Raise VerificationError /\
  read_keywords ∅ file1 (Some (lit "x")) false = Ok (RKeywords ∅) /\
  read_keywords {[file1 := lit "[x]" ++ [nl] ++ [nl]]} file1 (Some (lit "x")) false
    = Ok RNone.
Proof.
  split; [|split].
  - apply (read_keywords_edges {[file1 := empty_block_first]} (lit "layer.txt")).
    vm_compute. discriminate.
  - apply (read_keywords_edges ∅ file1); [vm_compute; reflexivity | reflexivity].
  - apply (read_keywords_edges {[file1 := lit "[x]" ++ [nl] ++ [nl]]} file1)
      with (content := lit "[x]" ++ [nl] ++ [nl]).
    + vm_compute. reflexivity.
    + vm_compute. reflexivity.
    + repeat constructor; intros key val H; vm_compute in H; discriminate H.
Defined.

End ReaderFacts.

(** ** Writing and reading back, whatever the file holds *)

Module StoreFacts.

Import KeywordStore KeywordStoreFacts KeywordWriterFacts ReaderFacts.

Section Store.

Variable items_kw : kwdict -> list (pykey * pyval).
Variable items_blocks : blockmap -> list (str * kwdict).
Hypothesis items_kw_perm : forall d, items_kw d ≡ₚ map_to_list d.
Hypothesis items_blocks_perm : forall B, items_blocks B ≡ₚ map_to_list B.

Lemma entry_to_string_ok (k : pykey) (v : pyval) (s : str) :
  entry_to_string k v = Ok s -> valid_entry (k, v).
Proof.
  unfold entry_to_string, verify. destruct k as [key|z]; [|discriminate].
  destruct (existsb (Ascii.eqb ":") key) eqn:Hc; [discriminate|].
  destruct (py_str v) as [val|e] eqn:Hv; [|discriminate].
  intros _. exists key, val. split; [reflexivity|]. split; [exact Hv|].
  intros Hin. apply not_true_iff_false in Hc. apply Hc.
  apply existsb_exists. exists ":"%char. split; [exact Hin | reflexivity].
Qed.

Lemma entries_to_string_ok (l : list (pykey * pyval)) :
  forall acc s, entries_to_string l acc = Ok s -> Forall valid_entry l.
Proof.
  induction l as [|[k v] l IH]; intros acc s H; [constructor|].
  cbn [entries_to_string] in H.
  destruct (entry_to_string k v) as [t|e] eqn:Ht; [|discriminate H].
  constructor; [exact (entry_to_string_ok k v t Ht) | exact (IH _ _ H)].
Qed.

Lemma to_string_ok (d : kwdict) (sub : option str) (s : str) :
  _keywords_to_string items_kw d sub = Ok s -> valid_keywords d.
Proof.
  unfold _keywords_to_string. intros H. apply entries_to_string_ok in H.
  intros k v Hkv. rewrite List.Forall_forall in H. apply (H (k, v)).
  apply list_elem_of_In. rewrite (items_kw_perm d).
  apply elem_of_map_to_list. exact Hkv.
Qed.

Lemma write_blocks_ok (filename : str) (L : list (str * kwdict)) :
  forall fs fs', write_blocks items_kw L filename fs = (Ok tt, fs') ->
  Forall (fun nd => valid_keywords nd.2) L.
Proof.
  induction L as [|[n d] L IH]; intros fs fs' H; [constructor|].
  cbn [write_blocks] in H.
  destruct (_keywords_to_string items_kw d (Some n)) as [s|e] eqn:Hs;
    [|discriminate H].
  constructor; [exact (to_string_ok d _ s Hs) | exact (IH _ _ H)].
Qed.

Lemma blocks_valid (fs : filesystem) (filename name : str) (kw : kwdict) :
  valid_keywords kw ->
  Forall (fun nd : str * kwdict => valid_keywords nd.2)
    (items_blocks (<[name := kw]> (existing fs filename))).
Proof.
  intros Hkw. apply List.Forall_forall. intros [n d] Hin.
  apply list_elem_of_In in Hin. rewrite (items_blocks_perm _) in Hin.
  apply elem_of_map_to_list in Hin. cbn [snd].
  destruct (decide (n = name)) as [->|Hne].
  - rewrite lookup_insert_eq in Hin. injection Hin as <-. exact Hkw.
  - rewrite lookup_insert_ne in Hin by congruence.
    apply tidy_keywords_valid. apply (existing_good fs filename n d Hin).
Qed.

(** The three ways in which a call with the right extension goes on. *)
Lemma write_cases (fs : filesystem) (filename : str) (sub : option str) :
  (existing fs filename = ∅) \/
  (existing fs filename <> ∅ /\ (sub = None \/ sub = Some [])) \/
  (existing fs filename <> ∅ /\ exists c name, sub = Some (c :: name)).
Proof.
  destruct (decide (existing fs filename = ∅)) as [He|He]; [left; exact He|].
  right. destruct sub as [[|c name]|]; [left | right | left]; eauto.
Qed.

Lemma write_cases_named (fs : filesystem) (filename : str) (sub : option str) :
  (existing fs filename = ∅) \/
  (existing fs filename <> ∅ /\ (sub = None \/ sub = Some [])) \/
  (existing fs filename <> ∅ /\ exists name : str, sub = Some name /\ name <> []).
Proof.
  destruct (decide (existing fs filename = ∅)) as [He|He]; [left; exact He|].
  right. destruct sub as [[|c name]|]; [left; eauto | right | left; eauto].
  split; [exact He|]. exists (c :: name). split; [reflexivity | discriminate].
Qed.

(** X24. [write_keywords] succeeds exactly when the extension of the
    file name is [.keywords] and every entry of the keywords given has a
    string without colon as its key and a value that [str] can show.
    Nothing that the file holds makes it fail. *)
Theorem write_keywords_succeeds_iff (fs : filesystem) (filename : str)
    (kw : kwdict) (sub : option str) :
  (write_keywords items_kw items_blocks kw filename sub fs).1 = Ok tt <->
  (splitext filename).2 = lit ".keywords" /\ valid_keywords kw.
Proof.
  destruct (decide ((splitext filename).2 = lit ".keywords")) as [Hext|Hext].
  2:{ unfold write_keywords. rewrite bool_decide_eq_false_2 by exact Hext.
      cbn [negb fst]. split; [discriminate | tauto]. }
  destruct (write_cases fs filename sub)
    as [He|[[He Hsub]|(He & c & name & ->)]].
  - rewrite (write_simple items_kw items_blocks items_blocks_perm) by assumption.
    destruct (_keywords_to_string items_kw kw sub) as [s|e] eqn:Hs.
    + split; [|reflexivity]. intros _. split; [exact Hext|].
      exact (to_string_ok kw sub s Hs).
    + split; [discriminate|]. intros [_ Hv].
      rewrite (to_string_valid items_kw items_kw_perm) in Hs by exact Hv.
      discriminate Hs.
  - rewrite (write_collapse items_kw items_blocks items_blocks_perm)
      by assumption.
    destruct (_keywords_to_string items_kw kw None) as [s|e] eqn:Hs.
    + split; [|reflexivity]. intros _. split; [exact Hext|].
      exact (to_string_ok kw None s Hs).
    + split; [discriminate|]. intros [_ Hv].
      rewrite (to_string_valid items_kw items_kw_perm) in Hs by exact Hv.
      discriminate Hs.
  - rewrite (write_multi items_kw items_blocks items_blocks_perm)
      by assumption.
    split.
    + intros H. split; [exact Hext|].
      destruct (write_blocks items_kw _ filename _) as [r fs'] eqn:Hw.
      cbn [fst] in H. subst r. apply write_blocks_ok in Hw.
      rewrite List.Forall_forall in Hw.
      apply (Hw (c :: name, kw)). apply list_elem_of_In.
      rewrite (items_blocks_perm _). apply elem_of_map_to_list.
      apply lookup_insert_eq.
    + intros [_ Hv].
      rewrite (write_blocks_valid items_kw items_kw_perm)
        by (apply blocks_valid, Hv).
      reflexivity.
Qed.

Lemma new_blocks_good (fs : filesystem) (filename name : str) (kw : kwdict) :
  no_char nl name -> tidy_keywords kw -> kw <> ∅ ->
  forall n d, <[name := kw]> (existing fs filename) !! n = Some d ->
    good_block (n, d).
Proof.
  intros Hn Hkw Hne n d Hd. destruct (decide (n = name)) as [->|Hnn].
  - rewrite lookup_insert_eq in Hd. injection Hd as <-. repeat split; assumption.
  - rewrite lookup_insert_ne in Hd by congruence.
    exact (existing_good fs filename n d Hd).
Qed.

(** The file after a successful write under a name into a file that
    holds blocks, and the blocks read back from it. *)
Lemma write_multi_read (fs : filesystem) (filename name : str) (kw : kwdict) :
  (splitext filename).2 = lit ".keywords" -> existing fs filename <> ∅ ->
  name <> [] -> no_char nl name -> tidy_keywords kw -> kw <> ∅ ->
  exists text,
    write_keywords items_kw items_blocks kw filename (Some name) fs
      = (Ok tt, <[filename := text]> fs) /\
    blocks (parse text) = shown_dict <$> <[name := kw]> (existing fs filename).
Proof.
  intros Hext He Hname Hn Hkw Hne.
  exists (unlines (concat (map (block_of items_kw)
            (items_blocks (<[name := kw]> (existing fs filename)))))).
  split.
  - destruct name as [|c name']; [contradiction|].
    etransitivity;
      [exact (write_multi items_kw items_blocks items_blocks_perm kw filename
                c name' fs Hext He)|].
    apply (write_blocks_valid items_kw items_kw_perm filename _
             (blocks_valid fs filename (c :: name') kw
                (tidy_keywords_valid kw Hkw)) [] fs).
  - apply (parse_blocks_text items_kw items_blocks items_kw_perm
             items_blocks_perm).
    apply new_blocks_good; assumption.
Qed.

(** X25. Keywords read back under the sublayer they were written under
    are the keywords written, whatever the file held before: this holds
    for a dictionary of strings whose keys have no colon or newline and
    whose values have no newline or surrounding whitespace (and no entry
    that would be written as a header line), written without sublayer,
    or, when it is not empty, under a sublayer name that is not empty
    and has no newline. *)
Theorem write_then_read (fs : filesystem) (filename : str) (kw : kwdict)
    (sub : option str) :
  (splitext filename).2 = lit ".keywords" -> clean kw ->
  match sub with
  | Some name => name <> [] /\ no_char nl name /\ kw <> ∅
  | None => True
  end ->
  let w := write_keywords items_kw items_blocks kw filename sub fs in
  w.1 = Ok tt /\ read_keywords w.2 filename sub false = Ok (RKeywords kw).
Proof.
  intros Hext Hclean Hsub w. subst w.
  pose proof (clean_tidy kw Hclean) as Htidy.
  pose proof (tidy_keywords_valid kw Htidy) as Hvalid.
  assert (Hone : forall sub' : option str,
    match sub' with
    | Some name => no_char nl name /\ kw <> ∅
    | None => True
    end ->
    read_keywords
      (<[filename := unlines (block_lines sub' (items_kw kw))]> fs)
      filename sub' false = Ok (RKeywords kw)).
  { intros sub' Hs.
    rewrite (read_file _ filename _ sub' false Hext (lookup_insert_eq _ _ _)).
    destruct (parse_block_text items_kw items_kw_perm sub' kw) as [Hb Hf];
      [destruct sub'; tauto | exact Htidy |].
    destruct sub' as [name|].
    - rewrite Hb. destruct Hs as [_ Hne].
      rewrite (proj2 (nonempty_true kw) Hne), lookup_singleton_eq.
      rewrite (clean_shown kw Hclean). reflexivity.
    - rewrite Hf, (clean_shown kw Hclean). reflexivity. }
  destruct (write_cases_named fs filename sub)
    as [He|[[He Hs]|(He & name & -> & _)]].
  - rewrite (write_simple items_kw items_blocks items_blocks_perm) by assumption.
    rewrite (to_string_valid items_kw items_kw_perm) by exact Hvalid.
    cbn [fst snd]. split; [reflexivity|]. apply Hone.
    destruct sub; tauto.
  - rewrite (write_collapse items_kw items_blocks items_blocks_perm)
      by assumption.
    rewrite (to_string_valid items_kw items_kw_perm) by exact Hvalid.
    cbn [fst snd]. split; [reflexivity|].
    destruct Hs as [->| ->]; [apply (Hone None I)|].
    destruct Hsub as [Hne _]. contradiction.
  - destruct Hsub as (Hname & Hn & Hne).
    destruct (write_multi_read fs filename name kw Hext He Hname Hn
                Htidy Hne) as (text & -> & Hb).
    cbn [fst snd]. split; [reflexivity|].
    rewrite (read_file _ filename text _ false Hext (lookup_insert_eq _ _ _)).
    rewrite Hb, lookup_fmap, lookup_insert_eq. cbn [fmap option_fmap option_map].
    unfold shown_dict. rewrite (clean_shown kw Hclean). reflexivity.
Qed.

Lemma shown_strings (d : kwdict) :
  (forall k v, d !! k = Some v -> exists s, v = VStr s) -> shown_dict d = d.
Proof.
  intros H. apply map_eq. intros k. unfold shown_dict. rewrite lookup_fmap.
  destruct (d !! k) as [v|] eqn:Hv; [|reflexivity].
  destruct (H k v Hv) as [s ->]. reflexivity.
Qed.

(** X26. For a file with the extension [.keywords] that holds blocks,
    keywords that are not empty and have tidy entries (string keys without
    colon or newline, values that [str] shows without newline or
    surrounding whitespace, no entry whose key starts with a bracket
    while its value ends with one), and a sublayer name that is not empty
    and has no newline: writing the keywords under that name succeeds and
    keeps the other blocks, whatever the file holds. Read back, the
    blocks are those of the file before with the block of that name
    replaced or added, every value being read back as the string that
    [str] shows for it (the value [None] of a key that stood without
    colon becomes the string [None]; a block whose values are all
    strings is read back as it was); a name that had no block and is not
    the one written still reads as [None]. *)
Theorem sublayer_write_keeps_others (fs : filesystem) (filename content : str)
    (name : str) (kw : kwdict) :
  (splitext filename).2 = lit ".keywords" -> fs !! filename = Some content ->
  blocks (parse content) <> ∅ ->
  name <> [] -> no_char nl name -> tidy_keywords kw -> kw <> ∅ ->
  let w := write_keywords items_kw items_blocks kw filename (Some name) fs in
  w.1 = Ok tt /\
  read_keywords w.2 filename None true =
    Ok (RBlocks (shown_dict <$> <[name := kw]> (blocks (parse content)))) /\
  (forall other d, other <> name -> blocks (parse content) !! other = Some d ->
     read_keywords w.2 filename (Some other) false = Ok (RKeywords (shown_dict d)) /\
     ((forall k v, d !! k = Some v -> exists s, v = VStr s) -> shown_dict d = d)) /\
  (forall other, other <> name -> blocks (parse content) !! other = None ->
     read_keywords w.2 filename (Some other) false = Ok RNone).
Proof.
  intros Hext Hfile He Hname Hn Hkw Hne w. subst w.
  assert (Hex : existing fs filename = blocks (parse content))
    by (unfold existing; rewrite Hfile; reflexivity).
  assert (He' : existing fs filename <> ∅) by (rewrite Hex; exact He).
  destruct (write_multi_read fs filename name kw Hext He' Hname Hn Hkw Hne)
    as (text & -> & Hb).
  rewrite Hex in Hb. cbn [fst snd]. split; [reflexivity|].
  split; [|split].
  - rewrite (read_file _ filename text _ true Hext (lookup_insert_eq _ _ _)).
    rewrite Hb. reflexivity.
  - intros other d Ho Hd. split; [|apply shown_strings].
    rewrite (read_file _ filename text _ false Hext (lookup_insert_eq _ _ _)).
    rewrite Hb, lookup_fmap, lookup_insert_ne, Hd by congruence. reflexivity.
  - intros other Ho Hd.
    rewrite (read_file _ filename text _ false Hext (lookup_insert_eq _ _ _)).
    rewrite Hb, lookup_fmap, lookup_insert_ne, Hd by congruence. reflexivity.
Qed.

Lemma write_blocks_frame (filename : str) (L : list (str * kwdict)) :
  forall (c : str) (fs : filesystem),
  exists c',
    (write_blocks items_kw L filename (<[filename := c]> fs)).2
      = <[filename := c']> fs.
Proof.
  induction L as [|[n d] L IH]; intros c fs; cbn [write_blocks].
  - exists c. reflexivity.
  - destruct (_keywords_to_string items_kw d (Some n)) as [s|e].
    + rewrite !handle_write_insert. apply IH.
    + exists c. reflexivity.
Qed.

(** X27. [write_keywords] touches no other file: whether it succeeds or
    raises, every other file name is mapped as before. With a wrong
    extension nothing at all is changed; with the right one the file
    exists afterwards, even when the call raised. *)
Theorem write_keywords_frame (fs : filesystem) (filename : str) (kw : kwdict)
    (sub : option str) :
  let w := write_keywords items_kw items_blocks kw filename sub fs in
  (forall other, other <> filename -> w.2 !! other = fs !! other) /\
  ((splitext filename).2 <> lit ".keywords" ->
   w = (Raise VerificationError, fs)) /\
  ((splitext filename).2 = lit ".keywords" ->
   exists text, w.2 !! filename = Some text).
Proof.
  intros w. subst w.
  destruct (decide ((splitext filename).2 = lit ".keywords")) as [Hext|Hext].
  2:{ unfold write_keywords. rewrite bool_decide_eq_false_2 by exact Hext.
      cbn [negb snd]. split; [reflexivity|]. split; [reflexivity | contradiction]. }
  assert (Hshape : exists text,
    (write_keywords items_kw items_blocks kw filename sub fs).2
      = <[filename := text]> fs).
  { destruct (write_cases fs filename sub)
      as [He|[[He Hs]|(He & c & name & ->)]].
    - rewrite (write_simple items_kw items_blocks items_blocks_perm)
        by assumption.
      destruct (_keywords_to_string items_kw kw sub); eexists; reflexivity.
    - rewrite (write_collapse items_kw items_blocks items_blocks_perm)
        by assumption.
      destruct (_keywords_to_string items_kw kw None); eexists; reflexivity.
    - rewrite (write_multi items_kw items_blocks items_blocks_perm)
        by assumption.
      apply write_blocks_frame. }
  destruct Hshape as (text & ->).
  split; [|split; [contradiction|]].
  - intros other Ho. apply lookup_insert_ne. congruence.
  - intros _. exists text. apply lookup_insert_eq.
Qed.

Lemma insert_others (L : list (str * kwdict)) (name : str) :
  (forall nd, In nd L -> nd.1 <> name) ->
  forall B : blockmap,
    fold_left (fun (B : blockmap) nd => <[nd.1 := shown <$> nd.2]> B) L B !! name
      = B !! name.
Proof.
  induction L as [|[n d] L IH]; intros Hn B; [reflexivity|].
  cbn [fold_left]. rewrite IH by (intros nd Hin; apply Hn; right; exact Hin).
  apply lookup_insert_ne. apply (Hn (n, d)). left. reflexivity.
Qed.

(** X28. A later block that is not empty replaces an earlier block of
    the same name as a whole. In a file with the extension [.keywords]
    made of blocks written one after the other, each with a name without
    newline and a dictionary that is not empty and has tidy entries, a
    read under a name returns the entries of the last block of that
    name, every value as the string that [str] shows for it, and nothing
    of the blocks of that name before it. *)
Theorem last_block_of_a_name_wins (fs : filesystem) (filename : str)
    (L1 L2 : list (str * kwdict)) (name : str) (d : kwdict) :
  (splitext filename).2 = lit ".keywords" ->
  Forall good_block (L1 ++ (name, d) :: L2) ->
  (forall nd, In nd L2 -> nd.1 <> name) ->
  let text :=
    unlines (concat (map (block_of items_kw) (L1 ++ (name, d) :: L2))) in
  read_keywords (<[filename := text]> fs) filename (Some name) false
    = Ok (RKeywords (shown_dict d)).
Proof.
  intros Hext Hgood Hlater text.
  rewrite (read_file _ filename text _ false Hext (lookup_insert_eq _ _ _)).
  assert (Hb : blocks (parse text) !! name = Some (shown_dict d)).
  { unfold text, parse. rewrite blocks_finish.
    rewrite run_unlines by (apply (blocks_no_nl items_kw items_kw_perm), Hgood).
    fold (kinds (concat (map (block_of items_kw) (L1 ++ (name, d) :: L2)))).
    rewrite (run_blocks items_kw items_kw_perm _ Hgood)
      by (destruct L1; discriminate).
    rewrite fold_left_app. cbn [fold_left fst snd].
    rewrite (insert_others L2 name Hlater). apply lookup_insert_eq. }
  rewrite Hb. reflexivity.
Qed.

End Store.

Lemma write_keywords_succeeds_iff_witness :
  (write_keywords map_to_list map_to_list one_c file1 (Some (lit "z"))
     {[file1 := two_blocks]}).1 = Ok tt <->
  (splitext file1).2 = lit ".keywords" /\ valid_keywords one_c.
Proof.
  apply (write_keywords_succeeds_iff map_to_list map_to_list
           same_order same_order).
Defined.

Lemma write_then_read_witness :
  let w := write_keywords map_to_list map_to_list one_c file1
             (Some (lit "y")) {[file1 := two_blocks]} in
  w.1 = Ok tt /\
  read_keywords w.2 file1 (Some (lit "y")) false = Ok (RKeywords one_c).
Proof.
  apply (write_then_read map_to_list map_to_list same_order same_order).
  - vm_compute. reflexivity.
  - apply singleton_clean. tidy_literal.
  - split; [discriminate|]. split; [not_in|]. apply map_non_empty_singleton.
Defined.

Lemma sublayer_write_keeps_others_witness :
  let w := write_keywords map_to_list map_to_list one_c file1
             (Some (lit "z")) {[file1 := two_blocks]} in
  w.1 = Ok tt /\
  read_keywords w.2 file1 None true =
    Ok (RBlocks (shown_dict <$> <[lit "z" := one_c]> (blocks (parse two_blocks)))) /\
  (forall other d, other <> lit "z" ->
     blocks (parse two_blocks) !! other = Some d ->
     read_keywords w.2 file1 (Some other) false = Ok (RKeywords (shown_dict d)) /\
     ((forall k v, d !! k = Some v -> exists s, v = VStr s) -> shown_dict d = d)) /\
  (forall other, other <> lit "z" -> blocks (parse two_blocks) !! other = None ->
     read_keywords w.2 file1 (Some other) false = Ok RNone).
Proof.
  apply (sublayer_write_keeps_others map_to_list map_to_list
           same_order same_order {[file1 := two_blocks]} file1 two_blocks).
  - vm_compute. reflexivity.
  - vm_compute. reflexivity.
  - intros H. apply (f_equal (fun B : blockmap => B !! lit "x")) in H.
    vm_compute in H. discriminate H.
  - discriminate.
  - not_in.
  - apply clean_tidy, singleton_clean. tidy_literal.
  - apply map_non_empty_singleton.
Defined.

Lemma write_keywords_frame_witness :
  let w := write_keywords map_to_list map_to_list int_key file1 None
             simple_file in
  (forall other, other <> file1 -> w.2 !! other = simple_file !! other) /\
  ((splitext file1).2 <> lit ".keywords" ->
   w = (Raise VerificationError, simple_file)) /\
  ((splitext file1).2 = lit ".keywords" ->
   exists text, w.2 !! file1 = Some text).
Proof.
  apply (write_keywords_frame map_to_list map_to_list same_order).
Defined.

Lemma last_block_of_a_name_wins_witness :
  let text :=
    unlines (concat (map (block_of map_to_list)
      ([(lit "x", one_a)] ++ (lit "x", one_b) :: [(lit "y", one_c)]))) in
  read_keywords (<[file1 := text]> ∅) file1 (Some (lit "x")) false
    = Ok (RKeywords (shown_dict one_b)).
Proof.
  apply (last_block_of_a_name_wins map_to_list same_order).
  - vm_compute. reflexivity.
  - repeat constructor; try not_in;
      try (apply clean_tidy, singleton_clean; tidy_literal);
      apply map_non_empty_singleton.
  - intros nd [<-|[]]. discriminate.
Defined.

(** *** What the writer writes on a line

    Lines without colon are the only ones that read with an absent value;
    the writer writes none. *)

Section Written.

Variable items_kw : kwdict -> list (pykey * pyval).
Variable items_blocks : blockmap -> list (str * kwdict).
Hypothesis items_kw_perm : forall d, items_kw d ≡ₚ map_to_list d.
Hypothesis items_blocks_perm : forall B, items_blocks B ≡ₚ map_to_list B.

Lemma rstrip_keeps (c : ascii) (s : str) :
  is_space c = false -> In c s -> In c (rstrip s).
Proof.
  intros Hc Hin. destruct (rstrip_split s) as (w & Hs & Hw).
  rewrite Hs in Hin. apply in_app_or in Hin as [Hin|Hin]; [exact Hin|].
  exfalso. unfold spaces in Hw. rewrite List.Forall_forall in Hw.
  rewrite (Hw c Hin) in Hc. discriminate Hc.
Qed.

Lemma classify_none_iff (line : str) (k : pykey) (v : pyval) :
  classify line = Data k v -> (v = VNone <-> no_char ":"%char (rstrip line)).
Proof.
  unfold classify. destruct (rstrip line) as [|c text]; [discriminate|].
  destruct (block_flag (c :: text)); [discriminate|].
  intros H. injection H as _ <-. unfold parse_entry.
  destruct (find ":" (c :: text)) as [idx|] eqn:Hfind; cbn [snd].
  - destruct (find_some _ _ _ Hfind) as [_ Htext]. split; [discriminate|].
    intros Hno. exfalso. apply Hno. rewrite Htext.
    apply in_or_app. right. left. reflexivity.
  - split; [|reflexivity]. intros _. apply find_none, Hfind.
Qed.

(** Entries that are written on a line of their own: the key and the
    text of the value have no newline. *)
Definition plain_entry (kv : pykey * pyval) : Prop :=
  exists key s, kv.1 = KStr key /\ py_str kv.2 = Ok s /\
    no_char ":"%char key /\ no_char nl key /\ no_char nl s.

Definition plain (d : kwdict) : Prop :=
  forall k v, d !! k = Some v -> plain_entry (k, v).

Lemma plain_valid (d : kwdict) : plain d -> valid_keywords d.
Proof.
  intros H k v Hkv. destruct (H k v Hkv) as (key & s & Hk & Hs & Hc & _).
  exists key, s. auto.
Qed.

Lemma tidy_plain (d : kwdict) : tidy_keywords d -> plain d.
Proof.
  intros H k v Hkv.
  destruct (H k v Hkv) as (key & s & Hk & Hs & Hc & Hn & Hsn & _).
  exists key, s. auto.
Qed.

(** A line of a file that is not read as a key without value. *)
Definition written_line (t : str) : Prop :=
  no_char nl t /\ forall k v, classify (t ++ [nl]) = Data k v -> v <> VNone.

Lemma shown_text_written (kv : pykey * pyval) :
  plain_entry kv -> written_line (shown_text kv).
Proof.
  intros (key & s & Hk & Hs & Hc & Hn & Hsn). unfold shown_text.
  rewrite Hk, Hs. unfold entry_text. split.
  - apply no_char_app. split; [exact Hn|].
    apply no_char_app. split; [not_in | exact Hsn].
  - intros k v Hline Hv. apply (classify_none_iff _ _ _ Hline) in Hv.
    apply Hv. apply rstrip_keeps; [reflexivity|].
    apply in_or_app. left. apply in_or_app. right.
    apply in_or_app. left. left. reflexivity.
Qed.

Lemma header_written (name : str) :
  no_char nl name -> written_line (header_text name).
Proof.
  intros Hn. split; [apply header_text_no_nl, Hn|].
  intros k v H. rewrite classify_header in H. discriminate H.
Qed.

Lemma blank_written : written_line [].
Proof.
  split; [intros []|]. intros k v H. rewrite classify_blank in H. discriminate H.
Qed.

Lemma items_plain (d : kwdict) : plain d -> Forall plain_entry (items_kw d).
Proof.
  intros H. apply List.Forall_forall. intros [k v] Hin. apply H.
  apply elem_of_map_to_list. rewrite <- (items_kw_perm d).
  apply list_elem_of_In, Hin.
Qed.

Lemma block_lines_written (sub : option str) (d : kwdict) :
  match sub with Some name => no_char nl name | None => True end ->
  plain d -> Forall written_line (block_lines sub (items_kw d)).
Proof.
  intros Hsub Hd. unfold block_lines. apply Forall_app. split.
  - destruct sub as [name|]; [|constructor].
    constructor; [apply header_written, Hsub | constructor].
  - apply Forall_map. eapply Forall_impl; [apply items_plain, Hd|].
    intros kv. apply shown_text_written.
Qed.

Lemma blocks_written (L : list (str * kwdict)) :
  Forall (fun nd => no_char nl nd.1 /\ plain nd.2) L ->
  Forall written_line (concat (map (block_of items_kw) L)).
Proof.
  induction 1 as [|nd L [Hn Hd] _ IH]; [constructor|].
  cbn [map concat]. apply Forall_app. split; [|exact IH].
  unfold block_of. apply Forall_app. split.
  - apply (block_lines_written (Some nd.1)); assumption.
  - constructor; [apply blank_written | constructor].
Qed.

Lemma written_read (ts : list str) :
  Forall written_line ts ->
  forall line k v,
    In line (readlines (unlines ts)) -> classify line = Data k v -> v <> VNone.
Proof.
  intros Hts line k v Hin Hline.
  assert (Hnl : Forall (no_char nl) ts)
    by (eapply Forall_impl; [exact Hts | intros t [Ht _]; exact Ht]).
  unfold unlines in Hin.
  rewrite <- (app_nil_r (concat _)), (readlines_lines ts [] Hnl) in Hin.
  cbn [readlines] in Hin. rewrite app_nil_r in Hin.
  apply in_map_iff in Hin as (t & <- & Ht).
  rewrite List.Forall_forall in Hts. exact (proj2 (Hts t Ht) k v Hline).
Qed.

(** C4 (as the code has it). A key whose value is [None] is written as
    the line [key: None], and read back it has the string [None] as its
    value. On reading, the value of a data line is [None] exactly when
    the line has no colon. The writer writes no such line: when no key,
    no text of a value and no sublayer name holds a newline, then
    whatever the file held before, no data line of the file written
    reads with the value [None]. *)
Theorem none_is_written_as_text :
  (forall (fs : filesystem) (filename key : str),
     (splitext filename).2 = lit ".keywords" ->
     no_char ":"%char key -> no_char nl key ->
     let w := write_keywords items_kw items_blocks {[KStr key := VNone]}
                filename None fs in
     w.1 = Ok tt /\
     w.2 !! filename = Some (key ++ lit ": None" ++ [nl]) /\
     read_keywords w.2 filename None false =
       Ok (RKeywords {[KStr key := VStr (lit "None")]})) /\
  (forall (line : str) (k : pykey) (v : pyval),
     classify line = Data k v ->
     (v = VNone <-> no_char ":"%char (rstrip line))) /\
  (forall (fs : filesystem) (filename : str) (kw : kwdict) (sub : option str),
     (splitext filename).2 = lit ".keywords" -> plain kw ->
     match sub with Some name => no_char nl name | None => True end ->
     let w := write_keywords items_kw items_blocks kw filename sub fs in
     w.1 = Ok tt /\
     exists text, w.2 !! filename = Some text /\
       forall line k v,
         In line (readlines text) -> classify line = Data k v -> v <> VNone).
Proof.
  split; [|split; [exact classify_none_iff|]].
  - intros fs filename key Hext Hcolon Hnl w.
    pose proof (none_entry_tidy key Hcolon Hnl) as Htidy.
    set (d := ({[KStr key := VNone]} : kwdict)) in *.
    set (text := unlines (block_lines None (items_kw d))).
    assert (Hstr : _keywords_to_string items_kw d None = Ok text)
      by (apply (to_string_valid items_kw items_kw_perm),
            tidy_keywords_valid, Htidy).
    assert (Hw : w = (Ok tt, <[filename := text]> fs)).
    { subst w. destruct (decide (existing fs filename = ∅)) as [HB|HB].
      - rewrite (write_simple items_kw items_blocks items_blocks_perm)
          by assumption.
        rewrite Hstr. reflexivity.
      - rewrite (write_collapse items_kw items_blocks items_blocks_perm);
          [|assumption|assumption|left; reflexivity].
        rewrite Hstr. reflexivity. }
    assert (Hitems : items_kw d = [(KStr key, VNone)]).
    { apply Permutation_singleton_r. rewrite items_kw_perm. unfold d.
      rewrite map_to_list_singleton. reflexivity. }
    rewrite Hw. cbn [fst snd]. split; [reflexivity|]. split.
    + rewrite lookup_insert_eq. f_equal. unfold text, block_lines.
      rewrite Hitems. unfold unlines. cbn [app map concat].
      rewrite app_nil_r. unfold shown_text. cbn [fst snd py_str].
      unfold entry_text. rewrite <- !app_assoc. reflexivity.
    + rewrite (read_file _ _ _ _ _ Hext (lookup_insert_eq _ _ _)).
      destruct (parse_block_text items_kw items_kw_perm None d I Htidy)
        as [_ Hf].
      fold text in Hf. rewrite Hf.
      unfold d. rewrite map_fmap_singleton. reflexivity.
  - intros fs filename kw sub Hext Hkw Hsub w. subst w.
    pose proof (plain_valid kw Hkw) as Hvalid.
    destruct (write_cases_named fs filename sub)
      as [He|[[He Hs]|(He & name & -> & Hname)]].
    + rewrite (write_simple items_kw items_blocks items_blocks_perm)
        by assumption.
      rewrite (to_string_valid items_kw items_kw_perm) by exact Hvalid.
      cbn [fst snd]. split; [reflexivity|]. eexists.
      split; [apply lookup_insert_eq|].
      apply written_read, block_lines_written; assumption.
    + rewrite (write_collapse items_kw items_blocks items_blocks_perm)
        by assumption.
      rewrite (to_string_valid items_kw items_kw_perm) by exact Hvalid.
      cbn [fst snd]. split; [reflexivity|]. eexists.
      split; [apply lookup_insert_eq|].
      apply written_read, (block_lines_written None); [exact I | exact Hkw].
    + assert (Hw : write_keywords items_kw items_blocks kw filename (Some name) fs
                   = (Ok tt, <[filename :=
                        unlines (concat (map (block_of items_kw)
                          (items_blocks (<[name := kw]> (existing fs filename)))))]> fs)).
      { destruct name as [|c name']; [contradiction|].
        etransitivity;
          [exact (write_multi items_kw items_blocks items_blocks_perm kw
                    filename c name' fs Hext He)|].
        apply (write_blocks_valid items_kw items_kw_perm filename _
                 (blocks_valid items_blocks items_blocks_perm fs filename
                    (c :: name') kw Hvalid) [] fs). }
      rewrite Hw. cbn [fst snd]. split; [reflexivity|]. eexists.
      split; [apply lookup_insert_eq|].
      apply written_read, blocks_written.
      apply List.Forall_forall. intros [n d] Hin.
      apply list_elem_of_In in Hin. rewrite (items_blocks_perm _) in Hin.
      apply elem_of_map_to_list in Hin. cbn [fst snd].
      destruct (decide (n = name)) as [->|Hne].
      * rewrite lookup_insert_eq in Hin. injection Hin as <-. auto.
      * rewrite lookup_insert_ne in Hin by congruence.
        destruct (existing_good fs filename n d Hin) as (Hn & Ht & _).
        split; [exact Hn | apply tidy_plain, Ht].
Qed.

End Written.

Lemma none_is_written_as_text_witness :
  (let w := write_keywords map_to_list map_to_list
              {[KStr (lit "foo") := VNone]} file1 None ∅ in
   w.1 = Ok tt /\
   w.2 !! file1 = Some (lit "foo" ++ lit ": None" ++ [nl]) /\
   read_keywords w.2 file1 None false =
     Ok (RKeywords {[KStr (lit "foo") := VStr (lit "None")]})) /\
  (let w := write_keywords map_to_list map_to_list
              {[KStr (lit "foo") := VNone]} file1 (Some (lit "z"))
              {[file1 := two_blocks]} in
   w.1 = Ok tt /\
   exists text, w.2 !! file1 = Some text /\
     forall line k v,
       In line (readlines text) -> classify line = Data k v -> v <> VNone).
Proof.
  destruct (none_is_written_as_text map_to_list map_to_list
              same_order same_order) as (Hnone & _ & Hlines).
  split.
  - apply (Hnone ∅ file1 (lit "foo")); [vm_compute; reflexivity | not_in | not_in].
  - apply (Hlines {[file1 := two_blocks]} file1 {[KStr (lit "foo") := VNone]}
             (Some (lit "z"))).
    + vm_compute. reflexivity.
    + apply tidy_plain, none_entry_tidy; not_in.
    + not_in.
Defined.

End StoreFacts.
